(** * AES-128 FPGA accelerator benchmark: protocol engine and harness

    A shallow embedding of [aes-eval/eval_aes.py].  The serial transport,
    the entropy source, the wall clock and the software AES reference are
    external collaborators of the script; they appear here as the
    parameters of one [Section], and everything the script itself does is
    written out as functions over an explicit world state.

    Conventions.  Console output is not modelled.  [serial.Serial]
    checks its settings before it touches the port and raises
    [ValueError] on a negative baud rate or timeout; an open attempt
    that fails raises [SerialException].  Once a port is open the
    transport does not raise: a read returns what arrived before its
    timeout, possibly fewer bytes than asked for.  Writing an image file
    may fail.  Python floats are exact rationals: a float expression of
    the script stands for its exact value, and nothing below rests on an
    algebraic identity between such values that rounding would break;
    [percentile_index_binary64] checks that no percentile index changes.
    The [while] loop of the throughput test takes fuel. *)

From Stdlib Require Import ZArith QArith Qround SpecFloat.
From stdpp Require Import base tactics option list strings.
From Stdlib Require Import Sorted Permutation.

Local Open Scope nat_scope.

(** ** Bytes *)

Abbreviation bytes := (list Byte.byte).

Definition byte_val (b : Byte.byte) : Z := Z.of_N (Byte.to_N b).

Fixpoint bytes_eqb (a b : bytes) : bool :=
  match a, b with
  | [], [] => true
  | x :: a', y :: b' => Byte.eqb x y && bytes_eqb a' b'
  | _, _ => false
  end.

(** ** Exceptions and the world the script runs in *)

Inductive exn : Type :=
  | ValueError (msg : string)
  | StructError
  | ZeroDivisionError
  | IndexError
  | TypeError
  | OSError.

Inductive outcome (A : Type) : Type :=
  | Return (a : A)
  | Raise (e : exn).
Arguments Return {A} a.
Arguments Raise {A} e.

(** One [serial.Serial] object.  [written] keeps the frames written so
    far, most recent first; [in_buffer] is the driver's receive buffer. *)
Record Serial : Type := mkSerial {
  ser_port : string;
  is_open : bool;
  in_buffer : bytes;
  written : list bytes
}.

(** What the script does to the transport, in program order.  [h] is the
    index of the [Serial] object in the store. *)
Inductive io_event : Type :=
  | IoOpen (h : nat) (port : string)
  | IoOpenFailed (port : string)
  | IoSleep
  | IoResetInput (h : nat)
  | IoWrite (h : nat) (data : bytes)
  | IoFlush (h : nat)
  | IoRead (h : nat) (size : nat) (got : bytes)
  | IoClose (h : nat).

Record World : Type := mkWorld {
  conns : list Serial;
  io_trace : list io_event;
  rand_ix : nat;
  clock_ix : nat
}.

Definition set_conns (f : list Serial → list Serial) (w : World) : World :=
  mkWorld (f (conns w)) (io_trace w) (rand_ix w) (clock_ix w).

Definition log_io (e : io_event) (w : World) : World :=
  mkWorld (conns w) (io_trace w ++ [e]) (rand_ix w) (clock_ix w).

(** State and exception monad: a raised exception keeps the effects
    performed before it. *)
Definition M (A : Type) : Type := World → World * outcome A.

Global Instance M_ret : MRet M := λ A a w, (w, Return a).

Global Instance M_bind : MBind M := λ A B k m w,
  match m w with
  | (w', Return a) => k a w'
  | (w', Raise e) => (w', Raise e)
  end.

Definition lift_outcome {A : Type} (o : outcome A) : M A := λ w, (w, o).

(** [try: m except Exception: handler] *)
Definition try_except {A : Type} (m : M A) (handler : exn → M A) : M A := λ w,
  match m w with
  | (w', Return a) => (w', Return a)
  | (w', Raise e) => handler e w'
  end.

Definition modify (f : World → World) : M unit := λ w, (f w, Return tt).

Definition emit (e : io_event) : M unit := modify (log_io e).

(** ** Class constants of [AESBenchmark] *)

Definition FRAME_MARKER : bytes := [Byte.xff; Byte.xff].
Definition KEY_SIZE : nat := 16.
Definition BLOCK_SIZE : nat := 16.
Definition TX_FRAME_SIZE : nat := KEY_SIZE + BLOCK_SIZE + 2.
Definition RX_FRAME_SIZE : nat := BLOCK_SIZE + 4.

Definition NIST_KEY : bytes :=
  [Byte.x2b; Byte.x7e; Byte.x15; Byte.x16; Byte.x28; Byte.xae; Byte.xd2; Byte.xa6;
   Byte.xab; Byte.xf7; Byte.x15; Byte.x88; Byte.x09; Byte.xcf; Byte.x4f; Byte.x3c].
Definition NIST_PT : bytes :=
  [Byte.x32; Byte.x43; Byte.xf6; Byte.xa8; Byte.x88; Byte.x5a; Byte.x30; Byte.x8d;
   Byte.x31; Byte.x31; Byte.x98; Byte.xa2; Byte.xe0; Byte.x37; Byte.x07; Byte.x34].
Definition NIST_CT : bytes :=
  [Byte.x39; Byte.x25; Byte.x84; Byte.x1d; Byte.x02; Byte.xdc; Byte.x09; Byte.xfb;
   Byte.xdc; Byte.x11; Byte.x85; Byte.x97; Byte.x19; Byte.x6a; Byte.x0b; Byte.x32].

(** [struct.unpack('<I', data)[0]]: four bytes, least significant first;
    any other length raises [struct.error]. *)
Definition struct_unpack_I (data : bytes) : outcome Z :=
  match data with
  | [b0; b1; b2; b3] =>
      Return (Z.lor (byte_val b0)
             (Z.lor (Z.shiftl (byte_val b1) 8)
             (Z.lor (Z.shiftl (byte_val b2) 16)
                    (Z.shiftl (byte_val b3) 24))))
  | _ => Raise StructError
  end.

(** Exceptions alone, for the pure parts of the script. *)
Global Instance outcome_ret : MRet outcome := λ A a, Return a.

Global Instance outcome_bind : MBind outcome := λ A B k o,
  match o with
  | Return a => k a
  | Raise e => Raise e
  end.

(** ** Python built-ins the script uses

    Python floats are taken as exact rationals: [/] is true division and
    raises [ZeroDivisionError] on a zero divisor. *)

Definition Qltb (a b : Q) : bool := negb (Qle_bool b a).

Definition py_div (a b : Q) : outcome Q :=
  if Qeq_bool b 0 then Raise ZeroDivisionError else Return (a / b)%Q.

(** [int(x)] for a float [x]: truncation towards zero. *)
Definition py_int (x : Q) : Z :=
  if Qle_bool 0 x then Qfloor x else Qceiling x.

(** [l[i]] for an integer [i]; negative indices count from the end. *)
Definition py_index {A : Type} (l : list A) (i : Z) : outcome A :=
  let j := if (i <? 0)%Z then (i + Z.of_nat (length l))%Z else i in
  if (j <? 0)%Z then Raise IndexError
  else match l !! Z.to_nat j with
       | Some x => Return x
       | None => Raise IndexError
       end.

(** [data[a:b]] for [0 <= a <= b]. *)
Definition py_slice {A : Type} (l : list A) (a b : nat) : list A :=
  take (b - a) (drop a l).

(** [min(l)] and [max(l)]: the first extremal element; empty raises. *)
Definition py_min {A : Type} (ltb : A → A → bool) (l : list A) : outcome A :=
  match l with
  | [] => Raise (ValueError "min() arg is an empty sequence"%string)
  | x :: l' => Return (fold_left (λ m y, if ltb y m then y else m) l' x)
  end.

Definition py_max {A : Type} (ltb : A → A → bool) (l : list A) : outcome A :=
  match l with
  | [] => Raise (ValueError "max() arg is an empty sequence"%string)
  | x :: l' => Return (fold_left (λ m y, if ltb m y then y else m) l' x)
  end.

Definition sumQ (l : list Q) : Q := fold_left Qplus l 0%Q.
Definition sumZ (l : list Z) : Z := fold_left Z.add l 0%Z.

(** [list.sort()]: a stable ascending sort.  For a given comparison a
    stable sort has one possible result, so insertion from the right
    stands for Python's algorithm. *)
Fixpoint sort_insert {A : Type} (leb : A → A → bool) (x : A) (l : list A) : list A :=
  match l with
  | [] => [x]
  | y :: l' => if leb x y then x :: y :: l' else y :: sort_insert leb x l'
  end.

Definition py_sort {A : Type} (leb : A → A → bool) (l : list A) : list A :=
  foldr (sort_insert leb) [] l.

Record AESBenchmark : Type := mkBench {
  port : string;
  baudrate : Z;
  timeout : Q;
  ser : option nat
}.

(** [AESBenchmark.__init__] *)
Definition new_bench (port : string) (baudrate : Z) (timeout : Q) : AESBenchmark :=
  mkBench port baudrate timeout None.

(** Lines 131-137 of [encrypt_block]: length validation, then the TX
    frame. *)
Definition encode_request (key plaintext : bytes) : outcome bytes :=
  if negb (length key =? KEY_SIZE) then
    Raise (ValueError "Key must be 16 bytes"%string)
  else if negb (length plaintext =? BLOCK_SIZE) then
    Raise (ValueError "Plaintext must be 16 bytes"%string)
  else Return (key ++ plaintext ++ FRAME_MARKER).

(** Lines 149-156 of [encrypt_block]: length check, then the parse. *)
Definition decode_response (rx_data : bytes) : outcome (option bytes * option Z) :=
  if negb (length rx_data =? RX_FRAME_SIZE) then Return (None, None)
  else
    let ciphertext := take BLOCK_SIZE rx_data in
    match struct_unpack_I (drop BLOCK_SIZE rx_data) with
    | Return cycle_count => Return (Some ciphertext, Some cycle_count)
    | Raise e => Raise e
    end.

Section Environment.

(** *** The external collaborators *)

(** [serial.Serial(port=...)], given settings it accepts, succeeds on
    this port (otherwise it raises [SerialException]). *)
Variable can_open : string → bool.
(** Bytes already waiting in the receive buffer when a port is opened. *)
Variable boot_noise : string → bytes.
(** The bytes the device on a port delivers before the read timeout
    expires, given every frame written on this connection so far (most
    recent first). *)
Variable respond : string → list bytes → bytes.
(** The entropy behind [os.urandom]. *)
Variable entropy : nat → Byte.byte.
(** Successive readings of the clock ([time.time], [time.perf_counter]). *)
Variable clock : nat → Q.
(** The software reference: one AES-128 block operation each way. *)
Variable aes_encrypt_block : bytes → bytes → bytes.
Variable aes_decrypt_block : bytes → bytes → bytes.
(** Whether the output image with this suffix ([hw_encrypted],
    [sw_encrypted], [decrypted]) can be written next to the input. *)
Variable can_save : string → bool.

(** *** Transport primitives (pyserial) *)

(** [serial.Serial(port, baudrate, ..., timeout=timeout)].  The
    constructor sets [baudrate] and then [timeout] before it opens the
    port, and each setter raises [ValueError] on a negative value; that
    is not a [SerialException].  With settings it accepts the port is
    opened, or the attempt raises [SerialException], which is [None]
    here. *)
Definition serial_open (p : string) (baudrate : Z) (timeout : Q) : M (option nat) := λ w,
  if (baudrate <? 0)%Z then (w, Raise (ValueError "Not a valid baudrate"%string))
  else if Qltb timeout 0 then (w, Raise (ValueError "Not a valid timeout"%string))
  else if can_open p then
    let h := length (conns w) in
    (log_io (IoOpen h p)
       (set_conns (λ cs, cs ++ [mkSerial p true (boot_noise p) []]) w),
     Return (Some h))
  else (log_io (IoOpenFailed p) w, Return None).

Definition update_conn (h : nat) (f : Serial → Serial) : M unit :=
  modify (set_conns (λ cs,
    match cs !! h with
    | Some s => <[h := f s]> cs
    | None => cs
    end)).

Definition serial_is_open (h : nat) : M bool := λ w,
  (w, Return (match conns w !! h with Some s => is_open s | None => false end)).

Definition reset_input_buffer (h : nat) : M unit :=
  update_conn h (λ s, mkSerial (ser_port s) (is_open s) [] (written s));;
  emit (IoResetInput h).

Definition serial_write (h : nat) (data : bytes) : M unit :=
  update_conn h (λ s,
    mkSerial (ser_port s) (is_open s)
             (in_buffer s ++ respond (ser_port s) (data :: written s))
             (data :: written s));;
  emit (IoWrite h data).

Definition serial_flush (h : nat) : M unit := emit (IoFlush h).

(** [read(size)]: at most [size] bytes of what has arrived; the rest
    stays in the buffer. *)
Definition serial_read (h : nat) (size : nat) : M bytes := λ w,
  let buf := match conns w !! h with Some s => in_buffer s | None => [] end in
  let got := take size buf in
  (update_conn h (λ s,
     mkSerial (ser_port s) (is_open s) (drop size (in_buffer s)) (written s));;
   emit (IoRead h size got);;
   mret got) w.

Definition serial_close (h : nat) : M unit :=
  update_conn h (λ s, mkSerial (ser_port s) false (in_buffer s) (written s));;
  emit (IoClose h).

(** *** [AESBenchmark] methods *)

(** Lines 93-110.  Only [SerialException] is caught: the [ValueError]
    of the constructor leaves [connect]. *)
Definition connect (self : AESBenchmark) : M (AESBenchmark * bool) :=
  r ← serial_open (port self) (baudrate self) (timeout self);
  match r with
  | Some h =>
      emit IoSleep;;
      reset_input_buffer h;;
      mret (mkBench (port self) (baudrate self) (timeout self) (Some h), true)
  | None => mret (self, false)
  end.

Definition disconnect (self : AESBenchmark) : M unit :=
  match ser self with
  | Some h =>
      opened ← serial_is_open h;
      if (opened : bool) then serial_close h else mret ()
  | None => mret ()
  end.

(** The returned tuple keeps its two optional components apart, as
    [Tuple[Optional[bytes], Optional[int]]] does. *)
Definition encrypt_block (self : AESBenchmark) (key plaintext : bytes)
  : M (option bytes * option Z) :=
  match ser self with
  | None => mret (None, None)
  | Some h =>
      opened ← serial_is_open h;
      if negb opened then mret (None, None)
      else
        tx_frame ← lift_outcome (encode_request key plaintext);
        reset_input_buffer h;;
        serial_write h tx_frame;;
        serial_flush h;;
        rx_data ← serial_read h RX_FRAME_SIZE;
        lift_outcome (decode_response rx_data)
  end.

Definition validate_with_nist (self : AESBenchmark) : M bool :=
  r ← encrypt_block self NIST_KEY NIST_PT;
  match fst r with
  | None => mret false
  | Some ciphertext => mret (bytes_eqb ciphertext NIST_CT)
  end.

(** [AES.new(key, AES.MODE_ECB)] followed by [encrypt] or [decrypt]:
    the key must have an AES key length and the data a whole number of
    blocks; each 16-byte block goes through the block operation. *)
Fixpoint blocks_of (n : nat) (data : bytes) : list bytes :=
  match n with
  | 0 => []
  | S n' => take 16 data :: blocks_of n' (drop 16 data)
  end.

Definition ecb_apply (op : bytes → bytes → bytes) (key data : bytes) : outcome bytes :=
  if negb ((length key =? 16) || (length key =? 24) || (length key =? 32)) then
    Raise (ValueError "Incorrect AES key length"%string)
  else if negb (length data mod 16 =? 0) then
    Raise (ValueError "Data must be aligned to block boundary in ECB mode"%string)
  else Return (concat (map (op key) (blocks_of (length data / 16) data))).

Definition ecb_encrypt : bytes → bytes → outcome bytes := ecb_apply aes_encrypt_block.
Definition ecb_decrypt : bytes → bytes → outcome bytes := ecb_apply aes_decrypt_block.

Definition verify_with_software (key plaintext hw_ciphertext : bytes) : outcome bool :=
  sw_ciphertext ← ecb_encrypt key plaintext;
  mret (bytes_eqb hw_ciphertext sw_ciphertext).

(** *** Discovery *)

(** [list_serial_ports()]: (device, description) pairs, in the order
    the operating system enumerates them. *)
Variable comports : list (string * string).

(** The [for] loop of [auto_detect]: [continue] and falling through both
    go on with the remaining ports, [return bench] stops the scan. *)
Fixpoint auto_detect_scan (baudrate : Z) (timeout : Q)
    (ports : list (string * string)) : M (option AESBenchmark) :=
  match ports with
  | [] => mret None
  | (device, description) :: ports' =>
      r ← connect (new_bench device baudrate timeout);
      let bench := fst r in
      if negb (snd r) then auto_detect_scan baudrate timeout ports'
      else
        found ← try_except
                  (valid ← validate_with_nist bench;
                   if (valid : bool) then mret true
                   else disconnect bench;; mret false)
                  (λ e, disconnect bench;; mret false);
        if (found : bool) then mret (Some bench)
        else auto_detect_scan baudrate timeout ports'
  end.

Definition auto_detect (baudrate : Z) (timeout : Q) : M (option AESBenchmark) :=
  let ports := comports in
  match ports with
  | [] => mret None
  | _ => auto_detect_scan baudrate timeout ports
  end.

(** *** Entropy and time *)

Definition os_urandom (n : nat) : M bytes := λ w,
  (mkWorld (conns w) (io_trace w) (rand_ix w + n) (clock_ix w),
   Return (map entropy (seq (rand_ix w) n))).

Definition time_now : M Q := λ w,
  (mkWorld (conns w) (io_trace w) (rand_ix w) (S (clock_ix w)),
   Return (clock (clock_ix w))).

Fixpoint for_each {A S : Type} (body : S → A → M S) (l : list A) (acc : S) : M S :=
  match l with
  | [] => mret acc
  | x :: l' => acc' ← body acc x; for_each body l' acc'
  end.

Definition py_range (n : Z) : list nat := seq 0 (Z.to_nat n).

(** A cycle count used in arithmetic: [None] there raises [TypeError]. *)
Definition as_int (c : option Z) : outcome Z :=
  match c with
  | Some z => Return z
  | None => Raise TypeError
  end.

Fixpoint all_ints (l : list (option Z)) : outcome (list Z) :=
  match l with
  | [] => Return []
  | c :: l' => z ← as_int c; zs ← all_ints l'; mret (z :: zs)
  end.

(** *** Random-vector validation *)

Record RandomStats : Type := mkRandomStats {
  rs_passed : Z;
  rs_failed : Z;
  rs_total : Z;
  rs_pass_rate : Q;
  rs_min_cycles : option Z;
  rs_max_cycles : option Z;
  rs_avg_cycles : option Q
}.

Definition random_test_body (bench : AESBenchmark)
    (st : Z * Z * list (option Z)) (i : nat) : M (Z * Z * list (option Z)) :=
  let '(passed, failed, cycle_counts) := st in
  key ← os_urandom 16;
  plaintext ← os_urandom 16;
  r ← encrypt_block bench key plaintext;
  match fst r with
  | None => mret (passed, (failed + 1)%Z, cycle_counts)
  | Some hw_ciphertext =>
      ok ← lift_outcome (verify_with_software key plaintext hw_ciphertext);
      if (ok : bool) then mret ((passed + 1)%Z, failed, cycle_counts ++ [snd r])
      else
        lift_outcome (ecb_encrypt key plaintext);;
        mret (passed, (failed + 1)%Z, cycle_counts)
  end.

(** Lines 287-299: the statistics dictionary. *)
Definition random_stats (passed failed num_tests : Z)
    (cycle_counts : list (option Z)) : outcome RandomStats :=
  pass_rate ← (if (num_tests >? 0)%Z
               then q ← py_div (inject_Z passed) (inject_Z num_tests);
                    mret (q * 100)%Q
               else mret 0%Q);
  match cycle_counts with
  | [] => mret (mkRandomStats passed failed num_tests pass_rate None None None)
  | _ =>
      cs ← all_ints cycle_counts;
      lo ← py_min Z.ltb cs;
      hi ← py_max Z.ltb cs;
      avg ← py_div (inject_Z (sumZ cs)) (inject_Z (Z.of_nat (length cs)));
      mret (mkRandomStats passed failed num_tests pass_rate
                          (Some lo) (Some hi) (Some avg))
  end.

Definition run_random_tests (bench : AESBenchmark) (num_tests : Z) : M RandomStats :=
  st ← for_each (random_test_body bench) (py_range num_tests) (0%Z, 0%Z, []);
  let '(passed, failed, cycle_counts) := st in
  lift_outcome (random_stats passed failed num_tests cycle_counts).

(** *** Throughput test *)

Record ThroughputStats : Type := mkThroughputStats {
  ts_blocks : Z;
  ts_elapsed_sec : Q;
  ts_blocks_per_sec : Q;
  ts_bytes_per_sec : Q;
  ts_kbps : Q;
  ts_avg_cycles : Q
}.

(** Lines 324-331: the statistics dictionary.  The quotients are exact
    here and rounded in the script; which of them raises, and the entries
    that involve no division, are the same in both. *)
Definition throughput_stats (blocks_encrypted total_cycles : Z) (elapsed : Q)
    : outcome ThroughputStats :=
  blocks_per_sec ← py_div (inject_Z blocks_encrypted) elapsed;
  bytes_per_sec ← py_div (inject_Z (blocks_encrypted * 16)) elapsed;
  bits_per_sec ← py_div (inject_Z (blocks_encrypted * 16 * 8)) elapsed;
  kbps ← py_div bits_per_sec 1000;
  avg_cycles ← (if (blocks_encrypted >? 0)%Z
                then py_div (inject_Z total_cycles) (inject_Z blocks_encrypted)
                else mret 0%Q);
  mret (mkThroughputStats blocks_encrypted elapsed blocks_per_sec
                          bytes_per_sec kbps avg_cycles).

(** The [while] loop runs for as long as the clock says so; [fuel]
    bounds the number of iterations, [None] means it was exhausted. *)
Fixpoint throughput_loop (fuel : nat) (bench : AESBenchmark) (key : bytes)
    (start_time duration_sec : Q) (blocks_encrypted total_cycles : Z)
    : M (option (Z * Z)) :=
  match fuel with
  | 0 => mret None
  | S fuel' =>
      now ← time_now;
      if Qltb (now - start_time) duration_sec then
        plaintext ← os_urandom 16;
        r ← encrypt_block bench key plaintext;
        match fst r with
        | Some _ =>
            cycles ← lift_outcome (as_int (snd r));
            throughput_loop fuel' bench key start_time duration_sec
                            (blocks_encrypted + 1)%Z (total_cycles + cycles)%Z
        | None =>
            throughput_loop fuel' bench key start_time duration_sec
                            blocks_encrypted total_cycles
        end
      else mret (Some (blocks_encrypted, total_cycles))
  end.

Definition run_throughput_test (fuel : nat) (bench : AESBenchmark)
    (duration_sec : Q) : M (option ThroughputStats) :=
  key ← os_urandom 16;
  start_time ← time_now;
  r ← throughput_loop fuel bench key start_time duration_sec 0%Z 0%Z;
  match r with
  | None => mret None
  | Some (blocks_encrypted, total_cycles) =>
      now ← time_now;
      let elapsed := (now - start_time)%Q in
      stats ← lift_outcome (throughput_stats blocks_encrypted total_cycles elapsed);
      mret (Some stats)
  end.

(** *** Latency test *)

Record LatencyStats : Type := mkLatencyStats {
  ls_samples : nat;
  ls_min_latency_ms : Q;
  ls_max_latency_ms : Q;
  ls_avg_latency_ms : Q;
  ls_median_latency_ms : Q;
  ls_p95_latency_ms : Q;
  ls_p99_latency_ms : Q;
  ls_min_hw_cycles : Z;
  ls_max_hw_cycles : Z;
  ls_avg_hw_cycles : Q
}.

Inductive LatencyResult : Type :=
  | LatencyError (msg : string)
  | LatencyOk (stats : LatencyStats).

Definition latency_body (bench : AESBenchmark) (key : bytes)
    (st : list Q * list (option Z)) (i : nat) : M (list Q * list (option Z)) :=
  let '(latencies, hw_cycles) := st in
  plaintext ← os_urandom 16;
  t_start ← time_now;
  r ← encrypt_block bench key plaintext;
  t_end ← time_now;
  match fst r with
  | Some _ => mret (latencies ++ [((t_end - t_start) * 1000)%Q], hw_cycles ++ [snd r])
  | None => mret (latencies, hw_cycles)
  end.

(** Lines 357-376: both lists sorted, each on its own, then the
    dictionary.  [0.95] and [0.99] are the rationals 95/100 and 99/100. *)
Definition latency_stats (latencies : list Q) (hw_cycles : list (option Z))
    : outcome LatencyResult :=
  match latencies with
  | [] => mret (LatencyError "No successful measurements"%string)
  | _ =>
      let latencies := py_sort Qle_bool latencies in
      cycles ← all_ints hw_cycles;
      let hw_cycles := py_sort Z.leb cycles in
      let n := Z.of_nat (length latencies) in
      lat_min ← py_min Qltb latencies;
      lat_max ← py_max Qltb latencies;
      lat_avg ← py_div (sumQ latencies) (inject_Z n);
      median ← py_index latencies (n / 2)%Z;
      p95 ← py_index latencies (py_int (inject_Z n * (95 # 100)));
      p99 ← py_index latencies (py_int (inject_Z n * (99 # 100)));
      cyc_min ← py_min Z.ltb hw_cycles;
      cyc_max ← py_max Z.ltb hw_cycles;
      cyc_avg ← py_div (inject_Z (sumZ hw_cycles))
                       (inject_Z (Z.of_nat (length hw_cycles)));
      mret (LatencyOk (mkLatencyStats (length latencies) lat_min lat_max lat_avg
                                      median p95 p99 cyc_min cyc_max cyc_avg))
  end.

Definition run_latency_test (bench : AESBenchmark) (num_samples : Z) : M LatencyResult :=
  key ← os_urandom 16;
  st ← for_each (latency_body bench key) (py_range num_samples) ([], []);
  lift_outcome (latency_stats (fst st) (snd st)).

(** *** Bulk block-wise test

    [run_image_test] from the point where the image has been loaded:
    [pixels] is [img.tobytes()].  Console output is left out, but the
    divisions inside it are kept, since they can raise.  The image
    files written at the end are the [ir_saved_*] fields: [None] where
    no file was written. *)

(** Lines 418-423: pad to a 16-byte boundary. *)
Definition pad_pixels (pixels : bytes) : bytes * nat :=
  if negb (length pixels mod 16 =? 0) then
    let pad_len := 16 - length pixels mod 16 in
    (pixels ++ replicate pad_len Byte.x00, pad_len)
  else (pixels, 0).

(** Lines 448-457: one block through the accelerator. *)
Definition image_block_body (bench : AESBenchmark) (key pixels : bytes)
    (st : bytes * list (option Z) * nat) (i : nat)
    : M (bytes * list (option Z) * nat) :=
  let '(hw_ciphertext, hw_cycles_list, errors) := st in
  let block := py_slice pixels (i * 16) ((i + 1) * 16) in
  r ← encrypt_block bench key block;
  match fst r with
  | None => mret (hw_ciphertext ++ replicate 16 Byte.x00, hw_cycles_list, errors + 1)
  | Some ct => mret (hw_ciphertext ++ ct, hw_cycles_list ++ [snd r], errors)
  end.

Definition hw_encrypt_blocks (bench : AESBenchmark) (key pixels : bytes)
    (num_blocks : nat) : M (bytes * list (option Z) * nat) :=
  for_each (image_block_body bench key pixels) (seq 0 num_blocks) ([], [], 0).

(** Lines 473-479: the figures derived from the cycle counts. *)
Definition hw_timing_report (hw_cycles_list : list (option Z)) (num_blocks : nat)
    (data_len : nat) (hw_elapsed clock_mhz : Q) : outcome unit :=
  match hw_cycles_list with
  | [] => mret ()
  | _ =>
      cs ← all_ints hw_cycles_list;
      avg_cycles ← py_div (inject_Z (sumZ cs)) (inject_Z (Z.of_nat (length cs)));
      hw_only_time ← py_div (avg_cycles * inject_Z (Z.of_nat num_blocks))
                            (clock_mhz * 1000000);
      py_div (inject_Z (Z.of_nat data_len)) hw_only_time;;
      py_div (hw_elapsed - hw_only_time) hw_elapsed;;
      mret ()
  end.

Record ImageReport : Type := mkImageReport {
  ir_pixels : bytes;
  ir_pad_len : nat;
  ir_sw_ciphertext : bytes;
  ir_hw_ciphertext : bytes;
  ir_errors : nat;
  ir_saved_hw : option bytes;
  ir_saved_sw : option bytes;
  ir_saved_decrypted : option bytes;
  ir_result : bool
}.

(** Lines 503-515, [save_encrypted_image]: truncate to the original
    length, rebuild the image ([Image.frombytes] wants exactly that many
    bytes) and write it.  Any failure is caught there and leaves no
    file. *)
Definition save_encrypted_image (original_len : nat) (data : bytes) (suffix : string)
    : option bytes :=
  let data := take original_len data in
  if (length data =? original_len) && can_save suffix then Some data else None.

(** Lines 418-536.  The last save (lines 528-530) is outside any [try]:
    when the decrypted image cannot be written, [OSError] leaves the
    function. *)
Definition run_image_test (bench : AESBenchmark) (pixels : bytes) (clock_mhz : Q)
    : M ImageReport :=
  let original_len := length pixels in
  let padded := pad_pixels pixels in
  let pixels := fst padded in
  let num_blocks := length pixels / 16 in
  key ← os_urandom 16;
  sw_start ← time_now;
  sw_ciphertext ← lift_outcome (ecb_encrypt key pixels);
  sw_end ← time_now;
  lift_outcome (py_div (inject_Z (Z.of_nat (length pixels))) (sw_end - sw_start));;
  hw_start ← time_now;
  st ← hw_encrypt_blocks bench key pixels num_blocks;
  hw_end ← time_now;
  let '(hw_ciphertext, hw_cycles_list, errors) := st in
  let hw_elapsed := (hw_end - hw_start)%Q in
  lift_outcome (py_div (inject_Z (Z.of_nat (length pixels))) hw_elapsed);;
  lift_outcome (hw_timing_report hw_cycles_list num_blocks (length pixels)
                                 hw_elapsed clock_mhz);;
  let matched := bytes_eqb hw_ciphertext sw_ciphertext in
  let saved_hw := save_encrypted_image original_len hw_ciphertext "hw_encrypted" in
  let saved_sw := save_encrypted_image original_len sw_ciphertext "sw_encrypted" in
  decrypted ← lift_outcome (ecb_decrypt key hw_ciphertext);
  let decrypted := take original_len decrypted in
  if bytes_eqb decrypted (take original_len pixels) then
    lift_outcome (if can_save "decrypted" then Return () else Raise OSError);;
    mret (mkImageReport pixels (snd padded) sw_ciphertext hw_ciphertext errors
            saved_hw saved_sw (Some decrypted) matched)
  else
    mret (mkImageReport pixels (snd padded) sw_ciphertext hw_ciphertext errors
            saved_hw saved_sw None false).

End Environment.

(** ** The stand-alone known-vector check and the command-line driver *)

(** [try: m finally: cleanup]: the cleanup runs on every exit path; an
    exception of the cleanup replaces the outcome of the body. *)
Definition try_finally {A : Type} (m : M A) (cleanup : M unit) : M A := λ w,
  match m w with
  | (w', o) =>
      match cleanup w' with
      | (w'', Return _) => (w'', o)
      | (w'', Raise e) => (w'', Raise e)
      end
  end.

(** The parsed command line ([argparse] itself is not modelled). *)
Record Args : Type := mkArgs {
  arg_port : option string;
  arg_auto : bool;
  arg_baud : Z;
  arg_list_ports : bool;
  arg_random_tests : Z;
  arg_throughput_time : Q;
  arg_latency_samples : Z;
  arg_skip_nist : bool;
  arg_skip_random : bool;
  arg_skip_throughput : bool;
  arg_skip_latency : bool;
  arg_clock_mhz : Q;
  arg_image : option string
}.

(** Truthiness of an optional string: [None] and [""] are false. *)
Definition py_truthy (o : option string) : bool :=
  match o with
  | Some EmptyString | None => false
  | Some _ => true
  end.

Section Driver.

Variable can_open : string → bool.
Variable boot_noise : string → bytes.
Variable respond : string → list bytes → bytes.
Variable entropy : nat → Byte.byte.
Variable clock : nat → Q.
Variable aes_encrypt_block : bytes → bytes → bytes.
Variable aes_decrypt_block : bytes → bytes → bytes.
Variable can_save : string → bool.
Variable comports : list (string * string).
(** Whether Pillow could be imported, and the RGB bytes of the image at a
    path: [None] when the file is missing or cannot be loaded. *)
Variable HAS_PIL : bool.
Variable load_pixels : string → option bytes.

(** Lines 217-245. *)
Definition run_nist_test_vector (bench : AESBenchmark) : M bool :=
  let key := NIST_KEY in
  let plaintext := NIST_PT in
  let expected_ct := NIST_CT in
  r ← encrypt_block respond bench key plaintext;
  match r.1 with
  | None => mret false
  | Some ciphertext =>
      if bytes_eqb ciphertext expected_ct then mret true else mret false
  end.

(** [run_image_test] as [main] calls it, from the path: lines 387-416
    decide whether there are pixels to work on, the rest is the function
    modelled above. *)
Definition run_image_test_path (bench : AESBenchmark) (image_path : string)
    (clock_mhz : Q) : M bool :=
  if negb HAS_PIL then mret false
  else
    match load_pixels image_path with
    | None => mret false
    | Some pixels =>
        report ← run_image_test respond entropy clock aes_encrypt_block
                                aes_decrypt_block can_save bench pixels clock_mhz;
        mret (ir_result report)
    end.

(** Lines 646-650: the figures printed after the throughput test. *)
Definition throughput_timing (stats : ThroughputStats) (clock_mhz : Q) : outcome unit :=
  if Qltb 0 (ts_avg_cycles stats) then
    time_per_block_us ← py_div (ts_avg_cycles stats) clock_mhz;
    seconds ← py_div time_per_block_us 1000000;
    per_second ← py_div 16 seconds;
    py_div per_second 1000000;;
    mret ()
  else mret ().

(** Lines 657-663: the overhead analysis printed after the latency test. *)
Definition latency_overhead (result : LatencyResult) (clock_mhz : Q) : outcome unit :=
  match result with
  | LatencyError _ => mret ()
  | LatencyOk stats =>
      hw_time_ms ← py_div (ls_avg_hw_cycles stats) (clock_mhz * 1000);
      let uart_overhead := (ls_avg_latency_ms stats - hw_time_ms)%Q in
      py_div uart_overhead (ls_avg_latency_ms stats);;
      mret ()
  end.

(** Lines 627-678: the body of the [try].  [None] means that the
    throughput loop ran out of fuel. *)
Definition main_tests (fuel : nat) (args : Args) (bench : AESBenchmark)
    : M (option Z) :=
  let all_passed := true in
  all_passed ← (if negb (arg_skip_nist args) then
                  ok ← run_nist_test_vector bench;
                  mret (if negb ok then false else all_passed)
                else mret all_passed);
  all_passed ← (if negb (arg_skip_random args) then
                  stats ← run_random_tests respond entropy aes_encrypt_block
                                           bench (arg_random_tests args);
                  mret (if (rs_failed stats >? 0)%Z then false else all_passed)
                else mret all_passed);
  finished ← (if negb (arg_skip_throughput args) then
                r ← run_throughput_test respond entropy clock fuel bench
                                        (arg_throughput_time args);
                match r with
                | None => mret false
                | Some stats =>
                    lift_outcome (throughput_timing stats (arg_clock_mhz args));;
                    mret true
                end
              else mret true);
  if negb finished then mret None
  else
    (if negb (arg_skip_latency args) then
       result ← run_latency_test respond entropy clock bench (arg_latency_samples args);
       lift_outcome (latency_overhead result (arg_clock_mhz args))
     else mret ());;
    all_passed ← (if py_truthy (arg_image args) then
                    ok ← run_image_test_path bench (default ""%string (arg_image args))
                                             (arg_clock_mhz args);
                    mret (if negb ok then false else all_passed)
                  else mret all_passed);
    mret (Some (if (all_passed : bool) then 0%Z else 1%Z)).

(** Lines 550-681.  [--list-ports] only enumerates; otherwise a
    connection is obtained by discovery (read timeout 1.0 s) or on the
    given port (read timeout 2.0 s), and the tests run inside
    [try ... finally: bench.disconnect()]. *)
Definition main (fuel : nat) (args : Args) : M (option Z) :=
  if arg_list_ports args then mret (Some 0%Z)
  else
    found ← (if arg_auto args || negb (bool_decide (is_Some (arg_port args))) then
               auto_detect can_open boot_noise respond comports (arg_baud args) 1
             else
               r ← connect can_open boot_noise
                           (new_bench (default ""%string (arg_port args)) (arg_baud args) 2);
               if negb r.2 then mret None else mret (Some r.1));
    match found with
    | None => mret (Some 1%Z)
    | Some bench => try_finally (main_tests fuel args bench) (disconnect bench)
    end.

End Driver.

(** ** Vocabulary of the statements *)

(** The value [struct.unpack('<I', ...)] computes, as a weighted sum. *)
Definition le_uint32 (b0 b1 b2 b3 : Byte.byte) : Z :=
  (byte_val b0 + 256 * byte_val b1 + 65536 * byte_val b2 + 16777216 * byte_val b3)%Z.

(** The connection a benchmark object holds is present and open. *)
Definition connected (w : World) (self : AESBenchmark) : bool :=
  match ser self with
  | Some h => match conns w !! h with Some s => is_open s | None => false end
  | None => false
  end.

(** The world after one complete exchange on connection [h], whose state
    before was [s]: buffer cleared, [frame] written and flushed, one read
    of [RX_FRAME_SIZE] bytes. *)
Definition round_trip_world (respond : string → list bytes → bytes)
    (h : nat) (s : Serial) (frame : bytes) (w : World) : World :=
  let reply := respond (ser_port s) (frame :: written s) in
  mkWorld
    (<[h := mkSerial (ser_port s) (is_open s) (drop RX_FRAME_SIZE reply)
                     (frame :: written s)]> (conns w))
    (io_trace w ++ [IoResetInput h; IoWrite h frame; IoFlush h;
                    IoRead h RX_FRAME_SIZE (take RX_FRAME_SIZE reply)])
    (rand_ix w) (clock_ix w).

(** The events of one complete exchange on connection [h]. *)
Definition exchange (h : nat) (frame got : bytes) : list io_event :=
  [IoResetInput h; IoWrite h frame; IoFlush h; IoRead h RX_FRAME_SIZE got].

(** The events a computation appended to the trace. *)
Definition new_events (w w' : World) : list io_event :=
  drop (length (io_trace w)) (io_trace w').

Definition is_write (e : io_event) : bool :=
  match e with IoWrite _ _ => true | _ => false end.

Definition is_read (e : io_event) : bool :=
  match e with IoRead _ _ _ => true | _ => false end.

(** The spec's taxonomy of failed round trips, and the situation each
    kind names: no open connection; an exchange whose read brings no
    byte at all; an exchange whose read brings some but fewer than
    [RX_FRAME_SIZE] bytes. *)
Inductive ErrorKind : Type := NotConnected | Timeout | ShortRead.

Definition failure_kind (respond : string → list bytes → bytes)
    (w : World) (self : AESBenchmark) (key plaintext : bytes) : option ErrorKind :=
  match ser self with
  | None => Some NotConnected
  | Some h =>
      match conns w !! h with
      | None => Some NotConnected
      | Some s =>
          if negb (is_open s) then Some NotConnected
          else match encode_request key plaintext with
               | Raise _ => None
               | Return frame =>
                   let got := take RX_FRAME_SIZE (respond (ser_port s) (frame :: written s)) in
                   if length got =? 0 then Some Timeout
                   else if length got <? RX_FRAME_SIZE then Some ShortRead
                   else None
               end
      end
  end.

(** The probe of discovery on a freshly opened port: the frame for the
    known vector is the first one written, and the port matches when the
    ciphertext decoded from the reply equals [NIST_CT]. *)
Definition nist_frame : bytes := NIST_KEY ++ NIST_PT ++ FRAME_MARKER.

Definition port_answers (respond : string → list bytes → bytes) (device : string) : bool :=
  match decode_response (take RX_FRAME_SIZE (respond device [nist_frame])) with
  | Return (Some ciphertext, _) => bytes_eqb ciphertext NIST_CT
  | _ => false
  end.

Definition candidate_matches (can_open : string → bool)
    (respond : string → list bytes → bytes) (p : string * string) : bool :=
  can_open (fst p) && port_answers respond (fst p).

(** Settings [serial.Serial] accepts: neither the baud rate nor the
    read timeout is negative. *)
Definition settings_accepted (baud : Z) (tmo : Q) : Prop :=
  (0 ≤ baud)%Z ∧ (0 <= tmo)%Q.

(** Every connection with handle [lo] or above, other than [keep], is
    closed. *)
Definition opened_are_closed (lo : nat) (keep : option nat) (w : World) : Prop :=
  ∀ h s, lo ≤ h → keep ≠ Some h → conns w !! h = Some s → is_open s = false.

(** What a discovery run that started with [lo] connections in the store
    must have achieved, given the first matching candidate (if any). *)
Definition discovery_post (baud : Z) (tmo : Q) (lo : nat)
    (first_match : option (string * string))
    (r : World * outcome (option AESBenchmark)) : Prop :=
  match first_match with
  | Some p =>
      ∃ h s,
        snd r = Return (Some (mkBench (fst p) baud tmo (Some h)))
        ∧ lo ≤ h
        ∧ conns (fst r) !! h = Some s
        ∧ is_open s = true
        ∧ ser_port s = fst p
        ∧ opened_are_closed lo (Some h) (fst r)
  | None =>
      snd r = Return None ∧ opened_are_closed lo None (fst r)
  end.

(** The device on [port] is a faithful accelerator for the block
    operation [enc]: whatever was written before, a frame made of a
    16-byte key, a 16-byte block and the marker is answered, within the
    timeout, by the reference ciphertext followed by four cycle-count
    bytes. *)
Definition reference_device (respond : string → list bytes → bytes)
    (enc : bytes → bytes → bytes) (port : string) : Prop :=
  ∀ (frames : list bytes) (key block : bytes),
    length key = 16 → length block = 16 →
    ∃ cycle_bytes,
      length cycle_bytes = 4
      ∧ take RX_FRAME_SIZE (respond port ((key ++ block ++ FRAME_MARKER) :: frames))
        = enc key block ++ cycle_bytes.

(** The device on [port] answers a run of blocks: each block of
    [blocks], sent in this order under [key] on a connection on which
    [history] had been written before (most recent first), is answered
    within the timeout by its reference ciphertext followed by four
    cycle-count bytes.  Nothing is asked of the device on any other
    frame. *)
Fixpoint answers_blocks (respond : string → list bytes → bytes)
    (enc : bytes → bytes → bytes) (port : string) (key : bytes)
    (blocks : list bytes) (history : list bytes) : Prop :=
  match blocks with
  | [] => True
  | block :: rest =>
      let frame := key ++ block ++ FRAME_MARKER in
      (∃ cycle_bytes,
         length cycle_bytes = 4
         ∧ take RX_FRAME_SIZE (respond port (frame :: history))
           = enc key block ++ cycle_bytes)
      ∧ answers_blocks respond enc port key rest (frame :: history)
  end.

(** A clock frequency, in MHz, whose product with [1e6] is finite in
    binary64: within this range rounding cannot make a divisor of the
    printed figures zero or keep it from being zero. *)
Definition clock_in_range (clock_mhz : Q) : Prop :=
  (- inject_Z (10 ^ 300) <= clock_mhz <= inject_Z (10 ^ 300))%Q.

(** [enc] and [dec] are a block cipher on 16-byte blocks under 16-byte
    keys. *)
Definition block_cipher_pair (enc dec : bytes → bytes → bytes) : Prop :=
  ∀ key block : bytes,
    length key = 16 → length block = 16 →
    length (enc key block) = 16 ∧ dec key (enc key block) = block.

(** The same index computed as CPython computes it, in IEEE-754 binary64
    with round-to-nearest-even: [len] converted to a float, multiplied by
    the double nearest to the decimal constant, truncated by [int]. *)
Definition float_of_nat (n : nat) : spec_float :=
  binary_normalize 53 1024 (Z.of_nat n) 0 false.

Definition float_0_95 : spec_float := S754_finite false 8556839292003942 (-53).
Definition float_0_99 : spec_float := S754_finite false 8917127262193582 (-53).

Definition int_of_float (x : spec_float) : Z :=
  match x with
  | S754_finite sign m e =>
      let magnitude := if (0 <=? e)%Z then (Zpos m * 2 ^ e)%Z
                       else (Zpos m / 2 ^ (- e))%Z in
      if sign then (- magnitude)%Z else magnitude
  | _ => 0%Z
  end.

Definition float_index (fraction : spec_float) (n : nat) : Z :=
  int_of_float (SFmul 53 1024 (float_of_nat n) fraction).

Definition float_index_agrees (n : nat) : bool :=
  (float_index float_0_95 n =? py_int (inject_Z (Z.of_nat n) * (95 # 100)))%Z
  && (float_index float_0_99 n =? py_int (inject_Z (Z.of_nat n) * (99 # 100)))%Z.

(** A computation keeps a relation between the world it starts in and
    the world it leaves, whatever its outcome. *)
Definition preserves {A : Type} (R : World → World → Prop) (m : M A) : Prop :=
  ∀ w, R w (m w).1.

(** The store has the same connections, and every one of them other
    than [keep] is as it was. *)
Definition conns_outside (keep : option nat) (w w' : World) : Prop :=
  length (conns w') = length (conns w)
  ∧ ∀ h, keep ≠ Some h → conns w' !! h = conns w !! h.

(** A sequence of complete exchanges on connection [h]: clear, write,
    flush, read, and so on, nothing else and nothing interleaved. *)
Inductive round_trips (h : nat) : list io_event → Prop :=
  | round_trips_nil : round_trips h []
  | round_trips_cons (frame got : bytes) (evs : list io_event) :
      round_trips h evs →
      round_trips h (IoResetInput h :: IoWrite h frame :: IoFlush h
                       :: IoRead h RX_FRAME_SIZE got :: evs).

Definition only_round_trips (keep : option nat) (w w' : World) : Prop :=
  ∃ evs, io_trace w' = io_trace w ++ evs
         ∧ match keep with
           | Some h => round_trips h evs
           | None => evs = []
           end.

(** ** Concrete scenarios used to exercise the statements *)

Definition reply_nist : string → list bytes → bytes :=
  λ _ _, NIST_CT ++ [Byte.x2a; Byte.x00; Byte.x00; Byte.x00].
Definition reply_nothing : string → list bytes → bytes := λ _ _, [].
Definition reply_partial : string → list bytes → bytes := λ _ _, take 7 NIST_CT.

Definition bench_com3 : AESBenchmark := mkBench "COM3" 115200 2 (Some 0).
Definition bench_unconnected : AESBenchmark := mkBench "COM3" 115200 2 None.
Definition world_open : World := mkWorld [mkSerial "COM3" true [] []] [] 0 0.
Definition world_shut : World := mkWorld [mkSerial "COM3" false [] []] [] 0 0.
Definition world_empty : World := mkWorld [] [] 0 0.

(** Three simulated endpoints; only the second one answers the known
    vector correctly, the first sends noise and the third cannot be
    opened. *)
Definition three_ports : list (string * string) :=
  [("COM1", "modem"); ("COM2", "FPGA board"); ("COM3", "printer")]%string.
Definition three_can_open (device : string) : bool :=
  negb (String.eqb device "COM3").
Definition three_respond (device : string) (frames : list bytes) : bytes :=
  if String.eqb device "COM2" then reply_nist device frames
  else replicate 20 Byte.x00.
Definition three_noise (device : string) : bytes := [Byte.x0d; Byte.x0a].

(** The ten latency samples of the spec's example, in milliseconds, with
    some cycle counts to go with them. *)
Definition ten_samples : list Q := [1; 2; 3; 4; 5; 6; 7; 8; 9; 10]%Q.
Definition ten_cycles : list (option Z) :=
  Some <$> [52; 50; 51; 50; 50; 53; 50; 51; 50; 50]%Z.
Definition shuffled_samples : list Q := [7; 3; 10; 1; 5; 9; 2; 8; 6; 4]%Q.

(** A clock that advances three seconds per reading, and an entropy
    source that counts. *)
Definition clock_3s (k : nat) : Q := inject_Z (3 * Z.of_nat k).
Definition entropy_zero (k : nat) : Byte.byte := Byte.x00.

(** A stand-in block operation (byte reversal, its own inverse) and a
    device that implements it, reporting 50 cycles per block. *)
Definition toy_block (key block : bytes) : bytes := rev block.
Definition reply_toy (device : string) (frames : list bytes) : bytes :=
  match frames with
  | frame :: _ =>
      toy_block (take 16 frame) (take 16 (drop 16 frame))
        ++ [Byte.x32; Byte.x00; Byte.x00; Byte.x00]
  | [] => []
  end.
Definition twenty_pixels : bytes := NIST_KEY ++ take 4 NIST_PT.

(** Command lines that run the known-vector check alone: after
    discovery, and on a named port. *)
Definition args_auto_nist_only : Args :=
  mkArgs None true 115200 false 100 5 100 false true true true 100 None.
Definition args_port_nist_only (device : string) : Args :=
  mkArgs (Some device) false 115200 false 100 5 100 false true true true 100 None.

(** * Properties *)

(** ** Little-endian decoding *)

Lemma byte_val_range (b : Byte.byte) : (0 ≤ byte_val b < 256)%Z.
Proof.
  unfold byte_val. pose proof (Byte.to_N_bounded b). lia.
Qed.

Lemma lor_disjoint_add (a c n : Z) :
  (0 ≤ n)%Z → (0 ≤ a < 2 ^ n)%Z → Z.lor a (c * 2 ^ n) = (a + c * 2 ^ n)%Z.
Proof.
  intros Hn Ha. symmetry. apply Z.add_nocarry_lor.
  apply Z.bits_inj'. intros i Hi.
  rewrite Z.land_spec, Z.bits_0.
  destruct (Z.lt_ge_cases i n) as [Hlt | Hge].
  - rewrite Z.mul_pow2_bits_low by assumption. apply andb_false_r.
  - rewrite <- (Z.mod_small a (2 ^ n)) by assumption.
    rewrite Z.mod_pow2_bits_high by lia. reflexivity.
Qed.

Lemma struct_unpack_I_four (b0 b1 b2 b3 : Byte.byte) :
  struct_unpack_I [b0; b1; b2; b3] = Return (le_uint32 b0 b1 b2 b3).
Proof.
  unfold struct_unpack_I, le_uint32. f_equal.
  pose proof (byte_val_range b0). pose proof (byte_val_range b1).
  pose proof (byte_val_range b2). pose proof (byte_val_range b3).
  rewrite !Z.shiftl_mul_pow2 by lia.
  rewrite (lor_disjoint_add (byte_val b2 * 2 ^ 16) (byte_val b3) 24) by lia.
  replace (byte_val b2 * 2 ^ 16 + byte_val b3 * 2 ^ 24)%Z
    with ((byte_val b2 + byte_val b3 * 256) * 2 ^ 16)%Z by lia.
  rewrite (lor_disjoint_add (byte_val b1 * 2 ^ 8) _ 16) by lia.
  replace (byte_val b1 * 2 ^ 8 + (byte_val b2 + byte_val b3 * 256) * 2 ^ 16)%Z
    with ((byte_val b1 + byte_val b2 * 256 + byte_val b3 * 65536) * 2 ^ 8)%Z by lia.
  rewrite (lor_disjoint_add (byte_val b0) _ 8) by lia.
  lia.
Qed.

Lemma le_uint32_range (b0 b1 b2 b3 : Byte.byte) :
  (0 ≤ le_uint32 b0 b1 b2 b3 < 2 ^ 32)%Z.
Proof.
  unfold le_uint32.
  pose proof (byte_val_range b0). pose proof (byte_val_range b1).
  pose proof (byte_val_range b2). pose proof (byte_val_range b3).
  lia.
Qed.

(** ** The protocol engine *)

Section ProtocolEngine.

Context (respond : string → list bytes → bytes).

Lemma encrypt_block_not_connected (w : World) (self : AESBenchmark)
    (key plaintext : bytes) :
  connected w self = false →
  encrypt_block respond self key plaintext w = (w, Return (None, None)).
Proof.
  unfold connected, encrypt_block. destruct (ser self) as [h|]; [|done].
  intros Hc. unfold mbind, M_bind, serial_is_open. rewrite Hc. done.
Qed.

Lemma encrypt_block_connected (w : World) (self : AESBenchmark) (h : nat)
    (s : Serial) (key plaintext : bytes) :
  ser self = Some h → conns w !! h = Some s → is_open s = true →
  encrypt_block respond self key plaintext w =
    match encode_request key plaintext with
    | Raise e => (w, Raise e)
    | Return frame =>
        (round_trip_world respond h s frame w,
         decode_response (take RX_FRAME_SIZE (respond (ser_port s) (frame :: written s))))
    end.
Proof.
  intros Hser Hs Hopen. unfold encrypt_block. rewrite Hser.
  unfold mbind, M_bind, serial_is_open. rewrite Hs, Hopen. simpl.
  unfold lift_outcome. destruct (encode_request key plaintext) as [frame|e]; [|done].
  pose proof (lookup_lt_Some _ _ _ Hs) as Hlt.
  unfold reset_input_buffer, serial_write, serial_flush, serial_read, update_conn,
    emit, modify, mbind, M_bind, mret, M_ret, set_conns, log_io. simpl.
  rewrite Hs. simpl.
  rewrite !list_lookup_insert_eq by (rewrite ?length_insert; lia). simpl.
  unfold round_trip_world. rewrite !list_insert_insert_eq, <- !app_assoc. done.
Qed.

Lemma new_events_refl (w : World) : new_events w w = [].
Proof. unfold new_events. apply drop_all. Qed.

Lemma new_events_round_trip (w : World) (h : nat) (s : Serial) (frame : bytes) :
  new_events w (round_trip_world respond h s frame w) =
    [IoResetInput h; IoWrite h frame; IoFlush h;
     IoRead h RX_FRAME_SIZE
       (take RX_FRAME_SIZE (respond (ser_port s) (frame :: written s)))].
Proof. unfold new_events, round_trip_world. simpl. apply drop_app_length. Qed.

End ProtocolEngine.

Lemma encode_request_ok (key plaintext : bytes) :
  length key = 16 → length plaintext = 16 →
  encode_request key plaintext = Return (key ++ plaintext ++ FRAME_MARKER).
Proof. intros Hk Hp. unfold encode_request. rewrite Hk, Hp. done. Qed.

Lemma encode_request_bad (key plaintext : bytes) :
  length key ≠ 16 ∨ length plaintext ≠ 16 →
  encode_request key plaintext =
    Raise (ValueError (if length key =? 16 then "Plaintext must be 16 bytes"%string
                       else "Key must be 16 bytes"%string)).
Proof.
  intros Hbad. unfold encode_request, KEY_SIZE, BLOCK_SIZE.
  destruct (Nat.eqb_spec (length key) 16) as [Hk|Hk]; simpl; [|done].
  destruct (Nat.eqb_spec (length plaintext) 16) as [Hp|Hp]; simpl; [|done].
  destruct Hbad; done.
Qed.

Lemma decode_response_short (rx_data : bytes) :
  length rx_data ≠ 20 → decode_response rx_data = Return (None, None).
Proof.
  intros Hne. unfold decode_response, RX_FRAME_SIZE, BLOCK_SIZE.
  destruct (Nat.eqb_spec (length rx_data) (16 + 4)); simpl; [lia|done].
Qed.

Lemma decode_response_full (rx_data : bytes) :
  length rx_data = 20 →
  ∃ b0 b1 b2 b3,
    drop 16 rx_data = [b0; b1; b2; b3] ∧
    decode_response rx_data =
      Return (Some (take 16 rx_data), Some (le_uint32 b0 b1 b2 b3)).
Proof.
  intros Hlen. unfold decode_response, RX_FRAME_SIZE, BLOCK_SIZE.
  rewrite Hlen. simpl negb. cbv iota.
  do 21 (destruct rx_data as [|? rx_data]; try discriminate Hlen).
  eexists _, _, _, _. split; [reflexivity|].
  cbn [drop take]. rewrite struct_unpack_I_four. reflexivity.
Qed.

Lemma invalid_length_raises_aux (respond : string → list bytes → bytes)
    (w : World) (self : AESBenchmark) (key plaintext : bytes) :
  length key ≠ 16 ∨ length plaintext ≠ 16 →
  connected w self = true →
  encrypt_block respond self key plaintext w =
    (w, Raise (ValueError (if length key =? 16 then "Plaintext must be 16 bytes"%string
                           else "Key must be 16 bytes"%string))).
Proof.
  intros Hbad Hconn. unfold connected in Hconn.
  destruct (ser self) as [h|] eqn:Hser; [|discriminate].
  destruct (conns w !! h) as [s|] eqn:Hs; [|discriminate].
  rewrite (encrypt_block_connected respond w self h s key plaintext Hser Hs Hconn).
  rewrite (encode_request_bad key plaintext Hbad). reflexivity.
Qed.

(** Every call of [encrypt_block] is of one of three shapes. *)
Lemma encrypt_block_cases (respond : string → list bytes → bytes)
    (w : World) (self : AESBenchmark) (key plaintext : bytes) :
  (connected w self = false
   ∧ encrypt_block respond self key plaintext w = (w, Return (None, None)))
  ∨ (connected w self = true
     ∧ (length key ≠ 16 ∨ length plaintext ≠ 16)
     ∧ ∃ msg, encrypt_block respond self key plaintext w = (w, Raise (ValueError msg)))
  ∨ (connected w self = true
     ∧ length key = 16 ∧ length plaintext = 16
     ∧ ∃ h s,
         ser self = Some h ∧ conns w !! h = Some s ∧ is_open s = true
         ∧ let frame := key ++ plaintext ++ FRAME_MARKER in
           let got := take RX_FRAME_SIZE (respond (ser_port s) (frame :: written s)) in
           encrypt_block respond self key plaintext w =
             (round_trip_world respond h s frame w, decode_response got)).
Proof.
  destruct (connected w self) eqn:Hconn.
  - right.
    destruct (decide (length key = 16 ∧ length plaintext = 16)) as [[Hk Hp]|Hbad].
    + right. do 3 (split; [done|]).
      unfold connected in Hconn.
      destruct (ser self) as [h|] eqn:Hser; [|discriminate].
      destruct (conns w !! h) as [s|] eqn:Hs; [|discriminate].
      exists h, s. do 3 (split; [done|]). cbv zeta.
      rewrite (encrypt_block_connected respond w self h s key plaintext Hser Hs Hconn).
      rewrite (encode_request_ok key plaintext Hk Hp). reflexivity.
    + left. assert (length key ≠ 16 ∨ length plaintext ≠ 16) as Hor by lia.
      do 2 (split; [done|]). eexists.
      apply (invalid_length_raises_aux respond w self key plaintext Hor Hconn).
  - left. split; [done|]. by apply encrypt_block_not_connected.
Qed.

Lemma decode_response_cases (got : bytes) :
  (length got ≠ 20 ∧ decode_response got = Return (None, None))
  ∨ (length got = 20
     ∧ ∃ b0 b1 b2 b3,
         drop 16 got = [b0; b1; b2; b3]
         ∧ decode_response got = Return (Some (take 16 got), Some (le_uint32 b0 b1 b2 b3))).
Proof.
  destruct (decide (length got = 20)) as [Heq|Hne].
  - right. split; [done|]. by apply decode_response_full.
  - left. split; [done|]. by apply decode_response_short.
Qed.

(** ** Frame codec *)

Example frame_sizes : TX_FRAME_SIZE = 34 ∧ RX_FRAME_SIZE = 20.
Proof. split; reflexivity. Qed.

(** C1. For a 16-byte key and a 16-byte plaintext the request frame is
    key, then plaintext, then 0xFF 0xFF, 34 bytes in all; a 20-byte
    response decodes to its first 16 bytes and the little-endian unsigned
    32-bit value of its last 4 bytes.  The last part says the same of a
    whole [encrypt_block] call on an open connection whose device answers
    with those 20 bytes. *)
Theorem frame_codec_layout (key plaintext rx_data : bytes) :
  length key = 16 → length plaintext = 16 → length rx_data = 20 →
  let frame := key ++ plaintext ++ [Byte.xff; Byte.xff] in
  encode_request key plaintext = Return frame
  ∧ length frame = 34
  ∧ ∃ b0 b1 b2 b3,
      drop 16 rx_data = [b0; b1; b2; b3]
      ∧ decode_response rx_data =
          Return (Some (take 16 rx_data), Some (le_uint32 b0 b1 b2 b3))
      ∧ ∀ respond w self h s,
          ser self = Some h → conns w !! h = Some s → is_open s = true →
          respond (ser_port s) (frame :: written s) = rx_data →
          encrypt_block respond self key plaintext w =
            (round_trip_world respond h s frame w,
             Return (Some (take 16 rx_data), Some (le_uint32 b0 b1 b2 b3))).
Proof.
  intros Hk Hp Hrx frame.
  split; [exact (encode_request_ok key plaintext Hk Hp)|].
  split; [unfold frame; rewrite !length_app, Hk, Hp; reflexivity|].
  destruct (decode_response_full rx_data Hrx) as (b0 & b1 & b2 & b3 & Hdrop & Hdec).
  exists b0, b1, b2, b3. split; [exact Hdrop|]. split; [exact Hdec|].
  intros respond w self h s Hser Hs Hopen Hreply.
  rewrite (encrypt_block_connected respond w self h s key plaintext Hser Hs Hopen).
  rewrite (encode_request_ok key plaintext Hk Hp).
  change (key ++ plaintext ++ FRAME_MARKER) with frame.
  rewrite Hreply, firstn_all2 by (rewrite Hrx; unfold RX_FRAME_SIZE, BLOCK_SIZE; lia).
  rewrite Hdec. reflexivity.
Qed.

Lemma frame_codec_layout_witness :
  encode_request NIST_KEY NIST_PT = Return (NIST_KEY ++ NIST_PT ++ [Byte.xff; Byte.xff])
  ∧ snd (encrypt_block reply_nist bench_com3 NIST_KEY NIST_PT world_open)
    = Return (Some NIST_CT, Some 42%Z).
Proof.
  destruct (frame_codec_layout NIST_KEY NIST_PT (reply_nist "COM3"%string [])
              eq_refl eq_refl eq_refl)
    as (Henc & _ & b0 & b1 & b2 & b3 & Hdrop & _ & Hcall).
  split; [exact Henc|].
  rewrite (Hcall reply_nist world_open bench_com3 0
             (mkSerial "COM3" true [] []) eq_refl eq_refl eq_refl eq_refl).
  injection Hdrop as <- <- <- <-. reflexivity.
Defined.

(** C7. A key or a plaintext that is not exactly 16 bytes long makes the
    encoding step raise [ValueError]: the key is checked first.  On an
    open connection [encrypt_block] propagates the exception, before any
    byte is written or read. *)
Theorem invalid_length_raises (key plaintext : bytes) :
  length key ≠ 16 ∨ length plaintext ≠ 16 →
  let msg := if length key =? 16 then "Plaintext must be 16 bytes"%string
             else "Key must be 16 bytes"%string in
  encode_request key plaintext = Raise (ValueError msg)
  ∧ ∀ respond w self,
      connected w self = true →
      encrypt_block respond self key plaintext w = (w, Raise (ValueError msg)).
Proof.
  intros Hbad msg. pose proof (encode_request_bad key plaintext Hbad) as Henc.
  split; [exact Henc|].
  intros respond w self Hconn.
  exact (invalid_length_raises_aux respond w self key plaintext Hbad Hconn).
Qed.

Lemma invalid_length_raises_witness :
  encrypt_block reply_nist bench_com3 (take 15 NIST_KEY) NIST_PT world_open
  = (world_open, Raise (ValueError "Key must be 16 bytes"%string)).
Proof.
  apply (invalid_length_raises (take 15 NIST_KEY) NIST_PT).
  - left. simpl. lia.
  - reflexivity.
Defined.

(** The lengths named by the spec, for the key and for the plaintext. *)
Example invalid_length_examples :
  Forall (λ n, encode_request (replicate n Byte.x00) NIST_PT
               = Raise (ValueError "Key must be 16 bytes"%string)
               ∧ encode_request NIST_KEY (replicate n Byte.x00)
                 = Raise (ValueError "Plaintext must be 16 bytes"%string))
         [0; 15; 17; 33; 35].
Proof. repeat constructor. Qed.

(** C8. With no connection, or a closed one, [encrypt_block] returns
    [(None, None)] at once for every key and plaintext, whatever their
    lengths: the connection test comes first, so the world is unchanged
    and no [ValueError] is raised. *)
Theorem not_connected_returns_none (respond : string → list bytes → bytes)
    (w : World) (self : AESBenchmark) (key plaintext : bytes) :
  ser self = None
  ∨ (∃ h s, ser self = Some h ∧ conns w !! h = Some s ∧ is_open s = false) →
  encrypt_block respond self key plaintext w = (w, Return (None, None))
  ∧ new_events w (encrypt_block respond self key plaintext w).1 = [].
Proof.
  intros Hclosed.
  assert (connected w self = false) as Hconn.
  { unfold connected.
    destruct Hclosed as [-> | (h & s & -> & -> & ->)]; reflexivity. }
  rewrite (encrypt_block_not_connected respond w self key plaintext Hconn).
  split; [reflexivity|apply new_events_refl].
Qed.

Lemma not_connected_returns_none_witness :
  encrypt_block reply_nist bench_com3 [] (take 3 NIST_PT) world_shut
  = (world_shut, Return (None, None))
  ∧ encrypt_block reply_nist bench_unconnected [] (take 3 NIST_PT) world_open
  = (world_open, Return (None, None)).
Proof.
  split.
  - apply (not_connected_returns_none reply_nist world_shut bench_com3).
    right. exists 0, (mkSerial "COM3" false [] []). done.
  - apply (not_connected_returns_none reply_nist world_open bench_unconnected).
    left. reflexivity.
Defined.

(** ** Round-trip invariants *)

(** C9. The result of [encrypt_block] is all or nothing.  Whatever the
    world, the object and the arguments, a call either returns a 16-byte
    ciphertext together with a cycle count in [0, 2^32), or returns
    [(None, None)]; a pair with exactly one component present is never
    produced.  The only other outcome is the [ValueError] of an open
    connection given a key or plaintext of the wrong length, which
    returns no pair at all. *)
Theorem encrypt_block_all_or_nothing (respond : string → list bytes → bytes)
    (w : World) (self : AESBenchmark) (key plaintext : bytes) :
  match snd (encrypt_block respond self key plaintext w) with
  | Return (Some ciphertext, Some cycle_count) =>
      length ciphertext = 16 ∧ (0 ≤ cycle_count < 2 ^ 32)%Z
  | Return (None, None) => True
  | Return (Some _, None) | Return (None, Some _) => False
  | Raise e =>
      connected w self = true
      ∧ (length key ≠ 16 ∨ length plaintext ≠ 16)
      ∧ ∃ msg, e = ValueError msg
  end.
Proof.
  destruct (encrypt_block_cases respond w self key plaintext)
    as [[_ ->] | [(Hc & Hbad & msg & ->) | (Hc & Hk & Hp & h & s & _ & _ & _ & Heq)]].
  - exact I.
  - simpl. eauto.
  - cbv zeta in Heq. rewrite Heq. simpl.
    destruct (decode_response_cases
                (take RX_FRAME_SIZE
                   (respond (ser_port s) ((key ++ plaintext ++ FRAME_MARKER) :: written s))))
      as [[_ ->] | (Hlen & b0 & b1 & b2 & b3 & _ & ->)].
    + exact I.
    + split; [rewrite length_take; lia | apply le_uint32_range].
Qed.

(** C4. A call of [encrypt_block] touches the transport in one of two
    ways.  Either it performs no I/O at all (no connection, or invalid
    lengths), or it performs exactly: clear the input buffer, one write,
    one flush, one read.  That read comes after the write and asks for
    exactly 20 bytes.  When it brings fewer than 20 bytes the call returns
    [(None, None)]: nothing of the partial data is decoded.  When it
    brings 20, the call returns their first 16 as the ciphertext. *)
Theorem one_read_per_write (respond : string → list bytes → bytes)
    (w : World) (self : AESBenchmark) (key plaintext : bytes) :
  let r := encrypt_block respond self key plaintext w in
  new_events w (fst r) = []
  ∨ ∃ h frame got,
      new_events w (fst r) =
        [IoResetInput h; IoWrite h frame; IoFlush h; IoRead h 20 got]
      ∧ length got ≤ 20
      ∧ (length got < 20 → snd r = Return (None, None))
      ∧ (length got = 20 → ∃ cycle_count,
           snd r = Return (Some (take 16 got), Some cycle_count)).
Proof.
  cbv zeta.
  destruct (encrypt_block_cases respond w self key plaintext)
    as [[_ ->] | [(Hc & Hbad & msg & ->) | (Hc & Hk & Hp & h & s & _ & _ & _ & Heq)]].
  - left. apply new_events_refl.
  - left. apply new_events_refl.
  - right. cbv zeta in Heq. rewrite Heq. simpl fst. simpl snd.
    rewrite new_events_round_trip.
    set (frame := key ++ plaintext ++ FRAME_MARKER).
    set (got := take RX_FRAME_SIZE (respond (ser_port s) (frame :: written s))).
    exists h, frame, got. split; [reflexivity|].
    split; [subst got; rewrite length_take; unfold RX_FRAME_SIZE, BLOCK_SIZE; lia|].
    destruct (decode_response_cases got)
      as [[Hne ->] | (Hlen & b0 & b1 & b2 & b3 & _ & ->)].
    + split; [done|]. intros Heq20. contradiction.
    + split; [lia|]. intros _. eauto.
Qed.

Lemma one_read_per_write_witness :
  new_events world_open
    (fst (encrypt_block reply_partial bench_com3 NIST_KEY NIST_PT world_open))
  = [IoResetInput 0; IoWrite 0 (NIST_KEY ++ NIST_PT ++ FRAME_MARKER); IoFlush 0;
     IoRead 0 20 (take 7 NIST_CT)]
  ∧ snd (encrypt_block reply_partial bench_com3 NIST_KEY NIST_PT world_open)
  = Return (None, None).
Proof.
  destruct (one_read_per_write reply_partial world_open bench_com3 NIST_KEY NIST_PT)
    as [Hnone | (h & frame & got & Hev & _ & Hshort & _)].
  - discriminate Hnone.
  - split; [reflexivity|]. apply Hshort.
    vm_compute in Hev. simplify_eq. simpl. lia.
Defined.

(** C3, as the code has it.  [encrypt_block] reports every failed round
    trip in the same way: with no open connection, with no byte received,
    and with some but fewer than 20 bytes received, it returns
    [(None, None)].  Without a connection nothing is written or read, so
    nothing blocks.  No call writes or reads more than once: there is no
    retry. *)
Theorem failed_round_trip_reports_none (respond : string → list bytes → bytes)
    (w : World) (self : AESBenchmark) (key plaintext : bytes) (k : ErrorKind) :
  failure_kind respond w self key plaintext = Some k →
  let r := encrypt_block respond self key plaintext w in
  snd r = Return (None, None)
  ∧ (k = NotConnected → fst r = w)
  ∧ length (List.filter is_write (new_events w (fst r))) ≤ 1
  ∧ length (List.filter is_read (new_events w (fst r))) ≤ 1.
Proof.
  intros Hkind. cbv zeta.
  destruct (encrypt_block_cases respond w self key plaintext)
    as [[_ ->] | [(Hc & Hbad & msg & Heq) | (Hc & Hk & Hp & h & s & Hser & Hs & Hopen & Heq)]].
  - simpl. rewrite new_events_refl. simpl. split_and!; [done|done|lia|lia].
  - exfalso. unfold failure_kind, connected in *.
    destruct (ser self) as [h|]; [|discriminate].
    destruct (conns w !! h) as [s|]; [|discriminate].
    rewrite Hc in Hkind. simpl in Hkind.
    rewrite (encode_request_bad key plaintext Hbad) in Hkind. discriminate.
  - cbv zeta in Heq. rewrite Heq. simpl fst. simpl snd.
    rewrite new_events_round_trip.
    unfold failure_kind in Hkind. rewrite Hser, Hs, Hopen in Hkind. simpl in Hkind.
    rewrite (encode_request_ok key plaintext Hk Hp) in Hkind.
    set (got := take RX_FRAME_SIZE _) in *.
    assert (length got ≠ 20) as Hne.
    { destruct (Nat.eqb_spec (length got) 0); [lia|].
      destruct (Nat.ltb_spec (length got) RX_FRAME_SIZE); [|discriminate].
      unfold RX_FRAME_SIZE, BLOCK_SIZE in *. lia. }
    rewrite (decode_response_short got Hne).
    split_and!; [done| |simpl; lia|simpl; lia].
    intros ->. exfalso.
    destruct (length got =? 0); [discriminate|].
    destruct (length got <? RX_FRAME_SIZE); discriminate.
Qed.

Lemma failed_round_trip_reports_none_witness :
  snd (encrypt_block reply_partial bench_com3 NIST_KEY NIST_PT world_open)
  = Return (None, None)
  ∧ snd (encrypt_block reply_nothing bench_com3 NIST_KEY NIST_PT world_open)
  = Return (None, None)
  ∧ encrypt_block reply_nist bench_com3 NIST_KEY NIST_PT world_shut
  = (world_shut, Return (None, None)).
Proof.
  split_and!.
  - apply (failed_round_trip_reports_none reply_partial world_open bench_com3
             NIST_KEY NIST_PT ShortRead). reflexivity.
  - apply (failed_round_trip_reports_none reply_nothing world_open bench_com3
             NIST_KEY NIST_PT Timeout). reflexivity.
  - destruct (failed_round_trip_reports_none reply_nist world_shut bench_com3
                NIST_KEY NIST_PT NotConnected eq_refl) as (Hres & Hw & _).
    specialize (Hw eq_refl).
    destruct (encrypt_block reply_nist bench_com3 NIST_KEY NIST_PT world_shut).
    simpl in *. congruence.
Defined.

(** C3, as the spec words it, does not hold: no reading of the value
    [encrypt_block] returns can tell the three kinds of failure apart,
    because a closed connection, a silent device and a device that sends
    7 bytes all yield the same [(None, None)]. *)
Lemma error_kinds_not_distinguishable :
  ¬ ∃ classify : option bytes * option Z → ErrorKind,
      ∀ respond w self key plaintext k,
        failure_kind respond w self key plaintext = Some k →
        ∃ r, snd (encrypt_block respond self key plaintext w) = Return r
             ∧ classify r = k.
Proof.
  intros [classify Hc].
  destruct (Hc reply_nothing world_open bench_com3 NIST_KEY NIST_PT Timeout eq_refl)
    as (r1 & Hr1 & Hk1).
  destruct (Hc reply_partial world_open bench_com3 NIST_KEY NIST_PT ShortRead eq_refl)
    as (r2 & Hr2 & Hk2).
  vm_compute in Hr1, Hr2.
  injection Hr1 as <-. injection Hr2 as <-.
  rewrite Hk1 in Hk2. discriminate.
Qed.

(** ** Discovery *)

Section Discovery.

Context (can_open : string → bool) (boot_noise : string → bytes)
        (respond : string → list bytes → bytes).

Lemma settings_accepted_checks (baud : Z) (tmo : Q) :
  settings_accepted baud tmo ↔ (baud <? 0)%Z = false ∧ Qltb tmo 0 = false.
Proof.
  unfold settings_accepted, Qltb.
  rewrite Z.ltb_ge, negb_false_iff, Qle_bool_iff. done.
Qed.

(** Refused settings: the constructor raises before the port is touched,
    and [connect] lets the exception through. *)
Lemma connect_rejects (w : World) (self : AESBenchmark) :
  ¬ settings_accepted (baudrate self) (timeout self) →
  ∃ msg, connect can_open boot_noise self w = (w, Raise (ValueError msg)).
Proof.
  intros Hbad. rewrite settings_accepted_checks in Hbad.
  unfold connect, serial_open, mbind, M_bind.
  destruct (baudrate self <? 0)%Z; [by eexists|].
  destruct (Qltb (timeout self) 0); [by eexists|].
  destruct Hbad. done.
Qed.

Lemma connect_fails (w : World) (device : string) (baud : Z) (tmo : Q) :
  settings_accepted baud tmo →
  can_open device = false →
  ∃ w', connect can_open boot_noise (new_bench device baud tmo) w
          = (w', Return (new_bench device baud tmo, false))
        ∧ conns w' = conns w.
Proof.
  intros [Hb Ht]%settings_accepted_checks Hno.
  eexists. unfold connect, serial_open, mbind, M_bind. simpl.
  rewrite Hb, Ht, Hno. simpl. split; reflexivity.
Qed.

Lemma connect_succeeds (w : World) (device : string) (baud : Z) (tmo : Q) :
  settings_accepted baud tmo →
  can_open device = true →
  ∃ w', connect can_open boot_noise (new_bench device baud tmo) w
          = (w', Return (mkBench device baud tmo (Some (length (conns w))), true))
        ∧ conns w' = conns w ++ [mkSerial device true [] []].
Proof.
  intros [Hb Ht]%settings_accepted_checks Hyes.
  eexists. unfold connect, serial_open, mbind, M_bind. simpl.
  rewrite Hb, Ht, Hyes. simpl.
  unfold reset_input_buffer, update_conn, emit, modify, mbind, M_bind, mret, M_ret,
    set_conns, log_io. simpl.
  rewrite list_lookup_middle by reflexivity. simpl.
  split; [reflexivity|].
  rewrite insert_app_r_alt by lia. rewrite Nat.sub_diag. reflexivity.
Qed.

Lemma validate_on_fresh (w : World) (bench : AESBenchmark) (h : nat) (device : string) :
  ser bench = Some h →
  conns w !! h = Some (mkSerial device true [] []) →
  ∃ w', validate_with_nist respond bench w = (w', Return (port_answers respond device))
        ∧ conns w' =
            <[h := mkSerial device true
                            (drop RX_FRAME_SIZE (respond device [nist_frame]))
                            [nist_frame]]> (conns w).
Proof.
  intros Hser Hs. eexists. unfold validate_with_nist, mbind, M_bind.
  rewrite (encrypt_block_connected respond w bench h _ NIST_KEY NIST_PT Hser Hs eq_refl).
  change (encode_request NIST_KEY NIST_PT) with (Return nist_frame). simpl.
  unfold port_answers.
  destruct (decode_response_cases (take RX_FRAME_SIZE (respond device [nist_frame])))
    as [[_ ->] | (_ & b0 & b1 & b2 & b3 & _ & ->)]; simpl; split; reflexivity.
Qed.

Lemma disconnect_open (w : World) (bench : AESBenchmark) (h : nat) (s : Serial) :
  ser bench = Some h → conns w !! h = Some s → is_open s = true →
  ∃ w', disconnect bench w = (w', Return ())
        ∧ conns w' =
            <[h := mkSerial (ser_port s) false (in_buffer s) (written s)]> (conns w).
Proof.
  intros Hser Hs Hopen. eexists. unfold disconnect. rewrite Hser.
  unfold mbind, M_bind, serial_is_open. rewrite Hs, Hopen.
  unfold serial_close, update_conn, emit, modify, mbind, M_bind, set_conns, log_io.
  simpl. rewrite Hs. split; reflexivity.
Qed.

(** One candidate of the scan: a port that cannot be opened leaves the
    store alone; a port that can adds one connection, left open exactly
    when the probe matched. *)
Lemma auto_detect_scan_step (w : World) (baud : Z) (tmo : Q)
    (device description : string) (ports : list (string * string)) :
  settings_accepted baud tmo →
  ∃ w1,
    conns w1 =
      (if can_open device
       then conns w ++ [mkSerial device (port_answers respond device)
                                 (drop RX_FRAME_SIZE (respond device [nist_frame]))
                                 [nist_frame]]
       else conns w)
    ∧ auto_detect_scan can_open boot_noise respond baud tmo
        ((device, description) :: ports) w
      = if candidate_matches can_open respond (device, description)
        then (w1, Return (Some (mkBench device baud tmo (Some (length (conns w))))))
        else auto_detect_scan can_open boot_noise respond baud tmo ports w1.
Proof.
  intros Hset. unfold candidate_matches. simpl fst.
  destruct (can_open device) eqn:Hopen.
  - destruct (connect_succeeds w device baud tmo Hset Hopen) as (w1 & Hconn & Hc1).
    set (h := length (conns w)) in *.
    set (bench := mkBench device baud tmo (Some h)) in *.
    assert (conns w1 !! h = Some (mkSerial device true [] [])) as Hs1.
    { rewrite Hc1. by apply list_lookup_middle. }
    destruct (validate_on_fresh w1 bench h device eq_refl Hs1) as (w2 & Hval & Hc2).
    assert (conns w2 = conns w ++ [mkSerial device true
              (drop RX_FRAME_SIZE (respond device [nist_frame])) [nist_frame]]) as Hc2'.
    { rewrite Hc2, Hc1. rewrite insert_app_r_alt by (subst h; lia).
      subst h. rewrite Nat.sub_diag. reflexivity. }
    destruct (port_answers respond device) eqn:Hans.
    + exists w2. split; [exact Hc2'|].
      simpl. unfold mbind at 1, M_bind at 1. rewrite Hconn. simpl.
      unfold mbind at 1, M_bind at 1, try_except.
      unfold mbind at 1, M_bind at 1. rewrite Hval. reflexivity.
    + assert (conns w2 !! h = Some (mkSerial device true
                (drop RX_FRAME_SIZE (respond device [nist_frame])) [nist_frame])) as Hs2.
      { rewrite Hc2'. by apply list_lookup_middle. }
      destruct (disconnect_open w2 bench h _ eq_refl Hs2 eq_refl) as (w3 & Hdis & Hc3).
      exists w3. split.
      { rewrite Hc3, Hc2'. rewrite insert_app_r_alt by (subst h; lia).
        subst h. rewrite Nat.sub_diag. reflexivity. }
      simpl. unfold mbind at 1, M_bind at 1. rewrite Hconn. simpl.
      unfold mbind at 1, M_bind at 1, try_except.
      unfold mbind at 1, M_bind at 1. rewrite Hval.
      unfold mbind at 1, M_bind at 1. rewrite Hdis. reflexivity.
  - destruct (connect_fails w device baud tmo Hset Hopen) as (w1 & Hconn & Hc1).
    exists w1. split; [exact Hc1|].
    simpl. unfold mbind at 1, M_bind at 1. rewrite Hconn. reflexivity.
Qed.

Lemma auto_detect_scan_spec (baud : Z) (tmo : Q) (ports : list (string * string)) :
  settings_accepted baud tmo →
  ∀ (w : World) (lo : nat),
    lo ≤ length (conns w) →
    opened_are_closed lo None w →
    let r := auto_detect_scan can_open boot_noise respond baud tmo ports w in
    (∀ h, h < lo → conns (fst r) !! h = conns w !! h)
    ∧ discovery_post baud tmo lo
        (List.find (candidate_matches can_open respond) ports) r.
Proof.
  intros Hset.
  induction ports as [|[device description] ports IH]; intros w lo Hlo Hclosed.
  - simpl. split; [done|]. split; [done|]. exact Hclosed.
  - cbv zeta.
    destruct (auto_detect_scan_step w baud tmo device description ports Hset)
      as (w1 & Hc1 & ->).
    cbn [List.find].
    destruct (candidate_matches can_open respond (device, description)) eqn:Hm.
    + unfold candidate_matches in Hm. simpl fst in Hm.
      apply andb_true_iff in Hm as [Hopen Hans].
      rewrite Hopen, Hans in Hc1. split.
      * intros h Hh. simpl. rewrite Hc1. apply lookup_app_l. lia.
      * eexists (length (conns w)), _. simpl. split; [reflexivity|]. split; [exact Hlo|].
        split; [rewrite Hc1; by apply list_lookup_middle|].
        split; [reflexivity|]. split; [reflexivity|].
        intros h s Hh Hne. simpl. rewrite Hc1. intros Hlook.
        destruct (decide (h < length (conns w))) as [Hlt|Hge].
        -- rewrite lookup_app_l in Hlook by exact Hlt.
           by apply (Hclosed h s Hh).
        -- apply lookup_lt_Some in Hlook. rewrite length_app in Hlook. simpl in Hlook.
           assert (h = length (conns w)) as -> by lia. congruence.
    + assert (lo ≤ length (conns w1)) as Hlo1.
      { rewrite Hc1. destruct (can_open device); [rewrite length_app|]; lia. }
      assert (opened_are_closed lo None w1) as Hclosed1.
      { intros h s Hh _. rewrite Hc1. destruct (can_open device) eqn:Hopen.
        - unfold candidate_matches in Hm. simpl fst in Hm. rewrite Hopen in Hm.
          simpl in Hm. rewrite Hm. intros Hlook.
          destruct (decide (h < length (conns w))) as [Hlt|Hge].
          + rewrite lookup_app_l in Hlook by exact Hlt. by apply (Hclosed h s Hh).
          + pose proof (lookup_lt_Some _ _ _ Hlook) as Hb.
            rewrite length_app in Hb. simpl in Hb.
            assert (h = length (conns w)) as -> by lia.
            rewrite list_lookup_middle in Hlook by reflexivity. by simplify_eq.
        - by apply Hclosed. }
      destruct (IH w1 lo Hlo1 Hclosed1) as [Hpres Hpost].
      split; [|exact Hpost].
      intros h Hh. rewrite (Hpres h Hh), Hc1.
      destruct (can_open device); [apply lookup_app_l; lia|reflexivity].
Qed.

End Discovery.



(** ** Latency statistics *)

Section Sorting.

Context {A : Type} (leb : A → A → bool) (R : A → A → Prop).
Hypothesis leb_sound : ∀ x y, leb x y = true → R x y.
Hypothesis leb_total : ∀ x y, leb x y = false → R y x.

Lemma sort_insert_perm (x : A) (l : list A) : Permutation (x :: l) (sort_insert leb x l).
Proof.
  induction l as [|y l IH]; simpl; [reflexivity|].
  destruct (leb x y); [reflexivity|].
  rewrite perm_swap. by apply perm_skip.
Qed.

Lemma sort_insert_hdrel (a x : A) (l : list A) :
  R a x → HdRel R a l → HdRel R a (sort_insert leb x l).
Proof.
  intros Hax Hl. destruct l as [|y l]; simpl; [by constructor|].
  destruct (leb x y); constructor; [done|].
  by inversion Hl.
Qed.

Lemma sort_insert_sorted (x : A) (l : list A) :
  Sorted R l → Sorted R (sort_insert leb x l).
Proof.
  induction 1 as [|y l Hsorted IH Hhd]; simpl.
  - by repeat constructor.
  - destruct (leb x y) eqn:Hxy.
    + constructor; [by constructor|]. constructor. by apply leb_sound.
    + constructor; [exact IH|]. apply sort_insert_hdrel; [by apply leb_total|done].
Qed.

Lemma py_sort_sorted (l : list A) : Sorted R (py_sort leb l).
Proof.
  induction l as [|x l IH]; simpl; [constructor|]. by apply sort_insert_sorted.
Qed.

Lemma py_sort_perm (l : list A) : Permutation l (py_sort leb l).
Proof.
  induction l as [|x l IH]; simpl; [reflexivity|].
  rewrite <- sort_insert_perm. by apply perm_skip.
Qed.

Lemma py_sort_length (l : list A) : length (py_sort leb l) = length l.
Proof. symmetry. apply Permutation_length, py_sort_perm. Qed.

End Sorting.

Lemma Qle_bool_total (x y : Q) : Qle_bool x y = false → (y <= x)%Q.
Proof.
  intros Hf. destruct (Qlt_le_dec x y) as [Hlt|Hle]; [|exact Hle].
  apply Qlt_le_weak, Qle_bool_iff in Hlt. congruence.
Qed.

Lemma all_ints_Some (cycles : list Z) : all_ints (Some <$> cycles) = Return cycles.
Proof.
  induction cycles as [|c cycles IH]; [reflexivity|].
  rewrite fmap_cons. cbn [all_ints as_int]. unfold mbind, outcome_bind.
  rewrite IH. reflexivity.
Qed.

Lemma py_index_in_range {A : Type} (l : list A) (i : Z) :
  (0 ≤ i < Z.of_nat (length l))%Z →
  ∃ x, py_index l i = Return x ∧ l !! Z.to_nat i = Some x.
Proof.
  intros Hi. unfold py_index. cbv zeta.
  assert ((i <? 0)%Z = false) as Hlt by (apply Z.ltb_ge; lia).
  rewrite Hlt. cbv iota. rewrite Hlt.
  destruct (l !! Z.to_nat i) as [x|] eqn:Hx; [eauto|].
  apply lookup_ge_None in Hx. lia.
Qed.

Lemma py_div_nonzero (a b : Q) : ¬ (b == 0)%Q → py_div a b = Return (a / b)%Q.
Proof.
  intros Hb. unfold py_div.
  destruct (Qeq_bool b 0) eqn:Heq; [|reflexivity].
  apply Qeq_bool_iff in Heq. contradiction.
Qed.

(** [int(n * 0.95)]-style indices, in integer arithmetic. *)
Lemma py_int_percent (n p : Z) :
  (0 ≤ n)%Z → (0 ≤ p)%Z →
  py_int (inject_Z n * (p # 100)) = (n * p / 100)%Z.
Proof.
  intros Hn Hp. unfold py_int.
  assert (0 <= inject_Z n * (p # 100))%Q as Hnonneg.
  { apply Qmult_le_0_compat; unfold Qle; simpl; lia. }
  apply Qle_bool_iff in Hnonneg. rewrite Hnonneg.
  reflexivity.
Qed.

Lemma inject_Z_nonzero (n : Z) : n ≠ 0%Z → ¬ (inject_Z n == 0)%Q.
Proof. unfold Qeq. simpl. lia. Qed.

Lemma py_min_nonempty {A : Type} (ltb : A → A → bool) (l : list A) :
  l ≠ [] → ∃ x, py_min ltb l = Return x.
Proof. destruct l; [done|]. simpl. eauto. Qed.

Lemma py_max_nonempty {A : Type} (ltb : A → A → bool) (l : list A) :
  l ≠ [] → ∃ x, py_max ltb l = Return x.
Proof. destruct l; [done|]. simpl. eauto. Qed.

Lemma nonempty_length {A : Type} (l : list A) : l ≠ [] ↔ 0 < length l.
Proof. destruct l; simpl; split; (done || lia). Qed.

(** Taking [0.95] and [0.99] as exact rationals changes no index: for
    every sample count up to 10000 the binary64 computation gives the
    same integer. *)
Lemma percentile_index_binary64 :
  forallb float_index_agrees (seq 0 (Z.to_nat 10001)) = true.
Proof. vm_compute. reflexivity. Qed.

(** C2, with the example as the code computes it.  [latency_stats]
    sorts the latencies ascending, and the cycle counts ascending on
    their own; the median is the element of the sorted latencies at index
    [len // 2], the 95th percentile the one at [floor(len * 0.95)], the
    99th the one at [floor(len * 0.99)]; the cycle figures are taken from
    the sorted cycle counts.  For the samples 1..10 the median is 6 (the
    element at index 5), and both percentiles are 10 (index 9). *)
Theorem latency_percentiles :
  (∀ (latencies : list Q) (cycles : list Z),
     latencies ≠ [] → cycles ≠ [] →
     let sorted_lat := py_sort Qle_bool latencies in
     let sorted_cyc := py_sort Z.leb cycles in
     let n := length latencies in
     Sorted Qle sorted_lat ∧ Permutation latencies sorted_lat
     ∧ Sorted Z.le sorted_cyc ∧ Permutation cycles sorted_cyc
     ∧ ∃ stats,
         latency_stats latencies (Some <$> cycles) = Return (LatencyOk stats)
         ∧ ls_samples stats = n
         ∧ sorted_lat !! (n / 2) = Some (ls_median_latency_ms stats)
         ∧ sorted_lat !! (n * 95 / 100) = Some (ls_p95_latency_ms stats)
         ∧ sorted_lat !! (n * 99 / 100) = Some (ls_p99_latency_ms stats)
         ∧ py_min Z.ltb sorted_cyc = Return (ls_min_hw_cycles stats)
         ∧ py_max Z.ltb sorted_cyc = Return (ls_max_hw_cycles stats))
  ∧ (∃ stats,
       latency_stats ten_samples ten_cycles = Return (LatencyOk stats)
       ∧ ls_median_latency_ms stats = 6%Q
       ∧ ls_p95_latency_ms stats = 10%Q
       ∧ ls_p99_latency_ms stats = 10%Q).
Proof.
  split; [|eexists; vm_compute; split_and!; reflexivity].
  intros latencies cycles Hlat Hcyc sorted_lat sorted_cyc n.
  split; [apply py_sort_sorted; [apply Qle_bool_imp_le|apply Qle_bool_total]|].
  split; [apply py_sort_perm|].
  split; [apply py_sort_sorted; intros x y; [apply Z.leb_le|rewrite Z.leb_gt; lia]|].
  split; [apply py_sort_perm|].
  assert (length sorted_lat = n) as Hlen by apply py_sort_length.
  assert (0 < n) as Hn by (by apply nonempty_length).
  assert (sorted_lat ≠ []) as Hsl by (apply nonempty_length; lia).
  assert (sorted_cyc ≠ []) as Hsc.
  { apply nonempty_length. unfold sorted_cyc. rewrite py_sort_length.
    by apply nonempty_length. }
  destruct (py_min_nonempty Qltb sorted_lat Hsl) as [lat_min Hmin].
  destruct (py_max_nonempty Qltb sorted_lat Hsl) as [lat_max Hmax].
  destruct (py_min_nonempty Z.ltb sorted_cyc Hsc) as [cyc_min Hcmin].
  destruct (py_max_nonempty Z.ltb sorted_cyc Hsc) as [cyc_max Hcmax].
  destruct (py_index_in_range sorted_lat (Z.of_nat n / 2)) as (median & Hmed & Hmed').
  { rewrite Hlen. split; [apply Z.div_pos; lia|apply Z.div_lt_upper_bound; lia]. }
  destruct (py_index_in_range sorted_lat (Z.of_nat n * 95 / 100)) as (p95 & Hp95 & Hp95').
  { rewrite Hlen. split; [apply Z.div_pos; lia|apply Z.div_lt_upper_bound; lia]. }
  destruct (py_index_in_range sorted_lat (Z.of_nat n * 99 / 100)) as (p99 & Hp99 & Hp99').
  { rewrite Hlen. split; [apply Z.div_pos; lia|apply Z.div_lt_upper_bound; lia]. }
  eexists (mkLatencyStats n lat_min lat_max _ median p95 p99 cyc_min cyc_max _).
  split.
  - unfold latency_stats. destruct latencies as [|l0 latencies]; [done|].
    fold sorted_lat. rewrite all_ints_Some.
    unfold mbind at 1, outcome_bind at 1. fold sorted_cyc.
    rewrite Hlen, Hmin. unfold mbind at 1, outcome_bind at 1.
    rewrite Hmax. unfold mbind at 1, outcome_bind at 1.
    rewrite (py_div_nonzero (sumQ sorted_lat)) by (apply inject_Z_nonzero; lia).
    unfold mbind at 1, outcome_bind at 1.
    rewrite Hmed. unfold mbind at 1, outcome_bind at 1.
    rewrite !py_int_percent by lia.
    rewrite Hp95. unfold mbind at 1, outcome_bind at 1.
    rewrite Hp99. unfold mbind at 1, outcome_bind at 1.
    rewrite Hcmin. unfold mbind at 1, outcome_bind at 1.
    rewrite Hcmax. unfold mbind at 1, outcome_bind at 1.
    rewrite py_div_nonzero.
    2:{ apply inject_Z_nonzero. apply nonempty_length in Hsc. lia. }
    reflexivity.
  - simpl. split; [reflexivity|].
    rewrite <- Hmed', <- Hp95', <- Hp99', Hcmin, Hcmax.
    rewrite Z2Nat.inj_div, !Nat2Z.id by lia.
    change (Z.to_nat 2) with 2.
    rewrite !Z2Nat.inj_div by lia.
    rewrite !Z2Nat.inj_mul, !Nat2Z.id by lia.
    done.
Qed.

Lemma latency_percentiles_witness :
  ∃ stats,
    latency_stats shuffled_samples ten_cycles = Return (LatencyOk stats)
    ∧ ten_samples !! 5 = Some (ls_median_latency_ms stats)
    ∧ ten_samples !! 9 = Some (ls_p95_latency_ms stats)
    ∧ ten_samples !! 9 = Some (ls_p99_latency_ms stats).
Proof.
  destruct latency_percentiles as [Hgeneral _].
  destruct (Hgeneral shuffled_samples [52; 50; 51; 50; 50; 53; 50; 51; 50; 50]%Z)
    as (_ & _ & _ & _ & stats & Hstats & _ & Hmed & Hp95 & Hp99 & _).
  - discriminate.
  - discriminate.
  - exists stats. split; [exact Hstats|].
    split; [exact Hmed|]. split; [exact Hp95|exact Hp99].
Defined.

(** C2 as the spec words its example does not hold: for the samples
    1..10 the reported median is 6, not 5. *)
Lemma ten_samples_median_is_not_five :
  ∃ stats,
    latency_stats ten_samples ten_cycles = Return (LatencyOk stats)
    ∧ ls_median_latency_ms stats = 6%Q
    ∧ ¬ (ls_median_latency_ms stats == 5)%Q.
Proof.
  eexists. split; [vm_compute; reflexivity|]. split; [reflexivity|].
  simpl. unfold Qeq. simpl. lia.
Qed.

(** ** Guarded divisions in the statistics *)

Lemma throughput_stats_returned (blocks total : Z) (elapsed : Q) (stats : ThroughputStats) :
  throughput_stats blocks total elapsed = Return stats →
  ts_blocks stats = blocks ∧ ((blocks ≤ 0)%Z → ts_avg_cycles stats = 0%Q).
Proof.
  unfold throughput_stats, py_div.
  destruct (Qeq_bool elapsed 0); [discriminate|]. simpl.
  destruct (Z.gtb_spec blocks 0) as [Hpos|Hle].
  - destruct (Qeq_bool (inject_Z blocks) 0); [discriminate|]. simpl.
    intros [= <-]. simpl. split; [reflexivity|lia].
  - simpl. intros [= <-]. simpl. done.
Qed.

Lemma run_throughput_test_returned (entropy : nat → Byte.byte) (clock : nat → Q)
    (respond : string → list bytes → bytes) (fuel : nat) (bench : AESBenchmark)
    (duration_sec : Q) (w w' : World) (stats : ThroughputStats) :
  run_throughput_test respond entropy clock fuel bench duration_sec w
    = (w', Return (Some stats)) →
  ∃ total elapsed, throughput_stats (ts_blocks stats) total elapsed = Return stats.
Proof.
  unfold run_throughput_test, mbind, M_bind, os_urandom, time_now. simpl.
  destruct (throughput_loop _ _ _ _ _ _ _ _ _ _ _) as [w1 [[[blocks total]|]|e]];
    simpl; try discriminate.
  unfold lift_outcome.
  destruct (throughput_stats blocks total _) as [stats'|e] eqn:Hstats; try discriminate.
  intros [= _ <-].
  destruct (throughput_stats_returned _ _ _ _ Hstats) as [-> _]. eauto.
Qed.

(** With no open connection every iteration of the throughput loop
    fails, and the loop ends at the first clock reading that has reached
    the duration: [k] readings stay below it, the next one does not. *)
Lemma throughput_loop_not_connected (entropy : nat → Byte.byte) (clock : nat → Q)
    (respond : string → list bytes → bytes) (bench : AESBenchmark) (key : bytes)
    (start_time duration_sec : Q) (blocks total : Z) :
  ∀ (k fuel : nat) (w : World),
    connected w bench = false →
    (∀ j, j < k → Qltb (clock (clock_ix w + j) - start_time) duration_sec = true) →
    Qltb (clock (clock_ix w + k) - start_time) duration_sec = false →
    k < fuel →
    throughput_loop respond entropy clock fuel bench key start_time duration_sec
                    blocks total w
    = (mkWorld (conns w) (io_trace w) (rand_ix w + 16 * k) (clock_ix w + k + 1),
       Return (Some (blocks, total))).
Proof.
  induction k as [|k IH]; intros fuel w Hconn Hbelow Hreached Hfuel;
    (destruct fuel as [|fuel]; [lia|]); simpl throughput_loop;
    unfold mbind at 1, M_bind at 1, time_now.
  - rewrite Nat.add_0_r in Hreached. rewrite Hreached.
    unfold mret, M_ret. f_equal. f_equal; lia.
  - pose proof (Hbelow 0 ltac:(lia)) as Hfirst.
    rewrite Nat.add_0_r in Hfirst. rewrite Hfirst.
    unfold mbind at 1, M_bind at 1, os_urandom. cbn [rand_ix conns io_trace clock_ix].
    unfold mbind at 1, M_bind at 1.
    rewrite encrypt_block_not_connected by exact Hconn. cbn [fst].
    rewrite IH; cbn [rand_ix conns io_trace clock_ix].
    + f_equal. f_equal; lia.
    + exact Hconn.
    + intros j Hj. replace (S (clock_ix w) + j) with (clock_ix w + S j) by lia.
      apply Hbelow. lia.
    + replace (S (clock_ix w) + k) with (clock_ix w + S k) by lia. exact Hreached.
    + lia.
Qed.

(** C10. The guarded denominators never divide by zero.
    [run_random_tests] with [num_tests = 0] performs no round trip and
    reports passed = failed = 0 and pass_rate = 0; the pass-rate and
    mean-cycle entries of the random-test statistics evaluate for every
    count.  The statistics of the throughput test with zero successful
    blocks have avg_cycles = 0: the only exception they can raise comes
    from the divisions by the elapsed time, which are not guarded, and
    whenever a run of [run_throughput_test] reports zero blocks it
    reports avg_cycles = 0.  Such runs return: without an open
    connection, for a positive duration, once the clock has reached the
    duration without going backwards afterwards and with enough fuel,
    the run reports blocks = 0 and avg_cycles = 0. *)
Theorem guarded_denominators :
  (∀ respond entropy aes_enc (bench : AESBenchmark) (w : World),
     run_random_tests respond entropy aes_enc bench 0 w
       = (w, Return (mkRandomStats 0 0 0 0 None None None)))
  ∧ (∀ (passed failed num_tests : Z) (cycles : list Z),
       ∃ stats, random_stats passed failed num_tests (Some <$> cycles) = Return stats
                ∧ ((num_tests ≤ 0)%Z → rs_pass_rate stats = 0%Q))
  ∧ (∀ (total : Z) (elapsed : Q),
       throughput_stats 0 total elapsed =
         if Qeq_bool elapsed 0 then Raise ZeroDivisionError
         else Return (mkThroughputStats 0 elapsed (0 / elapsed) (0 / elapsed)
                                        (0 / elapsed / 1000) 0))
  ∧ (∀ respond entropy clock fuel bench duration_sec (w w' : World) stats,
       run_throughput_test respond entropy clock fuel bench duration_sec w
         = (w', Return (Some stats)) →
       ts_blocks stats = 0%Z → ts_avg_cycles stats = 0%Q)
  ∧ (∀ respond entropy clock bench duration_sec (w : World) (k fuel : nat),
       let start_time := clock (clock_ix w) in
       connected w bench = false →
       (∀ j, j < k →
          Qltb (clock (S (clock_ix w) + j) - start_time) duration_sec = true) →
       Qltb (clock (S (clock_ix w) + k) - start_time) duration_sec = false →
       k < fuel →
       (0 < duration_sec)%Q →
       (clock (S (clock_ix w) + k)%nat <= clock (clock_ix w + k + 2)%nat)%Q →
       ∃ w' stats,
         run_throughput_test respond entropy clock fuel bench duration_sec w
           = (w', Return (Some stats))
         ∧ ts_blocks stats = 0%Z ∧ ts_avg_cycles stats = 0%Q).
Proof.
  split_and!; cycle 4.
  { intros respond entropy clock bench duration_sec w k fuel start_time
      Hconn Hbelow Hreached Hfuel Hpos Hmono.
    assert (¬ (clock (clock_ix w + k + 2)%nat - start_time == 0)%Q) as Helapsed.
    { unfold Qltb in Hreached. apply negb_false_iff, Qle_bool_iff in Hreached.
      intros Hzero. rewrite <- Hzero in Hpos.
      assert (clock (clock_ix w + k + 2)%nat - start_time
              < clock (S (clock_ix w) + k)%nat - start_time)%Q as Hlt
        by (eapply Qlt_le_trans; [exact Hpos|exact Hreached]).
      apply Qplus_lt_l in Hlt. apply Qlt_not_le in Hlt. contradiction. }
    unfold run_throughput_test.
    unfold mbind at 1, M_bind at 1, os_urandom.
    unfold mbind at 1, M_bind at 1, time_now. cbn [rand_ix conns io_trace clock_ix].
    unfold mbind at 1, M_bind at 1.
    rewrite (throughput_loop_not_connected entropy clock respond bench _ _ _ 0 0 k fuel)
      by (try done; cbn [rand_ix conns io_trace clock_ix]; auto).
    cbn [rand_ix conns io_trace clock_ix].
    unfold mbind at 1, M_bind at 1. cbn [rand_ix conns io_trace clock_ix].
    unfold mbind at 1, M_bind at 1, lift_outcome.
    unfold throughput_stats, py_div.
    replace (S (clock_ix w) + k + 1) with (clock_ix w + k + 2) by lia.
    fold start_time.
    destruct (Qeq_bool (clock (clock_ix w + k + 2) - start_time) 0) eqn:Hz.
    { apply Qeq_bool_iff in Hz. contradiction. }
    simpl. eexists _, _. split; [reflexivity|]. split; reflexivity. }
  - reflexivity.
  - intros passed failed num_tests cycles. unfold random_stats.
    assert (∃ rate, (if (num_tests >? 0)%Z
                     then py_div (inject_Z passed) (inject_Z num_tests)
                          ≫= (λ q : Q, mret (q * 100)%Q)
                     else mret 0%Q) = Return rate
                    ∧ ((num_tests ≤ 0)%Z → rate = 0%Q)) as (rate & -> & Hrate).
    { destruct (Z.gtb_spec num_tests 0) as [Hpos|Hle].
      - rewrite py_div_nonzero by (apply inject_Z_nonzero; lia).
        eexists. split; [reflexivity|lia].
      - eexists. split; [reflexivity|done]. }
    unfold mbind at 1, outcome_bind at 1.
    destruct cycles as [|c cycles]; [eexists; split; [reflexivity|exact Hrate]|].
    rewrite all_ints_Some. unfold mbind at 1, outcome_bind at 1.
    simpl py_min. simpl py_max. unfold mbind at 1 2, outcome_bind at 1 2.
    rewrite py_div_nonzero by (apply inject_Z_nonzero; simpl; lia).
    eexists. split; [reflexivity|exact Hrate].
  - intros total elapsed. unfold throughput_stats, py_div. simpl.
    destruct (Qeq_bool elapsed 0); reflexivity.
  - intros respond entropy clock fuel bench duration_sec w w' stats Hrun Hzero.
    destruct (run_throughput_test_returned _ _ _ _ _ _ _ _ _ Hrun) as (total & elapsed & Hstats).
    apply throughput_stats_returned in Hstats as [_ Havg].
    apply Havg. lia.
Qed.

Lemma guarded_denominators_witness :
  ∃ w' stats,
    run_throughput_test reply_nist entropy_zero clock_3s 5 bench_com3 5 world_shut
      = (w', Return (Some stats))
    ∧ ts_blocks stats = 0%Z
    ∧ ts_avg_cycles stats = 0%Q.
Proof.
  destruct guarded_denominators as (_ & _ & _ & _ & Hrun).
  apply (Hrun reply_nist entropy_zero clock_3s bench_com3 5%Q world_shut 1 5).
  - reflexivity.
  - intros j Hj. assert (j = 0) as -> by lia. reflexivity.
  - reflexivity.
  - lia.
  - reflexivity.
  - discriminate.
Defined.

(** ** Bulk block-wise test *)

Lemma pad_pixels_aligned (pixels : bytes) :
  length pixels mod 16 = 0 → pad_pixels pixels = (pixels, 0).
Proof. intros Hmod. unfold pad_pixels. rewrite Hmod. reflexivity. Qed.

Lemma pad_pixels_spec (pixels : bytes) :
  length (pad_pixels pixels).1 mod 16 = 0
  ∧ take (length pixels) (pad_pixels pixels).1 = pixels.
Proof.
  unfold pad_pixels.
  destruct (Nat.eqb_spec (length pixels mod 16) 0) as [Hz|Hnz]; cbn [negb fst].
  - split; [exact Hz|apply firstn_all].
  - split; [|by rewrite take_app_length].
    rewrite length_app, length_replicate.
    pose proof (Nat.mod_upper_bound (length pixels) 16 ltac:(lia)) as Hlt.
    pose proof (Nat.div_mod_eq (length pixels) 16) as Hdm.
    replace (length pixels + (16 - length pixels mod 16))
      with ((length pixels / 16 + 1) * 16) by lia.
    apply Nat.Div0.mod_mul.
Qed.

Lemma blocks_of_lengths (n : nat) :
  ∀ data : bytes, 16 * n ≤ length data → Forall (λ b, length b = 16) (blocks_of n data).
Proof.
  induction n as [|n IH]; intros data Hlen; simpl; constructor.
  - rewrite length_take. lia.
  - apply IH. rewrite length_drop. lia.
Qed.

Lemma length_blocks_of (n : nat) : ∀ data : bytes, length (blocks_of n data) = n.
Proof. induction n as [|n IH]; intros data; simpl; [reflexivity|]. by rewrite IH. Qed.

Lemma concat_blocks_of (n : nat) :
  ∀ data : bytes, concat (blocks_of n data) = take (16 * n) data.
Proof.
  induction n as [|n IH]; intros data.
  - rewrite Nat.mul_0_r. reflexivity.
  - cbn [blocks_of concat]. rewrite IH.
    replace (16 * S n) with (16 + 16 * n) by lia.
    rewrite <- take_take_drop. reflexivity.
Qed.

Lemma blocks_of_concat (bs : list bytes) :
  Forall (λ b, length b = 16) bs → blocks_of (length bs) (concat bs) = bs.
Proof.
  induction 1 as [|b bs Hb _ IH]; simpl; [reflexivity|].
  rewrite take_app_length' by (symmetry; exact Hb).
  rewrite drop_app_length' by (symmetry; exact Hb).
  by rewrite IH.
Qed.

Lemma length_concat_blocks (bs : list bytes) :
  Forall (λ b, length b = 16) bs → length (concat bs) = 16 * length bs.
Proof.
  induction 1 as [|b bs Hb _ IH]; simpl; [reflexivity|].
  rewrite length_app, IH, Hb. lia.
Qed.

(** The slices the hardware loop takes are the blocks ECB takes. *)
Lemma slices_are_blocks (n : nat) :
  ∀ data : bytes,
    (λ i, py_slice data (i * 16) ((i + 1) * 16)) <$> seq 0 n = blocks_of n data.
Proof.
  induction n as [|n IH]; intros data; [reflexivity|].
  simpl seq. rewrite fmap_cons. simpl blocks_of. f_equal.
  rewrite <- IH, <- fmap_S_seq, <- list_fmap_compose.
  apply list_fmap_ext. intros _ i _. simpl. unfold py_slice.
  rewrite drop_drop. f_equal; lia.
Qed.

Lemma bytes_eqb_refl (a : bytes) : bytes_eqb a a = true.
Proof.
  induction a as [|x a IH]; [reflexivity|]. simpl.
  rewrite IH, andb_true_r. by apply Byte.byte_dec_lb.
Qed.

Lemma py_div_cases (a b : Q) :
  py_div a b = Raise ZeroDivisionError ∨ ∃ q, py_div a b = Return q.
Proof. unfold py_div. destruct (Qeq_bool b 0); eauto. Qed.

Lemma hw_timing_report_cases (counts : list Z) (num_blocks data_len : nat)
    (hw_elapsed clock_mhz : Q) :
  let r := hw_timing_report (Some <$> counts) num_blocks data_len hw_elapsed clock_mhz in
  r = Raise ZeroDivisionError ∨ r = Return ().
Proof.
  intros r. assert (r = hw_timing_report (Some <$> counts) num_blocks data_len
                          hw_elapsed clock_mhz) as Hr by reflexivity.
  clearbody r. unfold hw_timing_report in Hr.
  destruct counts as [|c counts]; [by right|].
  rewrite fmap_cons in Hr. cbv iota in Hr. rewrite <- fmap_cons, all_ints_Some in Hr.
  unfold mbind at 1, outcome_bind at 1 in Hr.
  destruct (py_div_cases (inject_Z (sumZ (c :: counts)))
              (inject_Z (Z.of_nat (length (c :: counts))))) as [He|[avg He]];
    rewrite He in Hr; [by left|]. unfold mbind at 1, outcome_bind at 1 in Hr.
  destruct (py_div_cases (avg * inject_Z (Z.of_nat num_blocks)) (clock_mhz * 1000000))
    as [He2|[hw_only He2]]; rewrite He2 in Hr; [by left|].
  unfold mbind at 1, outcome_bind at 1 in Hr.
  destruct (py_div_cases (inject_Z (Z.of_nat data_len)) hw_only) as [He3|[q1 He3]];
    rewrite He3 in Hr; [by left|]. unfold mbind at 1, outcome_bind at 1 in Hr.
  destruct (py_div_cases (hw_elapsed - hw_only) hw_elapsed) as [He4|[q2 He4]];
    rewrite He4 in Hr; [by left|]. by right.
Qed.

Section BulkTest.

Context (respond : string → list bytes → bytes)
        (entropy : nat → Byte.byte) (clock : nat → Q)
        (aes_encrypt_block aes_decrypt_block : bytes → bytes → bytes)
        (can_save : string → bool).
Hypothesis aes_pair : block_cipher_pair aes_encrypt_block aes_decrypt_block.

(** One exchange that the device answers with the reference
    ciphertext: the cycle count and the state the connection is left in
    depend on the connection alone. *)
Lemma encrypt_block_answered (bench : AESBenchmark) (h : nat) (s : Serial)
    (key block : bytes) :
  ser bench = Some h → is_open s = true →
  length key = 16 → length block = 16 →
  (∃ cycle_bytes,
     length cycle_bytes = 4
     ∧ take RX_FRAME_SIZE
         (respond (ser_port s) ((key ++ block ++ FRAME_MARKER) :: written s))
       = aes_encrypt_block key block ++ cycle_bytes) →
  ∃ s' cycle_count,
    is_open s' = true ∧ ser_port s' = ser_port s
    ∧ written s' = (key ++ block ++ FRAME_MARKER) :: written s
    ∧ ∀ w, conns w !! h = Some s →
        ∃ w', encrypt_block respond bench key block w
                = (w', Return (Some (aes_encrypt_block key block), Some cycle_count))
              ∧ conns w' !! h = Some s'
              ∧ rand_ix w' = rand_ix w ∧ clock_ix w' = clock_ix w.
Proof.
  intros Hser Hopen Hk Hb (cyc & Hcyc & Hreply).
  destruct (aes_pair key block Hk Hb) as [Hlen _].
  destruct (decode_response_full (aes_encrypt_block key block ++ cyc))
    as (b0 & b1 & b2 & b3 & _ & Hdec).
  { rewrite length_app. lia. }
  rewrite take_app_length' in Hdec by (symmetry; exact Hlen).
  eexists (mkSerial (ser_port s) (is_open s) _ ((key ++ block ++ FRAME_MARKER) :: written s)),
          (le_uint32 b0 b1 b2 b3).
  split; [exact Hopen|]. split; [reflexivity|]. split; [reflexivity|].
  intros w Hs.
  rewrite (encrypt_block_connected respond w bench h s key block Hser Hs Hopen).
  rewrite (encode_request_ok key block Hk Hb), Hreply, Hdec.
  eexists. split; [reflexivity|].
  unfold round_trip_world. cbn [conns rand_ix clock_ix].
  rewrite list_lookup_insert_eq by (by eapply lookup_lt_Some).
  rewrite Hopen. done.
Qed.

Lemma hw_loop_answered (bench : AESBenchmark) (h : nat)
    (key pixels : bytes) (indices : list nat) :
  ser bench = Some h →
  length key = 16 →
  Forall (λ i, length (py_slice pixels (i * 16) ((i + 1) * 16)) = 16) indices →
  ∀ s : Serial,
    is_open s = true →
    answers_blocks respond aes_encrypt_block (ser_port s) key
      ((λ i, py_slice pixels (i * 16) ((i + 1) * 16)) <$> indices) (written s) →
    ∃ counts : list Z,
      length counts = length indices
      ∧ ∀ (w : World) (acc : bytes) (cycles : list (option Z)),
          conns w !! h = Some s →
          ∃ w',
            for_each (image_block_body respond bench key pixels) indices
                     (acc, cycles, 0) w
            = (w', Return (acc ++ concat ((λ i, aes_encrypt_block key
                                                  (py_slice pixels (i * 16) ((i + 1) * 16)))
                                            <$> indices),
                           cycles ++ (Some <$> counts), 0))
            ∧ rand_ix w' = rand_ix w ∧ clock_ix w' = clock_ix w.
Proof.
  intros Hser Hk Hall.
  induction Hall as [|i indices Hi _ IH]; intros s Hopen Hans.
  - exists []. split; [done|]. intros w acc cycles _.
    exists w. simpl. rewrite !app_nil_r. done.
  - rewrite fmap_cons in Hans. destruct Hans as [Hfirst Hrest].
    destruct (encrypt_block_answered bench h s key _ Hser Hopen Hk Hi Hfirst)
      as (s1 & c & Hopen1 & Hport1 & Hwritten1 & Hcall).
    rewrite <- Hport1, <- Hwritten1 in Hrest.
    destruct (IH s1 Hopen1 Hrest) as (counts & Hcount & Hloop).
    exists (c :: counts). split; [simpl; by rewrite Hcount|].
    intros w acc cycles Hs.
    destruct (Hcall w Hs) as (w1 & E1 & Hs1 & Hrand1 & Hclock1).
    destruct (Hloop w1 (acc ++ aes_encrypt_block key
                                 (py_slice pixels (i * 16) ((i + 1) * 16)))
                (cycles ++ [Some c]) Hs1) as (w' & E & Hrand & Hclock).
    exists w'. split; [|split; congruence].
    cbn [for_each]. unfold mbind at 1, M_bind at 1.
    unfold image_block_body at 1. unfold mbind at 1, M_bind at 1.
    rewrite E1. cbn [fst snd]. unfold mret at 1, M_ret at 1.
    rewrite E, !fmap_cons. cbn [concat]. rewrite <- !app_assoc. reflexivity.
Qed.

(** The data path of the bulk test when every block is answered. *)
Lemma bulk_data_path (bench : AESBenchmark) (h : nat) (s : Serial)
    (key pixels : bytes) :
  ser bench = Some h → is_open s = true →
  length key = 16 →
  let padded := (pad_pixels pixels).1 in
  answers_blocks respond aes_encrypt_block (ser_port s) key
    (blocks_of (length padded / 16) padded) (written s) →
  ∃ hw_ciphertext (counts : list Z),
    length counts = length padded / 16
    ∧ ecb_encrypt aes_encrypt_block key padded = Return hw_ciphertext
    ∧ ecb_decrypt aes_decrypt_block key hw_ciphertext = Return padded
    ∧ take (length pixels) padded = pixels
    ∧ ∀ w, conns w !! h = Some s →
        ∃ w', hw_encrypt_blocks respond bench key padded (length padded / 16) w
                = (w', Return (hw_ciphertext, Some <$> counts, 0))
              ∧ rand_ix w' = rand_ix w ∧ clock_ix w' = clock_ix w.
Proof.
  intros Hser Hopen Hk padded Hans.
  destruct (pad_pixels_spec pixels) as [Hmod Hprefix]. fold padded in Hmod, Hprefix.
  set (n := length padded / 16) in *.
  assert (length padded = 16 * n) as Hlen.
  { pose proof (Nat.div_mod_eq (length padded) 16). subst n. lia. }
  pose proof (blocks_of_lengths n padded ltac:(lia)) as Hblocks.
  assert (Forall (λ i, length (py_slice padded (i * 16) ((i + 1) * 16)) = 16) (seq 0 n))
    as Hslices.
  { apply Forall_forall. intros i Hi. apply elem_of_seq in Hi.
    unfold py_slice. rewrite length_take, length_drop. lia. }
  rewrite <- slices_are_blocks in Hans.
  destruct (hw_loop_answered bench h key padded (seq 0 n) Hser Hk Hslices s Hopen Hans)
    as (counts & Hcounts & Hloop).
  rewrite length_seq in Hcounts.
  set (enc_blocks := aes_encrypt_block key <$> blocks_of n padded) in *.
  assert (Forall (λ b, length b = 16) enc_blocks) as Henc16.
  { subst enc_blocks. apply Forall_fmap. eapply Forall_impl; [exact Hblocks|].
    intros b Hb. simpl. by apply aes_pair. }
  assert (length enc_blocks = n) as Hcount.
  { subst enc_blocks. rewrite length_fmap. apply length_blocks_of. }
  exists (concat enc_blocks), counts.
  split; [exact Hcounts|]. split.
  { unfold ecb_encrypt, ecb_apply. rewrite Hk, Hmod. reflexivity. }
  split; [|split; [done|]].
  - unfold ecb_decrypt, ecb_apply. rewrite Hk.
    rewrite (length_concat_blocks enc_blocks Henc16), Hcount.
    rewrite Nat.mul_comm, Nat.Div0.mod_mul, Nat.div_mul by lia.
    cbn [negb orb Nat.eqb]. f_equal.
    rewrite <- Hcount at 1. rewrite (blocks_of_concat enc_blocks Henc16).
    subst enc_blocks. rewrite <- list_fmap_compose.
    rewrite (list_fmap_ext _ id (blocks_of n padded)).
    + rewrite list_fmap_id, concat_blocks_of, <- Hlen. apply firstn_all.
    + intros i b Hb. simpl. apply aes_pair; [exact Hk|].
      eapply Forall_lookup_1 in Hblocks; [exact Hblocks|exact Hb].
  - intros w Hs. destruct (Hloop w [] [] Hs) as (w' & E & Hrand & Hclock).
    exists w'. split; [|done]. unfold hw_encrypt_blocks. rewrite E, !app_nil_l.
    rewrite (list_fmap_compose (λ i, py_slice padded (i * 16) ((i + 1) * 16))
               (aes_encrypt_block key)).
    rewrite slices_are_blocks. reflexivity.
Qed.

(** The whole of [run_image_test] when every block is answered: its
    outcome is that of the printed figures, then of the unguarded save,
    then the report. *)
Lemma run_image_test_answered (w : World) (bench : AESBenchmark) (h : nat) (s : Serial)
    (pixels : bytes) (clock_mhz : Q) :
  ser bench = Some h → conns w !! h = Some s → is_open s = true →
  let key := map entropy (seq (rand_ix w) 16) in
  let padded := (pad_pixels pixels).1 in
  let n := length padded / 16 in
  let sw_elapsed := (clock (S (clock_ix w)) - clock (clock_ix w))%Q in
  let hw_elapsed := (clock (S (S (S (clock_ix w)))) - clock (S (S (clock_ix w))))%Q in
  ∀ hw_ciphertext (counts : list Z) w',
    hw_encrypt_blocks respond bench key padded n
      (mkWorld (conns w) (io_trace w) (rand_ix w + 16) (S (S (S (clock_ix w)))))
      = (w', Return (hw_ciphertext, Some <$> counts, 0)) →
    clock_ix w' = S (S (S (clock_ix w))) →
    ecb_encrypt aes_encrypt_block key padded = Return hw_ciphertext →
    ecb_decrypt aes_decrypt_block key hw_ciphertext = Return padded →
    (run_image_test respond entropy clock aes_encrypt_block aes_decrypt_block
                    can_save bench pixels clock_mhz w).2
    = (py_div (inject_Z (Z.of_nat (length padded))) sw_elapsed;;
       py_div (inject_Z (Z.of_nat (length padded))) hw_elapsed;;
       hw_timing_report (Some <$> counts) n (length padded) hw_elapsed clock_mhz;;
       (if can_save "decrypted" then Return () else Raise OSError);;
       Return (mkImageReport padded (pad_pixels pixels).2 hw_ciphertext hw_ciphertext 0
                 (save_encrypted_image can_save (length pixels) hw_ciphertext
                                       "hw_encrypted")
                 (save_encrypted_image can_save (length pixels) hw_ciphertext
                                       "sw_encrypted")
                 (Some pixels) true)).
Proof.
  intros Hser Hs Hopen key padded n sw_elapsed hw_elapsed hw counts w' Hloop Hclk Henc Hdec.
  destruct (pad_pixels_spec pixels) as [_ Hprefix]. fold padded in Hprefix.
  unfold run_image_test. fold padded. fold n.
  unfold mbind at 1, M_bind at 1, os_urandom. fold key.
  unfold mbind at 1, M_bind at 1, time_now.
  cbn [rand_ix conns io_trace clock_ix].
  unfold mbind at 1, M_bind at 1, lift_outcome at 1. rewrite Henc.
  unfold mbind at 1, M_bind at 1. cbn [rand_ix conns io_trace clock_ix].
  unfold mbind at 1, M_bind at 1, lift_outcome at 1. fold sw_elapsed.
  unfold mbind at 8, outcome_bind at 1.
  destruct (py_div (inject_Z (Z.of_nat (length padded))) sw_elapsed) as [q1|e1];
    [|reflexivity].
  unfold mbind at 1, M_bind at 1. cbn [rand_ix conns io_trace clock_ix].
  unfold mbind at 1, M_bind at 1. rewrite Hloop.
  unfold mbind at 1, M_bind at 1. rewrite Hclk. fold hw_elapsed.
  unfold mbind at 1, M_bind at 1, lift_outcome at 1.
  unfold mbind at 5, outcome_bind at 1.
  destruct (py_div (inject_Z (Z.of_nat (length padded))) hw_elapsed) as [q2|e2];
    [|reflexivity].
  unfold mbind at 1, M_bind at 1, lift_outcome at 1.
  unfold mbind at 3, outcome_bind at 1.
  destruct (hw_timing_report (Some <$> counts) n (length padded) hw_elapsed clock_mhz)
    as [[]|e3]; [|reflexivity].
  unfold mbind at 1, M_bind at 1, lift_outcome at 1. rewrite Hdec.
  rewrite Hprefix, !bytes_eqb_refl.
  unfold mbind at 1, M_bind at 1, lift_outcome at 1.
  unfold mbind at 1, outcome_bind at 1.
  destruct (can_save "decrypted"); reflexivity.
Qed.

(** C6. A buffer whose length is a multiple of 16 is left as it is: no
    padding byte is added.  For any buffer, when the connection is open,
    the device answers every block of this run with the reference
    ciphertext and the reference operations are a cipher pair, the
    hardware loop fails on no block, its accumulated ciphertext is the
    reference ECB encryption of the padded buffer, and decrypting it with
    the same key and truncating to the original length gives back the
    original buffer.  With the key the run draws and a clock frequency
    in range, the outcome of a whole run of [run_image_test] is then
    settled by its printed figures and its last save alone:
    [ZeroDivisionError] when a division in the figures has a zero
    divisor, else [OSError] when the decrypted image cannot be written,
    else a report of a match that holds the recovered original. *)
Theorem bulk_round_trip (w : World) (bench : AESBenchmark) (h : nat) (s : Serial)
    (key pixels : bytes) :
  ser bench = Some h → conns w !! h = Some s → is_open s = true →
  length key = 16 →
  let padded := (pad_pixels pixels).1 in
  let n := length padded / 16 in
  answers_blocks respond aes_encrypt_block (ser_port s) key (blocks_of n padded)
                 (written s) →
  (length pixels mod 16 = 0 → pad_pixels pixels = (pixels, 0))
  ∧ ∃ w' hw_ciphertext counts decrypted,
      hw_encrypt_blocks respond bench key padded n w
        = (w', Return (hw_ciphertext, Some <$> counts, 0))
      ∧ length counts = n
      ∧ ecb_encrypt aes_encrypt_block key padded = Return hw_ciphertext
      ∧ ecb_decrypt aes_decrypt_block key hw_ciphertext = Return decrypted
      ∧ take (length pixels) decrypted = pixels
      ∧ (key = map entropy (seq (rand_ix w) 16) →
         ∀ clock_mhz,
           clock_in_range clock_mhz →
           let sw_elapsed := (clock (S (clock_ix w)) - clock (clock_ix w))%Q in
           let hw_elapsed :=
             (clock (S (S (S (clock_ix w)))) - clock (S (S (clock_ix w))))%Q in
           (run_image_test respond entropy clock aes_encrypt_block aes_decrypt_block
                           can_save bench pixels clock_mhz w).2
           = (py_div (inject_Z (Z.of_nat (length padded))) sw_elapsed;;
              py_div (inject_Z (Z.of_nat (length padded))) hw_elapsed;;
              hw_timing_report (Some <$> counts) n (length padded) hw_elapsed clock_mhz;;
              (if can_save "decrypted" then Return () else Raise OSError);;
              Return (mkImageReport padded (pad_pixels pixels).2
                        hw_ciphertext hw_ciphertext 0
                        (save_encrypted_image can_save (length pixels) hw_ciphertext
                                              "hw_encrypted")
                        (save_encrypted_image can_save (length pixels) hw_ciphertext
                                              "sw_encrypted")
                        (Some pixels) true))).
Proof.
  intros Hser Hs Hopen Hk padded n Hans.
  split; [apply pad_pixels_aligned|].
  destruct (bulk_data_path bench h s key pixels Hser Hopen Hk Hans)
    as (hw & counts & Hcounts & Henc & Hdec & Hprefix & Hloop).
  fold padded in Hcounts, Henc, Hdec, Hprefix, Hloop. fold n in Hcounts, Hloop.
  destruct (Hloop w Hs) as (w' & E & _).
  exists w', hw, counts, padded. split_and!; try done.
  intros Hkey clock_mhz _ sw_elapsed hw_elapsed.
  destruct (Hloop (mkWorld (conns w) (io_trace w) (rand_ix w + 16)
                           (S (S (S (clock_ix w))))) Hs)
    as (w5 & E5 & _ & Hclk5).
  subst key.
  exact (run_image_test_answered w bench h s pixels clock_mhz Hser Hs Hopen
           hw counts w5 E5 Hclk5 Henc Hdec).
Qed.

End BulkTest.

Lemma toy_block_pair : block_cipher_pair toy_block toy_block.
Proof.
  intros key block _ Hb. unfold toy_block.
  split; [by rewrite length_rev|apply rev_involutive].
Qed.

Lemma reply_toy_reference (device : string) : reference_device reply_toy toy_block device.
Proof.
  intros frames key block Hk Hb. exists [Byte.x32; Byte.x00; Byte.x00; Byte.x00].
  split; [reflexivity|]. unfold reply_toy.
  rewrite (take_app_length' key) by (symmetry; exact Hk).
  rewrite (drop_app_length' key) by (symmetry; exact Hk).
  rewrite (take_app_length' block) by (symmetry; exact Hb).
  apply firstn_all2. unfold toy_block, RX_FRAME_SIZE, BLOCK_SIZE.
  rewrite length_app, length_rev, Hb. simpl. lia.
Qed.

(** A device that is faithful on every frame answers every run. *)
Lemma reference_answers_blocks (respond : string → list bytes → bytes)
    (enc : bytes → bytes → bytes) (port : string) (key : bytes) (blocks : list bytes) :
  reference_device respond enc port →
  length key = 16 → Forall (λ b, length b = 16) blocks →
  ∀ history, answers_blocks respond enc port key blocks history.
Proof.
  intros Hdev Hk Hall. induction Hall as [|b blocks Hb _ IH]; intros history; simpl.
  - done.
  - split; [by apply Hdev|apply IH].
Qed.

Lemma bulk_round_trip_witness :
  pad_pixels NIST_KEY = (NIST_KEY, 0)
  ∧ ∃ report,
      (run_image_test reply_toy entropy_zero clock_3s toy_block toy_block (λ _, true)
                      bench_com3 twenty_pixels 100 world_open).2 = Return report
      ∧ ir_result report = true
      ∧ ir_errors report = 0
      ∧ ir_pad_len report = 12
      ∧ ir_saved_decrypted report = Some twenty_pixels.
Proof.
  pose (key := map entropy_zero (seq 0 16)).
  pose (s := mkSerial "COM3" true [] []).
  assert (∀ pixels,
            answers_blocks reply_toy toy_block (ser_port s) key
              (blocks_of (length (pad_pixels pixels).1 / 16) (pad_pixels pixels).1)
              (written s)) as Hans.
  { intros pixels.
    apply reference_answers_blocks; [apply reply_toy_reference|reflexivity|].
    apply blocks_of_lengths.
    destruct (pad_pixels_spec pixels) as [Hmod _].
    pose proof (Nat.div_mod_eq (length (pad_pixels pixels).1) 16). lia. }
  split.
  - apply (bulk_round_trip reply_toy entropy_zero clock_3s toy_block toy_block
             (λ _, true) toy_block_pair world_open bench_com3 0 s key NIST_KEY);
      try reflexivity.
    apply Hans.
  - destruct (bulk_round_trip reply_toy entropy_zero clock_3s toy_block toy_block
                (λ _, true) toy_block_pair world_open bench_com3 0 s key twenty_pixels
                eq_refl eq_refl eq_refl eq_refl (Hans twenty_pixels))
      as (_ & w' & hw & counts & decrypted & Hloop & Hn & Henc & _ & _ & Hrun).
    specialize (Hrun eq_refl 100%Q ltac:(split; by vm_compute)).
    cbv zeta in Hrun. rewrite Hrun.
    injection Henc as <-.
    destruct counts as [|c1 [|c2 [|c3 counts]]]; try discriminate Hn.
    vm_compute in Hloop. injection Hloop as _ <- <-.
    vm_compute. eexists. split; [reflexivity|]. done.
Defined.

(** * Further properties of the script *)

(** ** World relations kept by every step *)

Section Preservation.

Context (R : World → World → Prop) `{!PreOrder R}.

Lemma preserves_ret {A : Type} (a : A) : preserves R (mret a).
Proof. intros w. simpl. reflexivity. Qed.

Lemma preserves_lift {A : Type} (o : outcome A) : preserves R (lift_outcome o).
Proof. intros w. simpl. reflexivity. Qed.

Lemma preserves_bind {A B : Type} (m : M A) (k : A → M B) :
  preserves R m → (∀ a, preserves R (k a)) → preserves R (m ≫= k).
Proof.
  intros Hm Hk w. unfold mbind, M_bind.
  specialize (Hm w). destruct (m w) as [w' [a|e]]; simpl in *; [|exact Hm].
  etrans; [exact Hm|apply Hk].
Qed.

Lemma preserves_try_except {A : Type} (m : M A) (handler : exn → M A) :
  preserves R m → (∀ e, preserves R (handler e)) → preserves R (try_except m handler).
Proof.
  intros Hm Hh w. unfold try_except.
  specialize (Hm w). destruct (m w) as [w' [a|e]]; simpl in *; [exact Hm|].
  etrans; [exact Hm|apply Hh].
Qed.

Lemma preserves_try_finally {A : Type} (m : M A) (cleanup : M unit) :
  preserves R m → preserves R cleanup → preserves R (try_finally m cleanup).
Proof.
  intros Hm Hc w. unfold try_finally.
  specialize (Hm w). destruct (m w) as [w' o]. simpl in Hm.
  specialize (Hc w'). destruct (cleanup w') as [w'' [[]|e]]; simpl in *;
    (etrans; [exact Hm|exact Hc]).
Qed.

Lemma preserves_for_each {A S : Type} (body : S → A → M S) (l : list A) :
  (∀ acc x, preserves R (body acc x)) → ∀ acc, preserves R (for_each body l acc).
Proof.
  intros Hbody. induction l as [|x l IH]; intros acc; simpl.
  - apply preserves_ret.
  - apply preserves_bind; [apply Hbody|exact IH].
Qed.

End Preservation.

Ltac preserves_step :=
  first
    [ progress intros
    | match goal with |- PreOrder _ => solve [apply _] end
    | apply preserves_ret
    | apply preserves_lift
    | apply preserves_for_each
    | apply preserves_bind
    | match goal with
      | H : ∀ key plaintext, preserves _ (encrypt_block _ _ key plaintext) |- _ => apply H
      | H : ∀ n, preserves _ (os_urandom _ n) |- _ => apply H
      | H : preserves _ (time_now _) |- _ => apply H
      | |- preserves _ (match ?x with _ => _ end) => destruct x
      end ].

Section HarnessPreservation.

Context (R : World → World → Prop) `{!PreOrder R}.
Context (respond : string → list bytes → bytes) (entropy : nat → Byte.byte)
        (clock : nat → Q) (aes_encrypt_block aes_decrypt_block : bytes → bytes → bytes)
        (can_save : string → bool) (bench : AESBenchmark).
Hypothesis R_urandom : ∀ n, preserves R (os_urandom entropy n).
Hypothesis R_time : preserves R (time_now clock).
Hypothesis R_encrypt :
  ∀ key plaintext, preserves R (encrypt_block respond bench key plaintext).

Lemma preserves_validate_with_nist : preserves R (validate_with_nist respond bench).
Proof. unfold validate_with_nist. repeat preserves_step. Qed.

Lemma preserves_run_nist_test_vector : preserves R (run_nist_test_vector respond bench).
Proof. unfold run_nist_test_vector. repeat preserves_step. Qed.

Lemma preserves_run_random_tests (num_tests : Z) :
  preserves R (run_random_tests respond entropy aes_encrypt_block bench num_tests).
Proof. unfold run_random_tests, random_test_body. repeat preserves_step. Qed.

Lemma preserves_throughput_loop (fuel : nat) (key : bytes) (start_time duration_sec : Q) :
  ∀ blocks total,
    preserves R (throughput_loop respond entropy clock fuel bench key
                                 start_time duration_sec blocks total).
Proof.
  induction fuel as [|fuel IH]; intros blocks total; simpl; repeat preserves_step;
    apply IH.
Qed.

Lemma preserves_run_throughput_test (fuel : nat) (duration_sec : Q) :
  preserves R (run_throughput_test respond entropy clock fuel bench duration_sec).
Proof.
  unfold run_throughput_test. repeat preserves_step; apply preserves_throughput_loop.
Qed.

Lemma preserves_run_latency_test (num_samples : Z) :
  preserves R (run_latency_test respond entropy clock bench num_samples).
Proof. unfold run_latency_test, latency_body. repeat preserves_step. Qed.

Lemma preserves_hw_encrypt_blocks (key pixels : bytes) (num_blocks : nat) :
  preserves R (hw_encrypt_blocks respond bench key pixels num_blocks).
Proof. unfold hw_encrypt_blocks, image_block_body. repeat preserves_step. Qed.

Lemma preserves_run_image_test (pixels : bytes) (clock_mhz : Q) :
  preserves R (run_image_test respond entropy clock aes_encrypt_block
                              aes_decrypt_block can_save bench pixels clock_mhz).
Proof.
  unfold run_image_test, hw_encrypt_blocks, image_block_body. repeat preserves_step.
Qed.

End HarnessPreservation.

(** ** Isolation and the shape of the trace *)

Global Instance conns_outside_preorder (keep : option nat) : PreOrder (conns_outside keep).
Proof.
  split.
  - intros w. split; done.
  - intros w1 w2 w3 [Hlen12 H12] [Hlen23 H23]. split; [congruence|].
    intros h Hh. rewrite (H23 h Hh). by apply H12.
Qed.

Lemma round_trips_app (h : nat) (evs1 evs2 : list io_event) :
  round_trips h evs1 → round_trips h evs2 → round_trips h (evs1 ++ evs2).
Proof.
  induction 1 as [|frame got evs1 _ IH]; intros H2; simpl; [exact H2|].
  constructor. by apply IH.
Qed.

Global Instance only_round_trips_preorder (keep : option nat) :
  PreOrder (only_round_trips keep).
Proof.
  split.
  - intros w. exists []. rewrite app_nil_r. split; [done|].
    destruct keep; [constructor|done].
  - intros w1 w2 w3 (evs1 & E1 & H1) (evs2 & E2 & H2).
    exists (evs1 ++ evs2). rewrite E2, E1, app_assoc. split; [done|].
    destruct keep as [h|]; [by apply round_trips_app|by subst].
Qed.

Lemma encrypt_block_conns_outside (respond : string → list bytes → bytes)
    (self : AESBenchmark) (key plaintext : bytes) :
  preserves (conns_outside (ser self)) (encrypt_block respond self key plaintext).
Proof.
  intros w.
  destruct (encrypt_block_cases respond w self key plaintext)
    as [[_ ->] | [(_ & _ & msg & ->) | (_ & _ & _ & h & s & Hser & Hs & _ & Heq)]];
    [reflexivity|reflexivity|].
  cbv zeta in Heq. rewrite Heq. simpl. unfold round_trip_world. split; simpl.
  - apply length_insert.
  - intros h' Hne. apply list_lookup_insert_ne. congruence.
Qed.

Lemma encrypt_block_only_round_trips (respond : string → list bytes → bytes)
    (self : AESBenchmark) (key plaintext : bytes) :
  preserves (only_round_trips (ser self)) (encrypt_block respond self key plaintext).
Proof.
  intros w.
  destruct (encrypt_block_cases respond w self key plaintext)
    as [[_ ->] | [(_ & _ & msg & ->) | (_ & _ & _ & h & s & Hser & Hs & _ & Heq)]];
    [reflexivity|reflexivity|].
  cbv zeta in Heq. rewrite Heq, Hser. simpl. eexists. split; [reflexivity|].
  repeat constructor.
Qed.

Lemma os_urandom_same_store (entropy : nat → Byte.byte) (n : nat) (w : World) :
  conns (os_urandom entropy n w).1 = conns w
  ∧ io_trace (os_urandom entropy n w).1 = io_trace w.
Proof. done. Qed.

Lemma time_now_same_store (clock : nat → Q) (w : World) :
  conns (time_now clock w).1 = conns w ∧ io_trace (time_now clock w).1 = io_trace w.
Proof. done. Qed.

Lemma same_store_conns_outside (keep : option nat) (w w' : World) :
  conns w' = conns w → conns_outside keep w w'.
Proof. intros E. split; by rewrite E. Qed.

Lemma same_trace_only_round_trips (keep : option nat) (w w' : World) :
  io_trace w' = io_trace w → only_round_trips keep w w'.
Proof.
  intros E. exists []. rewrite E, app_nil_r. split; [done|].
  destruct keep; [constructor|done].
Qed.

Ltac use_preserves lemma :=
  let H := fresh in
  pose proof lemma as H; unfold preserves in H; eapply H; eauto; try apply _.

(** X1. No pipelining.  Whatever the device does, each harness function
    extends the trace only by complete exchanges on the connection of its
    benchmark object: clear the input buffer, one write, one flush, one
    read of 20 bytes, then the next exchange.  No second request is
    written before the read of the first, and no other transport
    operation occurs. *)
Theorem harness_only_round_trips (respond : string → list bytes → bytes)
    (entropy : nat → Byte.byte) (clock : nat → Q)
    (aes_encrypt_block aes_decrypt_block : bytes → bytes → bytes)
    (can_save : string → bool) (bench : AESBenchmark) (w : World) :
  (∀ num_tests,
     only_round_trips (ser bench) w
       (run_random_tests respond entropy aes_encrypt_block bench num_tests w).1)
  ∧ (∀ fuel duration_sec,
       only_round_trips (ser bench) w
         (run_throughput_test respond entropy clock fuel bench duration_sec w).1)
  ∧ (∀ num_samples,
       only_round_trips (ser bench) w
         (run_latency_test respond entropy clock bench num_samples w).1)
  ∧ (∀ pixels clock_mhz,
       only_round_trips (ser bench) w
         (run_image_test respond entropy clock aes_encrypt_block aes_decrypt_block
                         can_save bench pixels clock_mhz w).1).
Proof.
  assert (∀ n, preserves (only_round_trips (ser bench)) (os_urandom entropy n)) as Hu
    by (intros n w0; by apply same_trace_only_round_trips).
  assert (preserves (only_round_trips (ser bench)) (time_now clock)) as Ht
    by (intros w0; by apply same_trace_only_round_trips).
  pose proof (encrypt_block_only_round_trips respond bench) as He.
  split_and!; intros.
  - use_preserves @preserves_run_random_tests.
  - use_preserves @preserves_run_throughput_test.
  - use_preserves @preserves_run_latency_test.
  - use_preserves @preserves_run_image_test.
Qed.

(** X2. Isolation.  Each harness function leaves the store with the same
    connections, and every connection other than the one of its benchmark
    object exactly as it was. *)
Theorem harness_conns_outside (respond : string → list bytes → bytes)
    (entropy : nat → Byte.byte) (clock : nat → Q)
    (aes_encrypt_block aes_decrypt_block : bytes → bytes → bytes)
    (can_save : string → bool) (bench : AESBenchmark) (w : World) :
  (∀ num_tests,
     conns_outside (ser bench) w
       (run_random_tests respond entropy aes_encrypt_block bench num_tests w).1)
  ∧ (∀ fuel duration_sec,
       conns_outside (ser bench) w
         (run_throughput_test respond entropy clock fuel bench duration_sec w).1)
  ∧ (∀ num_samples,
       conns_outside (ser bench) w
         (run_latency_test respond entropy clock bench num_samples w).1)
  ∧ (∀ pixels clock_mhz,
       conns_outside (ser bench) w
         (run_image_test respond entropy clock aes_encrypt_block aes_decrypt_block
                         can_save bench pixels clock_mhz w).1).
Proof.
  assert (∀ n, preserves (conns_outside (ser bench)) (os_urandom entropy n)) as Hu
    by (intros n w0; by apply same_store_conns_outside).
  assert (preserves (conns_outside (ser bench)) (time_now clock)) as Ht
    by (intros w0; by apply same_store_conns_outside).
  pose proof (encrypt_block_conns_outside respond bench) as He.
  split_and!; intros.
  - use_preserves @preserves_run_random_tests.
  - use_preserves @preserves_run_throughput_test.
  - use_preserves @preserves_run_latency_test.
  - use_preserves @preserves_run_image_test.
Qed.

(** ** The protocol engine, continued *)

Lemma bytes_eqb_eq (a b : bytes) : bytes_eqb a b = true ↔ a = b.
Proof.
  split; [|intros ->; apply bytes_eqb_refl].
  revert b. induction a as [|x a IH]; intros [|y b]; simpl; try done.
  intros [Hxy Hab]%andb_true_iff.
  apply Byte.byte_dec_bl in Hxy. apply IH in Hab. congruence.
Qed.

(** X3. Stale input never reaches a response.  Bytes left in the receive
    buffer by an earlier exchange have no effect on a call of
    [encrypt_block]: its outcome is the same as with an empty buffer, and
    so is the store it leaves whenever the connection is open. *)
Theorem encrypt_block_ignores_stale_input (respond : string → list bytes → bytes)
    (w : World) (self : AESBenchmark) (h : nat) (s : Serial)
    (key plaintext stale : bytes) :
  ser self = Some h → conns w !! h = Some s →
  let with_stale :=
    set_conns (λ cs, <[h := mkSerial (ser_port s) (is_open s) stale (written s)]> cs) w in
  (encrypt_block respond self key plaintext with_stale).2
  = (encrypt_block respond self key plaintext w).2
  ∧ (is_open s = true → length key = 16 → length plaintext = 16 →
     encrypt_block respond self key plaintext with_stale
     = encrypt_block respond self key plaintext w).
Proof.
  intros Hser Hs with_stale.
  pose proof (lookup_lt_Some _ _ _ Hs) as Hlt.
  assert (conns with_stale !! h
          = Some (mkSerial (ser_port s) (is_open s) stale (written s))) as Hs'
    by (by apply list_lookup_insert_eq).
  destruct (is_open s) eqn:Hopen.
  - rewrite (encrypt_block_connected respond w self h s key plaintext Hser Hs Hopen).
    rewrite (encrypt_block_connected respond with_stale self h _ key plaintext
               Hser Hs' eq_refl).
    destruct (encode_request key plaintext) as [frame|e] eqn:Henc; simpl.
    + split; [done|]. intros _ _ _. f_equal.
      unfold round_trip_world, with_stale. simpl.
      rewrite list_insert_insert_eq, Hopen. reflexivity.
    + split; [done|]. intros _ Hk Hp.
      rewrite (encode_request_ok key plaintext Hk Hp) in Henc. discriminate.
  - rewrite !encrypt_block_not_connected; [done| |].
    + unfold connected. by rewrite Hser, Hs, Hopen.
    + unfold connected. by rewrite Hser, Hs'.
Qed.

Lemma encrypt_block_ignores_stale_input_witness :
  encrypt_block reply_nist bench_com3 NIST_KEY NIST_PT
    (mkWorld [mkSerial "COM3" true (replicate 5 Byte.xaa) []] [] 0 0)
  = encrypt_block reply_nist bench_com3 NIST_KEY NIST_PT world_open.
Proof.
  apply (encrypt_block_ignores_stale_input reply_nist world_open bench_com3 0
           (mkSerial "COM3" true [] []) NIST_KEY NIST_PT (replicate 5 Byte.xaa));
    reflexivity.
Defined.

Lemma disconnect_cases (w : World) (self : AESBenchmark) :
  (connected w self = false ∧ disconnect self w = (w, Return ()))
  ∨ (∃ h s,
       ser self = Some h ∧ conns w !! h = Some s ∧ is_open s = true
       ∧ disconnect self w
         = (mkWorld (<[h := mkSerial (ser_port s) false (in_buffer s) (written s)]>
                       (conns w))
                    (io_trace w ++ [IoClose h]) (rand_ix w) (clock_ix w),
            Return ())).
Proof.
  unfold connected, disconnect.
  destruct (ser self) as [h|] eqn:Hser; [|by left].
  unfold mbind, M_bind, serial_is_open.
  destruct (conns w !! h) as [s|] eqn:Hs; [|by left].
  destruct (is_open s) eqn:Hopen; [|by left].
  right. exists h, s. split_and!; try done.
  unfold serial_close, update_conn, emit, modify, mbind, M_bind, set_conns, log_io.
  simpl. by rewrite Hs.
Qed.

(** X4. [disconnect] always returns; afterwards the object is not
    connected, every other connection is as it was, a round trip returns
    [(None, None)] without touching the transport, and a second
    [disconnect] does nothing at all. *)
Theorem disconnect_closes (respond : string → list bytes → bytes)
    (w : World) (self : AESBenchmark) (key plaintext : bytes) :
  let w' := (disconnect self w).1 in
  (disconnect self w).2 = Return ()
  ∧ connected w' self = false
  ∧ conns_outside (ser self) w w'
  ∧ encrypt_block respond self key plaintext w' = (w', Return (None, None))
  ∧ disconnect self w' = (w', Return ()).
Proof.
  cbv zeta.
  assert (connected (disconnect self w).1 self = false
          ∧ (disconnect self w).2 = Return ()
          ∧ conns_outside (ser self) w (disconnect self w).1) as (Hclosed & Hret & Hout).
  { destruct (disconnect_cases w self) as [[Hconn ->] | (h & s & Hser & Hs & Hopen & ->)].
    - split_and!; [done|done|reflexivity].
    - pose proof (lookup_lt_Some _ _ _ Hs) as Hlt. split_and!; [|done|].
      + unfold connected. rewrite Hser. simpl. by rewrite list_lookup_insert_eq.
      + split; simpl; [apply length_insert|].
        intros h' Hne. apply list_lookup_insert_ne. congruence. }
  split_and!; try done.
  - by apply encrypt_block_not_connected.
  - destruct (disconnect_cases (disconnect self w).1 self)
      as [[_ E] | (h & s & Hser & Hs & Hopen & _)]; [exact E|].
    unfold connected in Hclosed. rewrite Hser, Hs, Hopen in Hclosed. discriminate.
Qed.

Lemma connect_cases (can_open : string → bool) (boot_noise : string → bytes)
    (w : World) (self : AESBenchmark) :
  (¬ settings_accepted (baudrate self) (timeout self)
   ∧ ∃ msg, connect can_open boot_noise self w = (w, Raise (ValueError msg)))
  ∨ (settings_accepted (baudrate self) (timeout self)
     ∧ can_open (port self) = false
     ∧ ∃ w', connect can_open boot_noise self w = (w', Return (self, false))
             ∧ conns w' = conns w
             ∧ io_trace w' = io_trace w ++ [IoOpenFailed (port self)])
  ∨ (settings_accepted (baudrate self) (timeout self)
     ∧ can_open (port self) = true
     ∧ ∃ w', connect can_open boot_noise self w
             = (w', Return (mkBench (port self) (baudrate self) (timeout self)
                                    (Some (length (conns w))), true))
             ∧ conns w' = conns w ++ [mkSerial (port self) true [] []]
             ∧ io_trace w' = io_trace w ++ [IoOpen (length (conns w)) (port self);
                                            IoSleep; IoResetInput (length (conns w))]).
Proof.
  rewrite !settings_accepted_checks.
  unfold connect, serial_open, mbind, M_bind.
  destruct (baudrate self <? 0)%Z; [left; split; [intros []; done|by eexists]|].
  destruct (Qltb (timeout self) 0); [left; split; [intros []; done|by eexists]|].
  right.
  destruct (can_open (port self)) eqn:Hopen; [right|left]; (split; [done|]);
    (split; [done|]); eexists; simpl.
  - unfold reset_input_buffer, update_conn, emit, modify, mbind, M_bind, mret, M_ret,
      set_conns, log_io. simpl.
    rewrite list_lookup_middle by reflexivity. simpl.
    split; [reflexivity|]. split.
    + rewrite insert_app_r_alt by lia. rewrite Nat.sub_diag. reflexivity.
    + rewrite <- !app_assoc. reflexivity.
  - split; [reflexivity|]. split; reflexivity.
Qed.

(** X5. [connect] raises [ValueError], and touches nothing, exactly when
    the baud rate or the timeout of the object is negative: the
    constructor refuses them and only [SerialException] is caught.
    Otherwise a failed [connect] returns False and leaves the object and
    the store as they were.  After a successful one the object holds a
    fresh open connection to its port, and whatever bytes were waiting on
    that port when it was opened, the first round trip decodes exactly
    what the device sends in reply to the first frame. *)
Theorem connect_then_encrypt (can_open : string → bool) (boot_noise : string → bytes)
    (respond : string → list bytes → bytes)
    (w : World) (self : AESBenchmark) (key plaintext : bytes) :
  let r := connect can_open boot_noise self w in
  (¬ settings_accepted (baudrate self) (timeout self) →
   ∃ msg, r = (w, Raise (ValueError msg)))
  ∧ (settings_accepted (baudrate self) (timeout self) →
     can_open (port self) = false →
     r.2 = Return (self, false) ∧ conns r.1 = conns w)
  ∧ (settings_accepted (baudrate self) (timeout self) →
     can_open (port self) = true →
     ∃ bench',
       r.2 = Return (bench', true)
       ∧ port bench' = port self
       ∧ ser bench' = Some (length (conns w))
       ∧ connected r.1 bench' = true
       ∧ conns r.1 = conns w ++ [mkSerial (port self) true [] []]
       ∧ (length key = 16 → length plaintext = 16 →
          (encrypt_block respond bench' key plaintext r.1).2
          = decode_response
              (take RX_FRAME_SIZE
                 (respond (port self) [key ++ plaintext ++ FRAME_MARKER])))).
Proof.
  cbv zeta.
  destruct (connect_cases can_open boot_noise w self)
    as [(Hbad & msg & ->) | [(Hset & Hno & w' & -> & Hc & _)
                            | (Hset & Hyes & w' & -> & Hc & _)]]; simpl.
  - split; [by exists msg|]. split; intros Hset; by destruct Hbad.
  - split; [intros Hbad; by destruct Hbad|]. split; [done|].
    intros _ Habs. congruence.
  - split; [intros Hbad; by destruct Hbad|]. split; [intros _ Habs; congruence|].
    intros _ _.
    eexists. split; [reflexivity|]. simpl. split; [done|]. split; [done|].
    assert (conns w' !! length (conns w) = Some (mkSerial (port self) true [] []))
      as Hs by (rewrite Hc; by apply list_lookup_middle).
    split; [unfold connected; simpl; by rewrite Hs|].
    split; [exact Hc|].
    intros Hk Hp.
    erewrite encrypt_block_connected; [|reflexivity|exact Hs|reflexivity].
    rewrite (encode_request_ok key plaintext Hk Hp). reflexivity.
Qed.

Lemma connect_then_encrypt_witness :
  (∃ msg, connect three_can_open three_noise (new_bench "COM2" (-1) 2) world_empty
          = (world_empty, Raise (ValueError msg)))
  ∧ (encrypt_block three_respond (mkBench "COM2" 115200 2 (Some 0)) NIST_KEY NIST_PT
       (connect three_can_open three_noise (new_bench "COM2" 115200 2) world_empty).1).2
    = Return (Some NIST_CT, Some 42%Z).
Proof.
  split.
  - destruct (connect_then_encrypt three_can_open three_noise three_respond world_empty
                (new_bench "COM2" (-1) 2) NIST_KEY NIST_PT) as (Hbad & _).
    apply Hbad. intros [Hb _]. simpl in Hb. lia.
  - destruct (connect_then_encrypt three_can_open three_noise three_respond world_empty
                (new_bench "COM2" 115200 2) NIST_KEY NIST_PT) as (_ & _ & Hok).
    destruct (Hok ltac:(split; [simpl; lia|discriminate]) eq_refl)
      as (bench' & Hret & _ & _ & _ & _ & Hfirst).
    vm_compute in Hret. simplify_eq. rewrite (Hfirst eq_refl eq_refl). reflexivity.
Defined.

(** The known-vector exchange on any benchmark object. *)
Lemma validate_with_nist_cases (respond : string → list bytes → bytes)
    (w : World) (self : AESBenchmark) :
  (connected w self = false
   ∧ validate_with_nist respond self w = (w, Return false))
  ∨ (∃ h s,
       ser self = Some h ∧ conns w !! h = Some s ∧ is_open s = true
       ∧ let got := take RX_FRAME_SIZE (respond (ser_port s) (nist_frame :: written s)) in
         validate_with_nist respond self w
         = (round_trip_world respond h s nist_frame w,
            Return ((length got =? 20) && bytes_eqb (take 16 got) NIST_CT))).
Proof.
  unfold validate_with_nist, mbind, M_bind.
  destruct (connected w self) eqn:Hconn.
  - right. unfold connected in Hconn.
    destruct (ser self) as [h|] eqn:Hser; [|done].
    destruct (conns w !! h) as [s|] eqn:Hs; [|done].
    exists h, s. split_and!; try done. cbv zeta.
    rewrite (encrypt_block_connected respond w self h s NIST_KEY NIST_PT Hser Hs Hconn).
    change (encode_request NIST_KEY NIST_PT) with (Return nist_frame). cbv iota.
    destruct (decode_response_cases
                (take RX_FRAME_SIZE (respond (ser_port s) (nist_frame :: written s))))
      as [[Hne ->] | (Hlen & b0 & b1 & b2 & b3 & _ & ->)]; simpl; f_equal; f_equal.
    + apply Nat.eqb_neq in Hne. by rewrite Hne.
    + by rewrite Hlen.
  - left. split; [done|].
    by rewrite (encrypt_block_not_connected respond w self NIST_KEY NIST_PT Hconn).
Qed.

(** X6. The known-vector checks.  [run_nist_test_vector] and
    [validate_with_nist] do the same thing: same exchange, same verdict.
    Neither raises.  The verdict is True exactly when the connection is
    open and the read brings 20 bytes whose first 16 are the expected
    ciphertext; the cycle count plays no part. *)
Theorem known_vector_verdict (respond : string → list bytes → bytes)
    (w : World) (bench : AESBenchmark) :
  run_nist_test_vector respond bench w = validate_with_nist respond bench w
  ∧ ∃ w' ok,
      validate_with_nist respond bench w = (w', Return ok)
      ∧ (ok = true ↔
         ∃ h s cycle_bytes,
           ser bench = Some h ∧ conns w !! h = Some s ∧ is_open s = true
           ∧ length cycle_bytes = 4
           ∧ take RX_FRAME_SIZE (respond (ser_port s) (nist_frame :: written s))
             = NIST_CT ++ cycle_bytes).
Proof.
  split.
  - unfold run_nist_test_vector, validate_with_nist, mbind, M_bind. cbv zeta.
    destruct (encrypt_block respond bench NIST_KEY NIST_PT w) as [w' [[[ct|] c]|e]];
      simpl; try done.
    by destruct (bytes_eqb ct NIST_CT).
  - destruct (validate_with_nist_cases respond w bench)
      as [[Hconn ->] | (h & s & Hser & Hs & Hopen & Heq)].
    + eexists _, _. split; [reflexivity|]. split; [done|].
      intros (h & s & cyc & Hser & Hs & Hopen & _).
      unfold connected in Hconn. rewrite Hser, Hs, Hopen in Hconn. done.
    + cbv zeta in Heq. rewrite Heq. eexists _, _. split; [reflexivity|].
      rewrite andb_true_iff, Nat.eqb_eq, bytes_eqb_eq. split.
      * intros [Hlen Htake]. exists h, s, (drop 16 (take RX_FRAME_SIZE
          (respond (ser_port s) (nist_frame :: written s)))).
        split_and!; try done.
        -- rewrite length_drop, Hlen. done.
        -- rewrite <- Htake. symmetry. apply take_drop.
      * intros (h' & s' & cyc & Hser' & Hs' & _ & Hcyc & Hgot).
        simplify_eq. rewrite Hgot. split.
        -- rewrite length_app, Hcyc. done.
        -- by rewrite take_app_length'.
Qed.

Lemma known_vector_verdict_aux (respond : string → list bytes → bytes)
    (w : World) (bench : AESBenchmark) (h : nat) (s : Serial) :
  ser bench = Some h → conns w !! h = Some s → is_open s = true →
  run_nist_test_vector respond bench w = validate_with_nist respond bench w
  ∧ (validate_with_nist respond bench w).2
    = Return (match decode_response
                      (take RX_FRAME_SIZE (respond (ser_port s) (nist_frame :: written s)))
              with
              | Return (Some ciphertext, _) => bytes_eqb ciphertext NIST_CT
              | _ => false
              end).
Proof.
  intros Hser Hs Hopen. split.
  - unfold run_nist_test_vector, validate_with_nist, mbind, M_bind. cbv zeta.
    destruct (encrypt_block respond bench NIST_KEY NIST_PT w) as [w' [[[ct|] c]|e]];
      simpl; try done.
    by destruct (bytes_eqb ct NIST_CT).
  - unfold validate_with_nist, mbind, M_bind.
    rewrite (encrypt_block_connected respond w bench h s NIST_KEY NIST_PT Hser Hs Hopen).
    change (encode_request NIST_KEY NIST_PT) with (Return nist_frame). cbv iota.
    destruct (decode_response_cases
                (take RX_FRAME_SIZE (respond (ser_port s) (nist_frame :: written s))))
      as [[_ ->] | (_ & b0 & b1 & b2 & b3 & _ & ->)]; reflexivity.
Qed.

(** ** Discovery, continued *)

Section DiscoveryMore.

Context (can_open : string → bool) (boot_noise : string → bytes)
        (respond : string → list bytes → bytes).

Lemma auto_detect_scan_cons (baud : Z) (tmo : Q) (device description : string)
    (ports : list (string * string)) (w : World) :
  auto_detect_scan can_open boot_noise respond baud tmo ((device, description) :: ports) w
  = match connect can_open boot_noise (new_bench device baud tmo) w with
    | (w1, Return r) =>
        if negb r.2 then auto_detect_scan can_open boot_noise respond baud tmo ports w1
        else
          match try_except
                  (valid ← validate_with_nist respond r.1;
                   if (valid : bool) then mret true
                   else disconnect r.1;; mret false)
                  (λ e, disconnect r.1;; mret false) w1 with
          | (w2, Return found) =>
              if (found : bool) then (w2, Return (Some r.1))
              else auto_detect_scan can_open boot_noise respond baud tmo ports w2
          | (w2, Raise e) => (w2, Raise e)
          end
    | (w1, Raise e) => (w1, Raise e)
    end.
Proof.
  cbn [auto_detect_scan]. unfold mbind at 1, M_bind at 1.
  destruct (connect can_open boot_noise (new_bench device baud tmo) w) as [w1 [r|e]];
    [|reflexivity].
  destruct (negb r.2); [reflexivity|].
  unfold mbind at 1, M_bind at 1.
  destruct (try_except _ _ w1) as [w2 [[|]|e]]; reflexivity.
Qed.

Lemma auto_detect_scan_app (baud : Z) (tmo : Q) (ports1 ports2 : list (string * string)) :
  ∀ w,
    auto_detect_scan can_open boot_noise respond baud tmo (ports1 ++ ports2) w
    = match auto_detect_scan can_open boot_noise respond baud tmo ports1 w with
      | (w1, Return None) =>
          auto_detect_scan can_open boot_noise respond baud tmo ports2 w1
      | r => r
      end.
Proof.
  induction ports1 as [|[device description] ports1 IH]; intros w; [reflexivity|].
  rewrite <- app_comm_cons, !auto_detect_scan_cons.
  destruct (connect can_open boot_noise (new_bench device baud tmo) w) as [w1 [r|e]];
    [|reflexivity].
  destruct (negb r.2); [apply IH|].
  destruct (try_except _ _ w1) as [w2 [[|]|e]]; [reflexivity|apply IH|reflexivity].
Qed.

Lemma auto_detect_returns (comports : list (string * string)) (baud : Z) (tmo : Q)
    (w : World) :
  settings_accepted baud tmo →
  discovery_post baud tmo (length (conns w))
    (List.find (candidate_matches can_open respond) comports)
    (auto_detect can_open boot_noise respond comports baud tmo w).
Proof.
  intros Hset.
  assert (opened_are_closed (length (conns w)) None w) as Hnone.
  { intros h s Hh _ Hlook. apply lookup_lt_Some in Hlook. lia. }
  unfold auto_detect. destruct comports as [|p ports].
  - simpl. split; [done|exact Hnone].
  - apply auto_detect_scan_spec; [exact Hset|lia|exact Hnone].
Qed.

Lemma settings_accepted_or_not (baud : Z) (tmo : Q) :
  settings_accepted baud tmo ∨ ¬ settings_accepted baud tmo.
Proof.
  rewrite settings_accepted_checks.
  destruct (baud <? 0)%Z; [right; intros []; done|].
  destruct (Qltb tmo 0); [right; intros []; done|by left].
Qed.

(** With refused settings and at least one port to try, the first open
    attempt raises, and the exception leaves [auto_detect]: the [try] of
    the scan is around the probe only. *)
Lemma auto_detect_rejects (comports : list (string * string)) (baud : Z) (tmo : Q)
    (w : World) :
  ¬ settings_accepted baud tmo → comports ≠ [] →
  ∃ msg, auto_detect can_open boot_noise respond comports baud tmo w
         = (w, Raise (ValueError msg)).
Proof.
  intros Hbad Hne. unfold auto_detect.
  destruct comports as [|[device description] ports]; [done|].
  rewrite auto_detect_scan_cons.
  destruct (connect_rejects can_open boot_noise w (new_bench device baud tmo) Hbad)
    as [msg ->].
  by exists msg.
Qed.

Lemma auto_detect_found_settings (comports : list (string * string)) (baud : Z) (tmo : Q)
    (w w1 : World) (bench : AESBenchmark) :
  auto_detect can_open boot_noise respond comports baud tmo w
    = (w1, Return (Some bench)) →
  settings_accepted baud tmo.
Proof.
  intros Hfound.
  destruct (settings_accepted_or_not baud tmo) as [Hset|Hbad]; [exact Hset|].
  destruct comports as [|p ports]; [discriminate|].
  destruct (auto_detect_rejects (p :: ports) baud tmo w Hbad ltac:(done)) as [msg E].
  rewrite E in Hfound. discriminate.
Qed.

End DiscoveryMore.

(** X7. Discovery stops at the first device it finds.  When
    [auto_detect] over a list of ports returns a benchmark object, the
    same call over that list followed by any further ports has the same
    result and leaves the same world: the further ports are not opened
    and nothing is written to them. *)
Theorem auto_detect_ignores_later_ports (can_open : string → bool)
    (boot_noise : string → bytes) (respond : string → list bytes → bytes)
    (ports later : list (string * string)) (baud : Z) (tmo : Q)
    (w : World) (bench : AESBenchmark) :
  (auto_detect can_open boot_noise respond ports baud tmo w).2 = Return (Some bench) →
  auto_detect can_open boot_noise respond (ports ++ later) baud tmo w
  = auto_detect can_open boot_noise respond ports baud tmo w.
Proof.
  intros Hfound. unfold auto_detect in *.
  destruct ports as [|p ports]; [discriminate|].
  cbn [app]. cbv zeta.
  change (p :: ports ++ later) with ((p :: ports) ++ later).
  rewrite auto_detect_scan_app.
  destruct (auto_detect_scan can_open boot_noise respond baud tmo (p :: ports) w)
    as [w1 [[b|]|e]]; try reflexivity. discriminate.
Qed.

Lemma auto_detect_ignores_later_ports_witness :
  auto_detect three_can_open three_noise three_respond three_ports 115200 1 world_empty
  = auto_detect three_can_open three_noise three_respond (take 2 three_ports)
                115200 1 world_empty.
Proof.
  apply (auto_detect_ignores_later_ports three_can_open three_noise three_respond
           (take 2 three_ports) (drop 2 three_ports) 115200 1 world_empty
           (mkBench "COM2" 115200 1 (Some 1))).
  reflexivity.
Defined.

(** X8. What discovery accepts, the known-vector check accepts.  If the
    device on the detected port answers a frame the same way whatever was
    written before it, then [run_nist_test_vector] on the object returned
    by [auto_detect], run in the world discovery left, returns True. *)
Theorem detected_device_passes_known_vector (can_open : string → bool)
    (boot_noise : string → bytes) (respond : string → list bytes → bytes)
    (comports : list (string * string)) (baud : Z) (tmo : Q)
    (w w1 : World) (bench : AESBenchmark) :
  auto_detect can_open boot_noise respond comports baud tmo w
    = (w1, Return (Some bench)) →
  (∀ frame history, respond (port bench) (frame :: history)
                    = respond (port bench) [frame]) →
  (run_nist_test_vector respond bench w1).2 = Return true.
Proof.
  intros Hdetect Hstateless.
  pose proof (auto_detect_returns can_open boot_noise respond comports baud tmo w
                (auto_detect_found_settings can_open boot_noise respond comports
                   baud tmo w w1 bench Hdetect)) as Hpost.
  rewrite Hdetect in Hpost. unfold discovery_post in Hpost.
  destruct (List.find _ comports) as [p|] eqn:Hfind; [|by destruct Hpost].
  destruct Hpost as (h & s & Hret & _ & Hs & Hopen & Hport & _). simpl in *.
  injection Hret as ->.
  apply find_some in Hfind as [_ Hmatch].
  unfold candidate_matches in Hmatch. apply andb_true_iff in Hmatch as [_ Hans].
  destruct (known_vector_verdict_aux respond w1 (mkBench p.1 baud tmo (Some h)) h s
              eq_refl Hs Hopen) as [-> ->].
  simpl port in Hstateless. rewrite Hport, Hstateless. f_equal. exact Hans.
Qed.

Lemma detected_device_passes_known_vector_witness :
  (run_nist_test_vector three_respond (mkBench "COM2" 115200 1 (Some 1))
     (auto_detect three_can_open three_noise three_respond three_ports
                  115200 1 world_empty).1).2
  = Return true.
Proof.
  apply (detected_device_passes_known_vector three_can_open three_noise three_respond
           three_ports 115200 1 world_empty
           (auto_detect three_can_open three_noise three_respond three_ports
                        115200 1 world_empty).1).
  - vm_compute. reflexivity.
  - intros frame history. reflexivity.
Defined.

(** ** Software verification and the random-vector test *)

Lemma ecb_one_block (op : bytes → bytes → bytes) (key block : bytes) :
  length key = 16 → length block = 16 →
  ecb_apply op key block = Return (op key block).
Proof.
  intros Hk Hb. unfold ecb_apply. rewrite Hk, Hb. simpl.
  rewrite firstn_all2 by lia. by rewrite app_nil_r.
Qed.

(** X9. [verify_with_software] accepts exactly the reference ciphertext:
    for a 16-byte key and a 16-byte plaintext it returns True when the
    hardware ciphertext equals the software AES encryption of the
    plaintext, and False for any other bytes.  A key whose length is not
    an AES key length makes it raise [ValueError] instead. *)
Theorem verify_with_software_exact (aes_encrypt_block : bytes → bytes → bytes)
    (key plaintext hw_ciphertext : bytes) :
  (length key = 16 → length plaintext = 16 →
   ∃ ok, verify_with_software aes_encrypt_block key plaintext hw_ciphertext = Return ok
         ∧ (ok = true ↔ hw_ciphertext = aes_encrypt_block key plaintext))
  ∧ (length key ≠ 16 → length key ≠ 24 → length key ≠ 32 →
     ∃ msg, verify_with_software aes_encrypt_block key plaintext hw_ciphertext
            = Raise (ValueError msg)).
Proof.
  split.
  - intros Hk Hp. unfold verify_with_software, ecb_encrypt.
    rewrite (ecb_one_block aes_encrypt_block key plaintext Hk Hp).
    eexists. split; [reflexivity|]. apply bytes_eqb_eq.
  - intros H16 H24 H32. unfold verify_with_software, ecb_encrypt, ecb_apply.
    apply Nat.eqb_neq in H16, H24, H32. rewrite H16, H24, H32. simpl. eauto.
Qed.

Lemma verify_with_software_exact_witness :
  ∃ ok, verify_with_software toy_block NIST_KEY NIST_PT (rev NIST_PT) = Return ok
        ∧ (ok = true ↔ rev NIST_PT = toy_block NIST_KEY NIST_PT).
Proof.
  apply (verify_with_software_exact toy_block NIST_KEY NIST_PT (rev NIST_PT));
    reflexivity.
Defined.

Lemma for_each_invariant {A S : Type} (body : S → A → M S)
    (P : nat → World → S → Prop) :
  (∀ n acc x w, P n w acc →
     ∃ w' acc', body acc x w = (w', Return acc') ∧ P (Datatypes.S n) w' acc') →
  ∀ l n acc w, P n w acc →
    ∃ w' acc', for_each body l acc w = (w', Return acc') ∧ P (n + length l) w' acc'.
Proof.
  intros Hstep. induction l as [|x l IH]; intros n acc w HP; simpl.
  - exists w, acc. rewrite Nat.add_0_r. done.
  - destruct (Hstep n acc x w HP) as (w1 & acc1 & E1 & HP1).
    destruct (IH (Datatypes.S n) acc1 w1 HP1) as (w2 & acc2 & E2 & HP2).
    exists w2, acc2. unfold mbind, M_bind. rewrite E1, E2.
    split; [done|]. by replace (n + Datatypes.S (length l)) with (Datatypes.S n + length l) by lia.
Qed.

(** A round trip with well-sized arguments always returns, all or
    nothing, and moves neither the entropy nor the clock. *)
Lemma encrypt_block_returns (respond : string → list bytes → bytes)
    (w : World) (self : AESBenchmark) (key plaintext : bytes) :
  length key = 16 → length plaintext = 16 →
  ∃ w' r,
    encrypt_block respond self key plaintext w = (w', Return r)
    ∧ (r = (None, None)
       ∨ ∃ ciphertext cycle_count,
           r = (Some ciphertext, Some cycle_count)
           ∧ length ciphertext = 16 ∧ (0 ≤ cycle_count < 2 ^ 32)%Z)
    ∧ rand_ix w' = rand_ix w ∧ clock_ix w' = clock_ix w
    ∧ (connected w self = false → w' = w ∧ r = (None, None)).
Proof.
  intros Hk Hp.
  destruct (encrypt_block_cases respond w self key plaintext)
    as [[Hc ->] | [(Hc & Hbad & _) | (Hc & _ & _ & h & s & _ & _ & _ & Heq)]].
  - eexists _, _. split_and!; eauto.
  - lia.
  - cbv zeta in Heq. rewrite Heq.
    destruct (decode_response_cases
                (take RX_FRAME_SIZE
                   (respond (ser_port s) ((key ++ plaintext ++ FRAME_MARKER) :: written s))))
      as [[_ ->] | (Hlen & b0 & b1 & b2 & b3 & _ & ->)];
      eexists _, _; (split; [reflexivity|]); (split_and!; [|done|done|congruence]).
    + by left.
    + right. eexists _, _. split; [done|].
      split; [rewrite length_take; lia|apply le_uint32_range].
Qed.

Lemma os_urandom_length (entropy : nat → Byte.byte) (n : nat) (w : World) :
  ∃ data, os_urandom entropy n w
          = (mkWorld (conns w) (io_trace w) (rand_ix w + n) (clock_ix w), Return data)
          ∧ length data = n.
Proof.
  eexists. split; [reflexivity|]. by rewrite List.length_map, length_seq.
Qed.

(** The state of the random-test loop after [n] iterations. *)
Lemma random_test_body_step (respond : string → list bytes → bytes)
    (entropy : nat → Byte.byte) (aes_encrypt_block : bytes → bytes → bytes)
    (bench : AESBenchmark) (passed failed : Z) (counts : list Z) (i : nat) (w : World) :
  ∃ w' passed' failed' counts',
    random_test_body respond entropy aes_encrypt_block bench
                     (passed, failed, Some <$> counts) i w
    = (w', Return (passed', failed', Some <$> counts'))
    ∧ ((passed' = passed ∧ failed' = (failed + 1)%Z ∧ counts' = counts)
       ∨ (passed' = (passed + 1)%Z ∧ failed' = failed
          ∧ ∃ c, counts' = counts ++ [c] ∧ connected w bench = true))
    ∧ (connected w bench = false →
       conns w' = conns w ∧ io_trace w' = io_trace w ∧ passed' = passed).
Proof.
  unfold random_test_body.
  destruct (os_urandom_length entropy 16 w) as (key & Ekey & Hk).
  unfold mbind at 1, M_bind at 1. rewrite Ekey.
  set (w1 := mkWorld (conns w) (io_trace w) (rand_ix w + 16) (clock_ix w)).
  destruct (os_urandom_length entropy 16 w1) as (plaintext & Ept & Hp).
  unfold mbind at 1, M_bind at 1. rewrite Ept.
  set (w2 := mkWorld (conns w1) (io_trace w1) (rand_ix w1 + 16) (clock_ix w1)).
  destruct (encrypt_block_returns respond w2 bench key plaintext Hk Hp)
    as (w3 & r & Eenc & Hr & _ & _ & Hnc).
  unfold mbind at 1, M_bind at 1. rewrite Eenc.
  destruct Hr as [-> | (ct & c & -> & _ & _)]; cbn [fst snd].
  - exists w3, passed, (failed + 1)%Z, counts. split; [done|]. split; [by left|].
    intros Hconn. destruct (Hnc Hconn) as [-> _]. done.
  - assert (connected w bench = true) as Hconn.
    { destruct (connected w bench) eqn:Hc; [done|].
      destruct (Hnc Hc) as [_ Habs]. discriminate. }
    assert (ecb_encrypt aes_encrypt_block key plaintext
            = Return (aes_encrypt_block key plaintext)) as Hsw
      by apply (ecb_one_block aes_encrypt_block key plaintext Hk Hp).
    assert (verify_with_software aes_encrypt_block key plaintext ct
            = Return (bytes_eqb ct (aes_encrypt_block key plaintext))) as ->
      by (unfold verify_with_software; by rewrite Hsw).
    unfold mbind at 1, M_bind at 1, lift_outcome at 1.
    destruct (bytes_eqb ct (aes_encrypt_block key plaintext)).
    + exists w3, (passed + 1)%Z, failed, (counts ++ [c]).
      split; [by rewrite fmap_app|]. split; [right; eauto|]. congruence.
    + rewrite Hsw. unfold mbind at 1, M_bind at 1, lift_outcome at 1.
      exists w3, passed, (failed + 1)%Z, counts. split; [done|]. split; [by left|].
      congruence.
Qed.

Lemma random_stats_returns (passed failed num_tests : Z) (counts : list Z) :
  ∃ stats,
    random_stats passed failed num_tests (Some <$> counts) = Return stats
    ∧ rs_passed stats = passed ∧ rs_failed stats = failed ∧ rs_total stats = num_tests
    ∧ rs_pass_rate stats
      = (if (num_tests >? 0)%Z then inject_Z passed / inject_Z num_tests * 100 else 0)%Q
    ∧ (rs_min_cycles stats = None ↔ counts = [])
    ∧ (rs_max_cycles stats = None ↔ counts = [])
    ∧ (rs_avg_cycles stats = None ↔ counts = []).
Proof.
  unfold random_stats.
  assert ((if (num_tests >? 0)%Z
           then py_div (inject_Z passed) (inject_Z num_tests)
                ≫= (λ q : Q, mret (q * 100)%Q)
           else mret 0%Q)
          = Return (if (num_tests >? 0)%Z
                    then inject_Z passed / inject_Z num_tests * 100 else 0)%Q) as ->.
  { destruct (Z.gtb_spec num_tests 0) as [Hpos|Hle]; [|done].
    by rewrite py_div_nonzero by (apply inject_Z_nonzero; lia). }
  unfold mbind at 1, outcome_bind at 1.
  destruct counts as [|c counts]; [eexists; split; [reflexivity|done]|].
  rewrite fmap_cons. cbv iota. rewrite <- fmap_cons, all_ints_Some.
  unfold mbind at 1, outcome_bind at 1.
  simpl py_min. simpl py_max. unfold mbind at 1 2, outcome_bind at 1 2.
  rewrite py_div_nonzero by (apply inject_Z_nonzero; simpl; lia).
  eexists. split; [reflexivity|]. simpl. split_and!; done.
Qed.

Lemma pass_rate_bounds (passed num_tests : Z) :
  (0 ≤ passed ≤ num_tests)%Z → (0 < num_tests)%Z →
  (0 <= inject_Z passed / inject_Z num_tests * 100 <= 100)%Q.
Proof.
  intros [H0 Hle] Hpos.
  assert (0 < inject_Z num_tests)%Q as Hn by (unfold Qlt; simpl; lia).
  assert (0 <= inject_Z passed / inject_Z num_tests)%Q as Hlo.
  { apply Qle_shift_div_l; [exact Hn|]. rewrite Qmult_0_l. unfold Qle. simpl. lia. }
  assert (inject_Z passed / inject_Z num_tests <= 1)%Q as Hhi.
  { apply Qle_shift_div_r; [exact Hn|]. rewrite Qmult_1_l. unfold Qle. simpl. lia. }
  split.
  - apply Qmult_le_0_compat; [exact Hlo|done].
  - apply Qle_trans with (1 * 100)%Q; [|done].
    apply Qmult_le_compat_r; [exact Hhi|done].
Qed.

Lemma run_random_tests_figures (respond : string → list bytes → bytes)
    (entropy : nat → Byte.byte) (aes_encrypt_block : bytes → bytes → bytes)
    (bench : AESBenchmark) (num_tests : Z) (w : World) :
  ∃ w' stats,
    run_random_tests respond entropy aes_encrypt_block bench num_tests w
      = (w', Return stats)
    ∧ rs_total stats = num_tests
    ∧ (0 ≤ rs_passed stats)%Z ∧ (0 ≤ rs_failed stats)%Z
    ∧ (rs_passed stats + rs_failed stats = Z.max 0 num_tests)%Z
    ∧ (0 <= rs_pass_rate stats <= 100)%Q
    ∧ (rs_min_cycles stats = None ↔ rs_passed stats = 0%Z)
    ∧ (rs_avg_cycles stats = None ↔ rs_passed stats = 0%Z).
Proof.
  pose (P := λ (n : nat) (_ : World) (st : Z * Z * list (option Z)),
          ∃ counts, st.2 = Some <$> counts
                    ∧ (0 ≤ st.1.2)%Z
                    ∧ Z.of_nat (length counts) = st.1.1
                    ∧ (st.1.1 + st.1.2 = Z.of_nat n)%Z).
  destruct (for_each_invariant
              (random_test_body respond entropy aes_encrypt_block bench) P)
    with (l := py_range num_tests) (n := 0) (acc := (0%Z, 0%Z, @nil (option Z))) (w := w)
    as (w' & [[passed failed] cycles] & Eloop & counts & Hc & Hf & Hp & Hsum).
  { intros n [[p f] c] i w0 (counts & Hc & Hf & Hp & Hsum). simpl in *. subst c.
    destruct (random_test_body_step respond entropy aes_encrypt_block bench p f counts i w0)
      as (w1 & p' & f' & counts' & E & Hstep & _).
    exists w1, (p', f', Some <$> counts'). split; [exact E|].
    exists counts'. simpl.
    destruct Hstep as [(-> & -> & ->) | (-> & -> & c & -> & _)];
      rewrite ?length_app; simpl; split_and!; try done; lia. }
  { exists []. simpl. done. }
  simpl in *. subst cycles.
  destruct (random_stats_returns passed failed num_tests counts)
    as (stats & Estats & Hsp & Hsf & Hst & Hrate & Hmin & _ & Havg).
  exists w', stats. unfold run_random_tests, mbind, M_bind. rewrite Eloop.
  unfold lift_outcome. split; [by rewrite Estats|].
  unfold py_range in Hsum. rewrite length_seq in Hsum.
  rewrite Hsp, Hsf, Hst, Hrate, Hmin, Havg.
  split_and!; try lia.
  - destruct (Z.gtb_spec num_tests 0) as [Hpos|Hle]; [|done].
    apply pass_rate_bounds; lia.
  - destruct (Z.gtb_spec num_tests 0) as [Hpos|Hle]; [|done].
    apply pass_rate_bounds; lia.
  - destruct counts; simpl in *; split; (done || lia).
  - destruct counts; simpl in *; split; (done || lia).
Qed.

(** X10. [run_random_tests] always returns a statistics record, whatever
    the device and the state of the connection: no exception, no division
    by zero.  In it the total is [num_tests], passed and failed are
    non-negative and add up to the number of iterations, the pass rate
    lies between 0 and 100, and the cycle figures are present exactly
    when at least one test passed. *)
Theorem run_random_tests_accounting (respond : string → list bytes → bytes)
    (entropy : nat → Byte.byte) (aes_encrypt_block : bytes → bytes → bytes)
    (bench : AESBenchmark) (num_tests : Z) (w : World) :
  ∃ w' stats,
    run_random_tests respond entropy aes_encrypt_block bench num_tests w
      = (w', Return stats)
    ∧ rs_total stats = num_tests
    ∧ (0 ≤ rs_passed stats)%Z ∧ (0 ≤ rs_failed stats)%Z
    ∧ (rs_passed stats + rs_failed stats = Z.max 0 num_tests)%Z
    ∧ (0 <= rs_pass_rate stats <= 100)%Q
    ∧ (rs_min_cycles stats = None ↔ rs_passed stats = 0%Z)
    ∧ (rs_avg_cycles stats = None ↔ rs_passed stats = 0%Z).
Proof. apply run_random_tests_figures. Qed.

Lemma connected_same_conns (w w' : World) (self : AESBenchmark) :
  conns w' = conns w → connected w' self = connected w self.
Proof. intros E. unfold connected. by rewrite E. Qed.

(** X11. Without an open connection [run_random_tests] touches no
    transport: every iteration counts as a failure, nothing passes, the
    pass rate is 0, there are no cycle figures, and the store and the
    trace are as before. *)
Theorem run_random_tests_not_connected (respond : string → list bytes → bytes)
    (entropy : nat → Byte.byte) (aes_encrypt_block : bytes → bytes → bytes)
    (bench : AESBenchmark) (num_tests : Z) (w : World) :
  connected w bench = false →
  ∃ w' stats,
    run_random_tests respond entropy aes_encrypt_block bench num_tests w
      = (w', Return stats)
    ∧ rs_passed stats = 0%Z
    ∧ rs_failed stats = Z.max 0 num_tests
    ∧ (rs_pass_rate stats == 0)%Q
    ∧ rs_min_cycles stats = None ∧ rs_max_cycles stats = None
    ∧ rs_avg_cycles stats = None
    ∧ conns w' = conns w ∧ io_trace w' = io_trace w.
Proof.
  intros Hconn.
  pose (P := λ (n : nat) (w0 : World) (st : Z * Z * list (option Z)),
          conns w0 = conns w ∧ io_trace w0 = io_trace w
          ∧ st = (0%Z, Z.of_nat n, @nil (option Z))).
  destruct (for_each_invariant
              (random_test_body respond entropy aes_encrypt_block bench) P)
    with (l := py_range num_tests) (n := 0) (acc := (0%Z, 0%Z, @nil (option Z))) (w := w)
    as (w' & st & Eloop & Hc & Ht & ->).
  { intros n st i w0 (Hc & Ht & ->).
    assert (connected w0 bench = false) as Hconn0
      by (by rewrite (connected_same_conns w w0 bench Hc)).
    destruct (random_test_body_step respond entropy aes_encrypt_block bench
                0 (Z.of_nat n) [] i w0)
      as (w1 & p' & f' & counts' & E & Hstep & Hnc).
    destruct (Hnc Hconn0) as (Hc1 & Ht1 & ->).
    destruct Hstep as [(_ & -> & ->) | (Habs & _)]; [|lia].
    exists w1, (0%Z, (Z.of_nat n + 1)%Z, []). split; [exact E|].
    split_and!; [congruence|congruence|]. repeat f_equal. lia. }
  { done. }
  destruct (random_stats_returns 0 (Z.of_nat (0 + length (py_range num_tests)))
              num_tests [])
    as (stats & Estats & Hsp & Hsf & _ & Hrate & Hmin & Hmax & Havg).
  change (Some <$> []) with (@nil (option Z)) in Estats.
  exists w', stats. unfold run_random_tests, mbind, M_bind. rewrite Eloop.
  unfold lift_outcome. split; [by rewrite Estats|].
  unfold py_range in Hsf. rewrite length_seq in Hsf.
  rewrite Hsp, Hsf, Hrate. split_and!; try done; try lia.
  - by destruct (num_tests >? 0)%Z.
  - by apply Hmin.
  - by apply Hmax.
  - by apply Havg.
Qed.

Lemma run_random_tests_not_connected_witness :
  ∃ w' stats,
    run_random_tests reply_nist entropy_zero toy_block bench_com3 3 world_shut
      = (w', Return stats)
    ∧ rs_passed stats = 0%Z ∧ rs_failed stats = 3%Z ∧ io_trace w' = [].
Proof.
  destruct (run_random_tests_not_connected reply_nist entropy_zero toy_block
              bench_com3 3 world_shut eq_refl)
    as (w' & stats & E & Hp & Hf & _ & _ & _ & _ & _ & Ht).
  exists w', stats. done.
Defined.

Section ReferenceDevice.

Context (respond : string → list bytes → bytes) (entropy : nat → Byte.byte)
        (aes_encrypt_block : bytes → bytes → bytes).
Hypothesis aes_block_length :
  ∀ key block, length key = 16 → length block = 16 →
               length (aes_encrypt_block key block) = 16.

Lemma encrypt_block_on_reference (w : World) (bench : AESBenchmark) (h : nat) (s : Serial)
    (key block : bytes) :
  ser bench = Some h → conns w !! h = Some s → is_open s = true →
  reference_device respond aes_encrypt_block (ser_port s) →
  length key = 16 → length block = 16 →
  ∃ w' s' cycle_count,
    encrypt_block respond bench key block w
      = (w', Return (Some (aes_encrypt_block key block), Some cycle_count))
    ∧ conns w' !! h = Some s' ∧ is_open s' = true ∧ ser_port s' = ser_port s
    ∧ rand_ix w' = rand_ix w ∧ clock_ix w' = clock_ix w.
Proof.
  intros Hser Hs Hopen Hdev Hk Hb.
  rewrite (encrypt_block_connected respond w bench h s key block Hser Hs Hopen).
  rewrite (encode_request_ok key block Hk Hb).
  destruct (Hdev (written s) key block Hk Hb) as (cyc & Hcyc & ->).
  pose proof (aes_block_length key block Hk Hb) as Hlen.
  destruct (decode_response_full (aes_encrypt_block key block ++ cyc))
    as (b0 & b1 & b2 & b3 & _ & ->).
  { rewrite length_app. lia. }
  rewrite take_app_length' by (symmetry; exact Hlen).
  eexists _, _, _. split; [reflexivity|].
  unfold round_trip_world. cbn [conns].
  rewrite list_lookup_insert_eq by (by eapply lookup_lt_Some).
  split; [reflexivity|]. split; [exact Hopen|done].
Qed.

Lemma random_test_body_on_reference (bench : AESBenchmark) (h : nat) (port : string)
    (passed failed : Z) (counts : list Z) (i : nat) (w : World) (s : Serial) :
  ser bench = Some h → reference_device respond aes_encrypt_block port →
  conns w !! h = Some s → is_open s = true → ser_port s = port →
  ∃ w' s' c,
    random_test_body respond entropy aes_encrypt_block bench
                     (passed, failed, Some <$> counts) i w
    = (w', Return ((passed + 1)%Z, failed, Some <$> (counts ++ [c])))
    ∧ conns w' !! h = Some s' ∧ is_open s' = true ∧ ser_port s' = port.
Proof.
  intros Hser Hdev Hs Hopen Hport. subst port. unfold random_test_body.
  destruct (os_urandom_length entropy 16 w) as (key & Ekey & Hk).
  unfold mbind at 1, M_bind at 1. rewrite Ekey.
  set (w1 := mkWorld (conns w) (io_trace w) (rand_ix w + 16) (clock_ix w)).
  destruct (os_urandom_length entropy 16 w1) as (plaintext & Ept & Hp).
  unfold mbind at 1, M_bind at 1. rewrite Ept.
  set (w2 := mkWorld (conns w1) (io_trace w1) (rand_ix w1 + 16) (clock_ix w1)).
  destruct (encrypt_block_on_reference w2 bench h s key plaintext Hser Hs Hopen Hdev Hk Hp)
    as (w3 & s3 & c & Eenc & Hs3 & Hopen3 & Hport3 & _).
  unfold mbind at 1, M_bind at 1. rewrite Eenc. cbn [fst snd].
  assert (verify_with_software aes_encrypt_block key plaintext
            (aes_encrypt_block key plaintext) = Return true) as ->.
  { unfold verify_with_software, ecb_encrypt.
    rewrite (ecb_one_block aes_encrypt_block key plaintext Hk Hp).
    unfold mbind, outcome_bind, mret, outcome_ret. by rewrite bytes_eqb_refl. }
  unfold mbind at 1, M_bind at 1, lift_outcome at 1.
  exists w3, s3, c. split; [by rewrite fmap_app|done].
Qed.

(** X12. Against a faithful accelerator every random test passes.  When
    the connection is open and the device answers each frame with the
    reference ciphertext of its key and block, [run_random_tests] reports
    passed = the number of iterations, failed = 0 and, for a positive
    count, a pass rate of 100. *)
Theorem run_random_tests_on_reference (bench : AESBenchmark) (h : nat) (s : Serial)
    (num_tests : Z) (w : World) :
  ser bench = Some h → conns w !! h = Some s → is_open s = true →
  reference_device respond aes_encrypt_block (ser_port s) →
  ∃ w' stats,
    run_random_tests respond entropy aes_encrypt_block bench num_tests w
      = (w', Return stats)
    ∧ rs_passed stats = Z.max 0 num_tests
    ∧ rs_failed stats = 0%Z
    ∧ ((0 < num_tests)%Z → (rs_pass_rate stats == 100)%Q).
Proof.
  intros Hser Hs Hopen Hdev.
  pose (P := λ (n : nat) (w0 : World) (st : Z * Z * list (option Z)),
          (∃ s0, conns w0 !! h = Some s0 ∧ is_open s0 = true ∧ ser_port s0 = ser_port s)
          ∧ ∃ counts, st = (Z.of_nat n, 0%Z, Some <$> counts)).
  destruct (for_each_invariant
              (random_test_body respond entropy aes_encrypt_block bench) P)
    with (l := py_range num_tests) (n := 0) (acc := (0%Z, 0%Z, @nil (option Z))) (w := w)
    as (w' & st & Eloop & _ & counts & ->).
  { intros n st i w0 [(s0 & Hs0 & Hopen0 & Hport0) (counts & ->)].
    destruct (random_test_body_on_reference bench h (ser_port s) (Z.of_nat n) 0 counts
                i w0 s0 Hser Hdev Hs0 Hopen0 Hport0)
      as (w1 & s1 & c & E & Hs1 & Hopen1 & Hport1).
    eexists w1, _. split; [exact E|]. split; [eauto|].
    exists (counts ++ [c]). repeat f_equal. lia. }
  { split; [eauto|]. by exists []. }
  destruct (random_stats_returns (Z.of_nat (0 + length (py_range num_tests))) 0
              num_tests counts)
    as (stats & Estats & Hsp & Hsf & _ & Hrate & _).
  exists w', stats. unfold run_random_tests, mbind, M_bind. rewrite Eloop.
  unfold lift_outcome. split; [by rewrite Estats|].
  unfold py_range in Hsp, Hrate. rewrite length_seq in Hsp, Hrate.
  rewrite Hsp, Hsf, Hrate. split_and!; [lia|done|].
  intros Hpos. apply Z.gtb_lt in Hpos as Hgt. rewrite Hgt.
  replace (Z.of_nat (0 + Z.to_nat num_tests)) with num_tests by lia.
  unfold Qdiv. rewrite Qmult_inv_r by (apply inject_Z_nonzero; lia). reflexivity.
Qed.

End ReferenceDevice.

Lemma run_random_tests_on_reference_witness :
  ∃ w' stats,
    run_random_tests reply_toy entropy_zero toy_block bench_com3 4 world_open
      = (w', Return stats)
    ∧ rs_passed stats = 4%Z ∧ rs_failed stats = 0%Z.
Proof.
  destruct (run_random_tests_on_reference reply_toy entropy_zero toy_block
              (λ key block _ Hb, eq_trans (length_rev block) Hb)
              bench_com3 0 (mkSerial "COM3" true [] []) 4 world_open
              eq_refl eq_refl eq_refl (reply_toy_reference "COM3"))
    as (w' & stats & E & Hp & Hf & _).
  exists w', stats. split; [exact E|]. split; [exact Hp|exact Hf].
Defined.

(** ** The throughput test, continued *)

Lemma throughput_stats_value (blocks total : Z) (elapsed : Q) :
  Qeq_bool elapsed 0 = false →
  ∃ stats, throughput_stats blocks total elapsed = Return stats
           ∧ ts_blocks stats = blocks ∧ ts_elapsed_sec stats = elapsed.
Proof.
  intros Hz. unfold throughput_stats, py_div. rewrite Hz. simpl.
  destruct (Z.gtb_spec blocks 0) as [Hpos|Hle].
  - assert (Qeq_bool (inject_Z blocks) 0 = false) as ->.
    { destruct (Qeq_bool (inject_Z blocks) 0) eqn:Hbz; [|done].
      apply Qeq_bool_iff in Hbz. exfalso.
      eapply inject_Z_nonzero; [|exact Hbz]. lia. }
    simpl. eexists. split; [reflexivity|]. split; reflexivity.
  - simpl. eexists. split; [reflexivity|]. split; reflexivity.
Qed.

(** The throughput loop against any device: one iteration per clock
    reading below the duration. *)
Lemma throughput_loop_iterations (entropy : nat → Byte.byte) (clock : nat → Q)
    (respond : string → list bytes → bytes) (bench : AESBenchmark) (key : bytes)
    (start_time duration_sec : Q) :
  length key = 16 →
  ∀ (k fuel : nat) (w : World) (blocks total : Z),
    (∀ j, j < k → Qltb (clock (clock_ix w + j) - start_time) duration_sec = true) →
    Qltb (clock (clock_ix w + k) - start_time) duration_sec = false →
    k < fuel →
    ∃ w' blocks' total',
      throughput_loop respond entropy clock fuel bench key start_time duration_sec
                      blocks total w
      = (w', Return (Some (blocks', total')))
      ∧ (blocks ≤ blocks' ≤ blocks + Z.of_nat k)%Z
      ∧ (total ≤ total')%Z
      ∧ clock_ix w' = clock_ix w + k + 1
      ∧ rand_ix w' = rand_ix w + 16 * k.
Proof.
  intros Hk. induction k as [|k IH]; intros fuel w blocks total Hbelow Hreached Hfuel;
    (destruct fuel as [|fuel]; [lia|]); simpl throughput_loop;
    unfold mbind at 1, M_bind at 1, time_now.
  - rewrite Nat.add_0_r in Hreached. rewrite Hreached.
    eexists _, _, _. split; [reflexivity|]. simpl. split_and!; lia.
  - pose proof (Hbelow 0 ltac:(lia)) as Hfirst.
    rewrite Nat.add_0_r in Hfirst. rewrite Hfirst.
    destruct (os_urandom_length entropy 16
                (mkWorld (conns w) (io_trace w) (rand_ix w) (S (clock_ix w))))
      as (plaintext & Ept & Hp).
    unfold mbind at 1, M_bind at 1. rewrite Ept. cbn [rand_ix conns io_trace clock_ix].
    set (w1 := mkWorld (conns w) (io_trace w) (rand_ix w + 16) (S (clock_ix w))).
    destruct (encrypt_block_returns respond w1 bench key plaintext Hk Hp)
      as (w2 & r & Eenc & Hr & Hrand & Hclock & _).
    unfold mbind at 1, M_bind at 1. rewrite Eenc.
    assert (∀ j, j < k → Qltb (clock (clock_ix w2 + j) - start_time) duration_sec = true)
      as Hbelow2.
    { intros j Hj. rewrite Hclock. simpl.
      replace (S (clock_ix w + j)) with (clock_ix w + S j) by lia. apply Hbelow. lia. }
    assert (Qltb (clock (clock_ix w2 + k) - start_time) duration_sec = false) as Hreached2.
    { rewrite Hclock. simpl.
      by replace (S (clock_ix w + k)) with (clock_ix w + S k) by lia. }
    destruct Hr as [-> | (ct & c & -> & _ & Hc)]; cbn [fst snd].
    + destruct (IH fuel w2 blocks total Hbelow2 Hreached2 ltac:(lia))
        as (w' & b' & t' & E & Hb & Ht & Hci & Hri).
      exists w', b', t'. split; [exact E|]. rewrite Hci, Hri, Hclock, Hrand. simpl.
      split_and!; lia.
    + unfold mbind at 1, M_bind at 1, lift_outcome at 1. simpl as_int.
      destruct (IH fuel w2 (blocks + 1)%Z (total + c)%Z Hbelow2 Hreached2 ltac:(lia))
        as (w' & b' & t' & E & Hb & Ht & Hci & Hri).
      exists w', b', t'. split; [exact E|]. rewrite Hci, Hri, Hclock, Hrand. simpl.
      split_and!; lia.
Qed.

(** The exchanges of the throughput loop on an open connection: one per
    clock reading below the duration, each writing the key and the next
    16 bytes of entropy, and one block counted per full-length reply. *)
Lemma throughput_loop_exchanges (entropy : nat → Byte.byte) (clock : nat → Q)
    (respond : string → list bytes → bytes) (bench : AESBenchmark) (h : nat)
    (key : bytes) (start_time duration_sec : Q) :
  ser bench = Some h → length key = 16 →
  ∀ (k fuel : nat) (w : World) (blocks total : Z),
    connected w bench = true →
    (∀ j, j < k → Qltb (clock (clock_ix w + j) - start_time) duration_sec = true) →
    Qltb (clock (clock_ix w + k) - start_time) duration_sec = false →
    k < fuel →
    ∃ (gots : list bytes) w' blocks' total',
      throughput_loop respond entropy clock fuel bench key start_time duration_sec
                      blocks total w
      = (w', Return (Some (blocks', total')))
      ∧ length gots = k
      ∧ io_trace w'
        = io_trace w
          ++ concat (imap (λ i got,
                             exchange h (key ++ map entropy (seq (rand_ix w + 16 * i) 16)
                                             ++ FRAME_MARKER) got) gots)
      ∧ blocks' = (blocks + Z.of_nat (length (List.filter
                                               (λ got, length got =? RX_FRAME_SIZE)%nat
                                               gots)))%Z.
Proof.
  intros Hser Hk.
  induction k as [|k IH]; intros fuel w blocks total Hconn Hbelow Hreached Hfuel;
    (destruct fuel as [|fuel]; [lia|]); simpl throughput_loop;
    unfold mbind at 1, M_bind at 1, time_now.
  - rewrite Nat.add_0_r in Hreached. rewrite Hreached.
    eexists [], _, _, _. split; [reflexivity|]. simpl.
    rewrite app_nil_r. split_and!; [done|done|lia].
  - pose proof (Hbelow 0 ltac:(lia)) as Hfirst.
    rewrite Nat.add_0_r in Hfirst. rewrite Hfirst.
    unfold mbind at 1, M_bind at 1, os_urandom. cbn [rand_ix conns io_trace clock_ix].
    set (plaintext := map entropy (seq (rand_ix w) 16)).
    assert (length plaintext = 16) as Hp
      by (subst plaintext; by rewrite List.length_map, length_seq).
    set (w1 := mkWorld (conns w) (io_trace w) (rand_ix w + 16) (S (clock_ix w))).
    unfold connected in Hconn. rewrite Hser in Hconn.
    destruct (conns w !! h) as [s|] eqn:Hs; [|discriminate].
    unfold mbind at 1, M_bind at 1.
    rewrite (encrypt_block_connected respond w1 bench h s key plaintext Hser Hs Hconn).
    rewrite (encode_request_ok key plaintext Hk Hp).
    set (frame := key ++ plaintext ++ FRAME_MARKER).
    set (got := take RX_FRAME_SIZE (respond (ser_port s) (frame :: written s))).
    set (w2 := round_trip_world respond h s frame w1).
    assert (connected w2 bench = true) as Hconn2.
    { unfold connected, w2, round_trip_world. cbn [conns w1]. rewrite Hser.
      rewrite list_lookup_insert_eq by (by eapply lookup_lt_Some). exact Hconn. }
    assert (∀ j, j < k → Qltb (clock (clock_ix w2 + j) - start_time) duration_sec = true)
      as Hbelow2.
    { intros j Hj. cbn.
      replace (S (clock_ix w + j)) with (clock_ix w + S j) by lia. apply Hbelow. lia. }
    assert (Qltb (clock (clock_ix w2 + k) - start_time) duration_sec = false) as Hreached2.
    { cbn. by replace (S (clock_ix w + k)) with (clock_ix w + S k) by lia. }
    assert (∀ gots' : list bytes,
              io_trace w2
              ++ concat (imap (λ i g,
                                 exchange h (key ++ map entropy
                                                      (seq (rand_ix w2 + 16 * i) 16)
                                                 ++ FRAME_MARKER) g) gots')
              = io_trace w
                ++ concat (imap (λ i g,
                                   exchange h (key ++ map entropy
                                                        (seq (rand_ix w + 16 * i) 16)
                                                   ++ FRAME_MARKER) g) (got :: gots')))
      as Htrace.
    { intros gots'. rewrite imap_cons. cbn [concat].
      rewrite Nat.mul_0_r, Nat.add_0_r. fold plaintext. fold frame.
      unfold w2, round_trip_world. cbn [io_trace rand_ix w1]. fold got.
      rewrite <- !app_assoc. f_equal. f_equal. f_equal.
      apply imap_ext. intros i g _. unfold compose.
      replace (rand_ix w + 16 * S i) with (rand_ix w + 16 + 16 * i) by lia.
      reflexivity. }
    destruct (decode_response_cases got)
      as [[Hne ->] | (Hlen & b0 & b1 & b2 & b3 & _ & ->)]; cbn [fst snd].
    + destruct (IH fuel w2 blocks total Hconn2 Hbelow2 Hreached2 ltac:(lia))
        as (gots' & w' & b' & t' & E & Hn & Htr & Hb).
      exists (got :: gots'), w', b', t'. split; [exact E|].
      split; [simpl; by rewrite Hn|]. split; [by rewrite Htr, Htrace|].
      cbn [List.filter]. change (length got =? RX_FRAME_SIZE) with (length got =? 20).
      apply Nat.eqb_neq in Hne. by rewrite Hne.
    + unfold mbind at 1, M_bind at 1, lift_outcome at 1. simpl as_int.
      destruct (IH fuel w2 (blocks + 1)%Z (total + le_uint32 b0 b1 b2 b3)%Z
                  Hconn2 Hbelow2 Hreached2 ltac:(lia))
        as (gots' & w' & b' & t' & E & Hn & Htr & Hb).
      exists (got :: gots'), w', b', t'. split; [exact E|].
      split; [simpl; by rewrite Hn|]. split; [by rewrite Htr, Htrace|].
      cbn [List.filter]. change (length got =? RX_FRAME_SIZE) with (length got =? 20).
      apply Nat.eqb_eq in Hlen. rewrite Hlen. simpl length. lia.
Qed.

(** X14. The throughput test attempts one round trip per clock reading
    that is below the duration and stops at the first reading that has
    reached it.  For a positive duration and a clock that does not step
    back over the last two readings, it returns statistics whose block
    count is between 0 and that number of readings and whose elapsed time
    is the last reading minus the first; no exception is raised whatever
    the device does.  On an open connection the trace grows by exactly
    one exchange per such reading, each writing the key of the run and
    the next 16 bytes of entropy, and the block count is the number of
    exchanges whose read brought all 20 bytes; without an open connection
    the trace does not grow and no block is counted. *)
Theorem run_throughput_test_iterations (respond : string → list bytes → bytes)
    (entropy : nat → Byte.byte) (clock : nat → Q) (bench : AESBenchmark)
    (duration_sec : Q) (w : World) (k fuel : nat) :
  let start_time := clock (clock_ix w) in
  let key := map entropy (seq (rand_ix w) 16) in
  (∀ j, j < k → Qltb (clock (S (clock_ix w) + j) - start_time) duration_sec = true) →
  Qltb (clock (S (clock_ix w) + k) - start_time) duration_sec = false →
  k < fuel →
  (0 < duration_sec)%Q →
  (clock (S (clock_ix w) + k)%nat <= clock (clock_ix w + k + 2)%nat)%Q →
  ∃ w' stats,
    run_throughput_test respond entropy clock fuel bench duration_sec w
      = (w', Return (Some stats))
    ∧ (0 ≤ ts_blocks stats ≤ Z.of_nat k)%Z
    ∧ ts_elapsed_sec stats = (clock (clock_ix w + k + 2)%nat - start_time)%Q
    ∧ clock_ix w' = clock_ix w + k + 3
    ∧ rand_ix w' = rand_ix w + 16 + 16 * k
    ∧ (connected w bench = false →
       io_trace w' = io_trace w ∧ ts_blocks stats = 0%Z)
    ∧ (∀ h, ser bench = Some h → connected w bench = true →
       ∃ gots : list bytes,
         length gots = k
         ∧ io_trace w'
           = io_trace w
             ++ concat (imap (λ i got,
                                exchange h
                                  (key ++ map entropy (seq (rand_ix w + 16 + 16 * i) 16)
                                       ++ FRAME_MARKER) got) gots)
         ∧ ts_blocks stats
           = Z.of_nat (length (List.filter (λ got, length got =? RX_FRAME_SIZE) gots))).
Proof.
  intros start_time key Hbelow Hreached Hfuel Hpos Hmono.
  assert (Qeq_bool (clock (clock_ix w + k + 2)%nat - start_time) 0 = false) as Helapsed.
  { destruct (Qeq_bool _ 0) eqn:Hz; [|done]. apply Qeq_bool_iff in Hz.
    unfold Qltb in Hreached. apply negb_false_iff, Qle_bool_iff in Hreached.
    rewrite <- Hz in Hpos.
    assert (clock (clock_ix w + k + 2)%nat - start_time
            < clock (S (clock_ix w) + k)%nat - start_time)%Q as Hlt
      by (eapply Qlt_le_trans; [exact Hpos|exact Hreached]).
    apply Qplus_lt_l in Hlt. apply Qlt_not_le in Hlt. contradiction. }
  assert (length key = 16) as Hk by (subst key; by rewrite List.length_map, length_seq).
  unfold run_throughput_test.
  unfold mbind at 1, M_bind at 1, os_urandom at 1. fold key.
  unfold mbind at 1, M_bind at 1, time_now at 1. cbn [rand_ix conns io_trace clock_ix].
  fold start_time.
  set (w1 := mkWorld (conns w) (io_trace w) (rand_ix w + 16) (S (clock_ix w))).
  destruct (throughput_loop_iterations entropy clock respond bench key start_time
              duration_sec Hk k fuel w1 0 0 Hbelow Hreached Hfuel)
    as (w2 & blocks & total & Eloop & Hb & _ & Hci & Hri).
  unfold mbind at 1, M_bind at 1. rewrite Eloop.
  unfold mbind at 1, M_bind at 1, time_now at 1.
  unfold mbind at 1, M_bind at 1, lift_outcome at 1.
  rewrite Hci. simpl clock_ix.
  replace (S (clock_ix w) + k + 1) with (clock_ix w + k + 2) by lia.
  pose proof (throughput_stats_value blocks total
                (clock (clock_ix w + k + 2) - start_time) Helapsed)
    as (stats & -> & Hsb & Hse).
  eexists _, stats. split; [reflexivity|]. cbn [fst snd clock_ix rand_ix io_trace].
  rewrite Hsb, Hse, Hri. cbn [rand_ix w1].
  split; [lia|]. split; [done|]. split; [lia|]. split; [lia|]. split.
  - intros Hconn.
    rewrite (throughput_loop_not_connected entropy clock respond bench key start_time
               duration_sec 0 0 k fuel w1 Hconn Hbelow Hreached Hfuel) in Eloop.
    injection Eloop as <- <- _. done.
  - intros h Hser Hconn.
    destruct (throughput_loop_exchanges entropy clock respond bench h key start_time
                duration_sec Hser Hk k fuel w1 0 0 Hconn Hbelow Hreached Hfuel)
      as (gots & w2' & blocks' & total' & Eloop' & Hn & Htr & Hblocks).
    rewrite Eloop in Eloop'. injection Eloop' as <- <- _.
    exists gots. split; [exact Hn|]. split; [exact Htr|]. rewrite Hblocks. lia.
Qed.

Lemma run_throughput_test_iterations_witness :
  ∃ w' stats,
    run_throughput_test reply_nist entropy_zero clock_3s 5 bench_com3 5 world_open
      = (w', Return (Some stats))
    ∧ (0 ≤ ts_blocks stats ≤ 1)%Z
    ∧ ts_elapsed_sec stats = 9%Q
    ∧ ∃ gots : list bytes,
        length gots = 1
        ∧ length (List.filter is_write (io_trace w')) = 1
        ∧ ts_blocks stats
          = Z.of_nat (length (List.filter (λ got, length got =? RX_FRAME_SIZE) gots)).
Proof.
  destruct (run_throughput_test_iterations reply_nist entropy_zero clock_3s bench_com3
              5%Q world_open 1 5) as (w' & stats & E & Hb & He & _ & _ & _ & Hex).
  - intros j Hj. assert (j = 0) as -> by lia. reflexivity.
  - reflexivity.
  - lia.
  - reflexivity.
  - discriminate.
  - exists w', stats. split; [exact E|]. split; [exact Hb|]. split; [exact He|].
    destruct (Hex 0 eq_refl eq_refl) as (gots & Hn & Htr & Hblocks).
    exists gots. split; [exact Hn|]. split; [|exact Hblocks].
    rewrite Htr. destruct gots as [|g [|g' gots]]; try discriminate Hn. reflexivity.
Defined.

(** ** The latency test, continued *)

Lemma fold_min_lower_bound (l : list Q) :
  ∀ m0, let m := fold_left (λ m y, if Qltb y m then y else m) l m0 in
        (m <= m0)%Q ∧ ∀ x, x ∈ l → (m <= x)%Q.
Proof.
  induction l as [|y l IH]; intros m0; simpl.
  - split; [apply Qle_refl|]. intros x Hx. by apply elem_of_nil in Hx.
  - destruct (IH (if Qltb y m0 then y else m0)) as [Hle Hall].
    assert ((if Qltb y m0 then y else m0) <= m0
            ∧ (if Qltb y m0 then y else m0) <= y)%Q as [H0 Hy].
    { unfold Qltb. destruct (Qle_bool m0 y) eqn:Hc; simpl.
      - split; [apply Qle_refl|by apply Qle_bool_iff].
      - split; [by apply Qle_bool_total|apply Qle_refl]. }
    split; [eapply Qle_trans; eauto|].
    intros x [->|Hx]%elem_of_cons; [eapply Qle_trans; eauto|by apply Hall].
Qed.

Lemma fold_max_upper_bound (l : list Q) :
  ∀ m0, let m := fold_left (λ m y, if Qltb m y then y else m) l m0 in
        (m0 <= m)%Q ∧ ∀ x, x ∈ l → (x <= m)%Q.
Proof.
  induction l as [|y l IH]; intros m0; simpl.
  - split; [apply Qle_refl|]. intros x Hx. by apply elem_of_nil in Hx.
  - destruct (IH (if Qltb m0 y then y else m0)) as [Hle Hall].
    assert (m0 <= (if Qltb m0 y then y else m0)
            ∧ y <= (if Qltb m0 y then y else m0))%Q as [H0 Hy].
    { unfold Qltb. destruct (Qle_bool y m0) eqn:Hc; simpl.
      - split; [apply Qle_refl|by apply Qle_bool_iff].
      - split; [by apply Qle_bool_total|apply Qle_refl]. }
    split; [eapply Qle_trans; eauto|].
    intros x [->|Hx]%elem_of_cons; [eapply Qle_trans; eauto|by apply Hall].
Qed.

Lemma py_min_Q_lower_bound (l : list Q) (m : Q) :
  py_min Qltb l = Return m → ∀ x, x ∈ l → (m <= x)%Q.
Proof.
  destruct l as [|x0 l]; [discriminate|]. simpl. intros [= <-] x Hx.
  destruct (fold_min_lower_bound l x0) as [H0 Hall].
  apply elem_of_cons in Hx as [->|Hx]; [exact H0|by apply Hall].
Qed.

Lemma py_max_Q_upper_bound (l : list Q) (m : Q) :
  py_max Qltb l = Return m → ∀ x, x ∈ l → (x <= m)%Q.
Proof.
  destruct l as [|x0 l]; [discriminate|]. simpl. intros [= <-] x Hx.
  destruct (fold_max_upper_bound l x0) as [H0 Hall].
  apply elem_of_cons in Hx as [->|Hx]; [exact H0|by apply Hall].
Qed.

Lemma fold_min_Z (l : list Z) :
  ∀ m0, (fold_left (λ m y, if (y <? m)%Z then y else m) l m0 ≤ m0)%Z.
Proof.
  induction l as [|y l IH]; intros m0; simpl; [lia|].
  specialize (IH (if (y <? m0)%Z then y else m0)).
  destruct (Z.ltb_spec y m0); lia.
Qed.

Lemma fold_max_Z (l : list Z) :
  ∀ m0, (m0 ≤ fold_left (λ m y, if (m <? y)%Z then y else m) l m0)%Z.
Proof.
  induction l as [|y l IH]; intros m0; simpl; [lia|].
  specialize (IH (if (m0 <? y)%Z then y else m0)).
  destruct (Z.ltb_spec m0 y); lia.
Qed.

Lemma sorted_lookup_le (l : list Q) :
  Sorted Qle l →
  ∀ i j a b, i ≤ j → l !! i = Some a → l !! j = Some b → (a <= b)%Q.
Proof.
  intros Hsorted.
  apply Sorted_StronglySorted in Hsorted; [|intros x y z; apply Qle_trans].
  induction Hsorted as [|x l _ IH Hall]; intros i j a b Hij Ha Hb; [done|].
  destruct i as [|i], j as [|j]; simpl in *; try lia.
  - simplify_eq. apply Qle_refl.
  - simplify_eq. rewrite List.Forall_forall in Hall. apply Hall.
    apply list_elem_of_In. by eapply list_elem_of_lookup_2.
  - eapply (IH i j); [lia|done|done].
Qed.

(** The statistics of a non-empty sample, field by field. *)
Lemma latency_stats_value (latencies : list Q) (cycles : list Z) :
  latencies ≠ [] → cycles ≠ [] →
  let sorted_lat := py_sort Qle_bool latencies in
  let sorted_cyc := py_sort Z.leb cycles in
  let n := length latencies in
  ∃ lat_min lat_max median p95 p99 cyc_min cyc_max,
    py_min Qltb sorted_lat = Return lat_min
    ∧ py_max Qltb sorted_lat = Return lat_max
    ∧ sorted_lat !! (n / 2) = Some median
    ∧ sorted_lat !! (n * 95 / 100) = Some p95
    ∧ sorted_lat !! (n * 99 / 100) = Some p99
    ∧ py_min Z.ltb sorted_cyc = Return cyc_min
    ∧ py_max Z.ltb sorted_cyc = Return cyc_max
    ∧ latency_stats latencies (Some <$> cycles)
      = Return (LatencyOk
                  (mkLatencyStats n lat_min lat_max
                     (sumQ sorted_lat / inject_Z (Z.of_nat n))
                     median p95 p99 cyc_min cyc_max
                     (inject_Z (sumZ sorted_cyc)
                      / inject_Z (Z.of_nat (length sorted_cyc))))).
Proof.
  intros Hlat Hcyc sorted_lat sorted_cyc n.
  assert (length sorted_lat = n) as Hlen by apply py_sort_length.
  assert (0 < n) as Hn by (by apply nonempty_length).
  assert (sorted_lat ≠ []) as Hsl by (apply nonempty_length; lia).
  assert (sorted_cyc ≠ []) as Hsc.
  { apply nonempty_length. unfold sorted_cyc. rewrite py_sort_length.
    by apply nonempty_length. }
  destruct (py_min_nonempty Qltb sorted_lat Hsl) as [lat_min Hmin].
  destruct (py_max_nonempty Qltb sorted_lat Hsl) as [lat_max Hmax].
  destruct (py_min_nonempty Z.ltb sorted_cyc Hsc) as [cyc_min Hcmin].
  destruct (py_max_nonempty Z.ltb sorted_cyc Hsc) as [cyc_max Hcmax].
  destruct (py_index_in_range sorted_lat (Z.of_nat n / 2)) as (median & Hmed & Hmed').
  { rewrite Hlen. split; [apply Z.div_pos; lia|apply Z.div_lt_upper_bound; lia]. }
  destruct (py_index_in_range sorted_lat (Z.of_nat n * 95 / 100)) as (p95 & Hp95 & Hp95').
  { rewrite Hlen. split; [apply Z.div_pos; lia|apply Z.div_lt_upper_bound; lia]. }
  destruct (py_index_in_range sorted_lat (Z.of_nat n * 99 / 100)) as (p99 & Hp99 & Hp99').
  { rewrite Hlen. split; [apply Z.div_pos; lia|apply Z.div_lt_upper_bound; lia]. }
  exists lat_min, lat_max, median, p95, p99, cyc_min, cyc_max.
  split_and!; try done.
  - rewrite <- Hmed'. f_equal. rewrite Z2Nat.inj_div, Nat2Z.id by lia. done.
  - rewrite <- Hp95'. f_equal.
    rewrite Z2Nat.inj_div, Z2Nat.inj_mul, Nat2Z.id by lia. done.
  - rewrite <- Hp99'. f_equal.
    rewrite Z2Nat.inj_div, Z2Nat.inj_mul, Nat2Z.id by lia. done.
  - unfold latency_stats. destruct latencies as [|l0 latencies]; [done|].
    fold sorted_lat. rewrite all_ints_Some.
    unfold mbind at 1, outcome_bind at 1. fold sorted_cyc.
    rewrite Hlen, Hmin. unfold mbind at 1, outcome_bind at 1.
    rewrite Hmax. unfold mbind at 1, outcome_bind at 1.
    rewrite (py_div_nonzero (sumQ sorted_lat)) by (apply inject_Z_nonzero; lia).
    unfold mbind at 1, outcome_bind at 1.
    rewrite Hmed. unfold mbind at 1, outcome_bind at 1.
    rewrite !py_int_percent by lia.
    rewrite Hp95. unfold mbind at 1, outcome_bind at 1.
    rewrite Hp99. unfold mbind at 1, outcome_bind at 1.
    rewrite Hcmin. unfold mbind at 1, outcome_bind at 1.
    rewrite Hcmax. unfold mbind at 1, outcome_bind at 1.
    rewrite py_div_nonzero.
    2:{ apply inject_Z_nonzero. apply nonempty_length in Hsc. lia. }
    reflexivity.
Qed.

(** X15. The latency figures are ordered.  For a non-empty sample
    [latency_stats] returns statistics in which
    min <= median <= p95 <= p99 <= max, every sample lies between min and
    max, the sample count is the number of samples, and the smallest
    cycle count is at most the largest. *)
Theorem latency_stats_ordered (latencies : list Q) (cycles : list Z) :
  latencies ≠ [] → cycles ≠ [] →
  ∃ stats,
    latency_stats latencies (Some <$> cycles) = Return (LatencyOk stats)
    ∧ ls_samples stats = length latencies
    ∧ (ls_min_latency_ms stats <= ls_median_latency_ms stats)%Q
    ∧ (ls_median_latency_ms stats <= ls_p95_latency_ms stats)%Q
    ∧ (ls_p95_latency_ms stats <= ls_p99_latency_ms stats)%Q
    ∧ (ls_p99_latency_ms stats <= ls_max_latency_ms stats)%Q
    ∧ (∀ x, x ∈ latencies →
         (ls_min_latency_ms stats <= x)%Q ∧ (x <= ls_max_latency_ms stats)%Q)
    ∧ (ls_min_hw_cycles stats ≤ ls_max_hw_cycles stats)%Z.
Proof.
  intros Hlat Hcyc.
  destruct (latency_stats_value latencies cycles Hlat Hcyc)
    as (lat_min & lat_max & median & p95 & p99 & cyc_min & cyc_max
        & Hmin & Hmax & Hmed & Hp95 & Hp99 & Hcmin & Hcmax & ->).
  set (sorted_lat := py_sort Qle_bool latencies) in *.
  set (n := length latencies) in *.
  assert (Sorted Qle sorted_lat) as Hsorted
    by (apply py_sort_sorted; [apply Qle_bool_imp_le|apply Qle_bool_total]).
  assert (∀ x, x ∈ latencies → x ∈ sorted_lat) as Hmem.
  { intros x Hx. eapply elem_of_Permutation_proper; [|exact Hx].
    symmetry. apply py_sort_perm. }
  eexists. split; [reflexivity|]. simpl.
  split_and!; try done.
  - apply (py_min_Q_lower_bound sorted_lat lat_min Hmin).
    by eapply list_elem_of_lookup_2.
  - apply (sorted_lookup_le sorted_lat Hsorted (n / 2) (n * 95 / 100)); [|done|done].
    rewrite <- (Nat.Div0.div_mul_cancel_r n 2 50) by lia.
    apply Nat.Div0.div_le_mono. lia.
  - apply (sorted_lookup_le sorted_lat Hsorted (n * 95 / 100) (n * 99 / 100)); [|done|done].
    apply Nat.Div0.div_le_mono. lia.
  - apply (py_max_Q_upper_bound sorted_lat lat_max Hmax).
    by eapply list_elem_of_lookup_2.
  - intros x Hx. split.
    + by apply (py_min_Q_lower_bound sorted_lat lat_min Hmin), Hmem.
    + by apply (py_max_Q_upper_bound sorted_lat lat_max Hmax), Hmem.
  - destruct (py_sort Z.leb cycles) as [|c0 sc]; [discriminate|].
    simpl in Hcmin, Hcmax. injection Hcmin as <-. injection Hcmax as <-.
    pose proof (fold_min_Z sc c0). pose proof (fold_max_Z sc c0). lia.
Qed.

Lemma latency_stats_ordered_witness :
  ∃ stats,
    latency_stats shuffled_samples ten_cycles = Return (LatencyOk stats)
    ∧ (ls_min_latency_ms stats <= ls_median_latency_ms stats)%Q
    ∧ (ls_p99_latency_ms stats <= ls_max_latency_ms stats)%Q.
Proof.
  destruct (latency_stats_ordered shuffled_samples
              [52; 50; 51; 50; 50; 53; 50; 51; 50; 50]%Z)
    as (stats & E & _ & H1 & _ & _ & H4 & _); [discriminate|discriminate|].
  exists stats. split; [exact E|]. split; [exact H1|exact H4].
Defined.

(** A round trip leaves the connection as open as it was. *)
Lemma encrypt_block_keeps_connected (respond : string → list bytes → bytes)
    (w : World) (self : AESBenchmark) (key plaintext : bytes) :
  connected (encrypt_block respond self key plaintext w).1 self = connected w self.
Proof.
  destruct (encrypt_block_cases respond w self key plaintext)
    as [[_ ->] | [(_ & _ & msg & ->) | (Hc & _ & _ & h & s & Hser & Hs & Hopen & Heq)]];
    [done|done|].
  cbv zeta in Heq. rewrite Heq, Hc. unfold connected, round_trip_world. cbn [fst conns].
  rewrite Hser, list_lookup_insert_eq by (by eapply lookup_lt_Some). done.
Qed.

Lemma fold_min_Z_elem (l : list Z) :
  ∀ m0, fold_left (λ m y, if (y <? m)%Z then y else m) l m0 ∈ m0 :: l.
Proof.
  induction l as [|y l IH]; intros m0; simpl; [apply list_elem_of_here|].
  specialize (IH (if (y <? m0)%Z then y else m0)).
  destruct (y <? m0)%Z; apply elem_of_cons in IH as [->|IH];
    rewrite !elem_of_cons; auto.
Qed.

Lemma fold_max_Z_elem (l : list Z) :
  ∀ m0, fold_left (λ m y, if (m <? y)%Z then y else m) l m0 ∈ m0 :: l.
Proof.
  induction l as [|y l IH]; intros m0; simpl; [apply list_elem_of_here|].
  specialize (IH (if (m0 <? y)%Z then y else m0)).
  destruct (m0 <? y)%Z; apply elem_of_cons in IH as [->|IH];
    rewrite !elem_of_cons; auto.
Qed.

(** One iteration of the latency loop: it returns, and either records
    one latency with its cycle count or leaves both lists alone. *)
Lemma latency_body_step (respond : string → list bytes → bytes)
    (entropy : nat → Byte.byte) (clock : nat → Q)
    (bench : AESBenchmark) (key : bytes) (lat : list Q) (cyc : list Z)
    (i : nat) (w : World) :
  length key = 16 →
  ∃ w' lat' cyc',
    latency_body respond entropy clock bench key (lat, Some <$> cyc) i w
    = (w', Return (lat', Some <$> cyc'))
    ∧ ((lat' = lat ∧ cyc' = cyc)
       ∨ (∃ c, lat' = lat ++ [((clock (Datatypes.S (clock_ix w)) - clock (clock_ix w)) * 1000)%Q]
               ∧ cyc' = cyc ++ [c] ∧ (0 ≤ c < 2 ^ 32)%Z
               ∧ connected w bench = true))
    ∧ connected w' bench = connected w bench
    ∧ (connected w bench = false →
       conns w' = conns w ∧ io_trace w' = io_trace w ∧ lat' = lat).
Proof.
  intros Hk. unfold latency_body.
  destruct (os_urandom_length entropy 16 w) as (plaintext & Ept & Hp).
  unfold mbind at 1, M_bind at 1. rewrite Ept.
  set (w1 := mkWorld (conns w) (io_trace w) (rand_ix w + 16) (clock_ix w)).
  unfold mbind at 1, M_bind at 1, time_now at 1. cbn [conns io_trace rand_ix clock_ix w1].
  set (w2 := mkWorld (conns w) (io_trace w) (rand_ix w + 16) (Datatypes.S (clock_ix w))).
  pose proof (encrypt_block_keeps_connected respond w2 bench key plaintext) as Hkeep.
  destruct (encrypt_block_returns respond w2 bench key plaintext Hk Hp)
    as (w3 & r & Eenc & Hr & _ & Hclk & Hnc).
  rewrite Eenc in Hkeep. cbn [fst] in Hkeep.
  change (connected w2 bench) with (connected w bench) in *.
  unfold mbind at 1, M_bind at 1. rewrite Eenc.
  unfold mbind at 1, M_bind at 1, time_now at 1. rewrite Hclk.
  cbn [clock_ix w2].
  destruct Hr as [-> | (ct & c & -> & _ & Hrange)]; cbn [fst snd].
  - eexists _, lat, cyc. split; [reflexivity|]. split; [by left|].
    split; [exact Hkeep|].
    intros Hconn. destruct (Hnc Hconn) as [-> _]. done.
  - assert (connected w bench = true) as Hconn.
    { destruct (connected w bench) eqn:Hc; [done|].
      destruct (Hnc eq_refl) as [_ Habs]. discriminate. }
    eexists _, _, (cyc ++ [c]). split; [by rewrite fmap_app|].
    split; [right; eauto|]. split; [exact Hkeep|]. congruence.
Qed.

(** X16. [run_latency_test] always returns, whatever the device: either
    the error result "No successful measurements", or statistics over at
    least one and at most [num_samples] samples whose cycle counts are
    32-bit values.  No sample is ever dropped from one list and kept in
    the other, so the statistics never fail on an empty cycle list. *)
Theorem run_latency_test_returns (respond : string → list bytes → bytes)
    (entropy : nat → Byte.byte) (clock : nat → Q)
    (bench : AESBenchmark) (num_samples : Z) (w : World) :
  ∃ w' result,
    run_latency_test respond entropy clock bench num_samples w = (w', Return result)
    ∧ (result = LatencyError "No successful measurements"
       ∨ ∃ stats, result = LatencyOk stats
                  ∧ 1 ≤ ls_samples stats ≤ Z.to_nat num_samples
                  ∧ (0 ≤ ls_min_hw_cycles stats)%Z
                  ∧ (ls_min_hw_cycles stats ≤ ls_max_hw_cycles stats)%Z
                  ∧ (ls_max_hw_cycles stats < 2 ^ 32)%Z
                  ∧ connected w bench = true).
Proof.
  unfold run_latency_test.
  destruct (os_urandom_length entropy 16 w) as (key & Ekey & Hk).
  unfold mbind at 1, M_bind at 1. rewrite Ekey.
  set (w1 := mkWorld (conns w) (io_trace w) (rand_ix w + 16) (clock_ix w)).
  pose (P := λ (n : nat) (w0 : World) (st : list Q * list (option Z)),
          ∃ cyc, st.2 = Some <$> cyc ∧ length st.1 = length cyc
                 ∧ length cyc ≤ n
                 ∧ Forall (λ c, 0 ≤ c < 2 ^ 32)%Z cyc
                 ∧ (cyc ≠ [] → connected w bench = true)
                 ∧ connected w0 bench = connected w bench).
  destruct (for_each_invariant (latency_body respond entropy clock bench key) P)
    with (l := py_range num_samples) (n := 0) (acc := (@nil Q, @nil (option Z))) (w := w1)
    as (w' & [lat cycles] & Eloop & cyc & Hc & Hlen & Hle & Hall & Hconn & _).
  { intros n [l c] i w0 (cyc & Hc & Hlen & Hle & Hall & Hconn & Hcs).
    simpl in *. subst c.
    destruct (latency_body_step respond entropy clock bench key l cyc i w0 Hk)
      as (w2 & lat' & cyc' & E & Hstep & Hkeep & _).
    exists w2, (lat', Some <$> cyc'). split; [exact E|].
    exists cyc'. simpl.
    destruct Hstep as [(-> & ->) | (c & -> & -> & Hr & Hcon)].
    - split_and!; try done; [lia|congruence].
    - rewrite !length_app. simpl. split_and!; try done; try lia.
      + apply Forall_app. split; [done|]. by constructor.
      + intros _. congruence.
      + congruence. }
  { exists []. simpl. split_and!; try done. }
  simpl in *. subst cycles.
  unfold py_range in Hle. rewrite length_seq in Hle. simpl in Hle.
  unfold mbind, M_bind. rewrite Eloop. unfold lift_outcome. cbn [fst snd].
  destruct lat as [|l0 lat].
  - destruct cyc; [|done]. eexists _, _. split; [reflexivity|]. by left.
  - assert (cyc ≠ []) as Hne by (by destruct cyc).
    destruct (latency_stats_value (l0 :: lat) cyc) as
      (lat_min & lat_max & median & p95 & p99 & cyc_min & cyc_max
       & _ & _ & _ & _ & _ & Hcmin & Hcmax & ->); [done|done|].
    eexists _, _. split; [reflexivity|]. right. eexists. split; [reflexivity|].
    cbn [ls_samples ls_min_hw_cycles ls_max_hw_cycles].
    assert (Forall (λ c, 0 ≤ c < 2 ^ 32)%Z (py_sort Z.leb cyc)) as Hall'.
    { rewrite Forall_forall in Hall |- *. intros x Hx. apply Hall.
      eapply elem_of_Permutation_proper; [|exact Hx]. apply py_sort_perm. }
    split; [rewrite Hlen; simpl in *; lia|].
    destruct (py_sort Z.leb cyc) as [|c0 sc] eqn:Hs; [discriminate|].
    simpl in Hcmin, Hcmax. injection Hcmin as <-. injection Hcmax as <-.
    rewrite Forall_forall in Hall'.
    pose proof (Hall' _ (fold_min_Z_elem sc c0)) as Hlo.
    pose proof (Hall' _ (fold_max_Z_elem sc c0)) as Hhi.
    pose proof (fold_min_Z sc c0). pose proof (fold_max_Z sc c0).
    split_and!; [lia|lia|lia|by apply Hconn].
Qed.

(** X17. Without an open connection the latency test measures nothing:
    it returns the error result, and the store and the trace are as
    before. *)
Theorem run_latency_test_not_connected (respond : string → list bytes → bytes)
    (entropy : nat → Byte.byte) (clock : nat → Q)
    (bench : AESBenchmark) (num_samples : Z) (w : World) :
  connected w bench = false →
  ∃ w',
    run_latency_test respond entropy clock bench num_samples w
      = (w', Return (LatencyError "No successful measurements"))
    ∧ conns w' = conns w ∧ io_trace w' = io_trace w.
Proof.
  intros Hconn. unfold run_latency_test.
  destruct (os_urandom_length entropy 16 w) as (key & Ekey & Hk).
  unfold mbind at 1, M_bind at 1. rewrite Ekey.
  set (w1 := mkWorld (conns w) (io_trace w) (rand_ix w + 16) (clock_ix w)).
  pose (P := λ (n : nat) (w0 : World) (st : list Q * list (option Z)),
          conns w0 = conns w ∧ io_trace w0 = io_trace w
          ∧ st = (@nil Q, @nil (option Z))).
  destruct (for_each_invariant (latency_body respond entropy clock bench key) P)
    with (l := py_range num_samples) (n := 0) (acc := (@nil Q, @nil (option Z))) (w := w1)
    as (w' & st & Eloop & Hc & Ht & ->).
  { intros n st i w0 (Hc & Ht & ->).
    assert (connected w0 bench = false) as Hconn0
      by (by rewrite (connected_same_conns w w0 bench Hc)).
    destruct (latency_body_step respond entropy clock bench key [] [] i w0 Hk)
      as (w2 & lat' & cyc' & E & Hstep & _ & Hnc).
    destruct (Hnc Hconn0) as (Hc1 & Ht1 & ->).
    destruct Hstep as [(_ & ->) | (c & Habs & _)]; [|discriminate Habs].
    exists w2, ([], []). split; [exact E|]. split_and!; congruence. }
  { done. }
  exists w'. unfold mbind, M_bind. rewrite Eloop. done.
Qed.

Lemma run_latency_test_not_connected_witness :
  ∃ w',
    run_latency_test reply_nist entropy_zero clock_3s bench_com3 5 world_shut
      = (w', Return (LatencyError "No successful measurements"))
    ∧ conns w' = conns world_shut ∧ io_trace w' = io_trace world_shut.
Proof.
  apply (run_latency_test_not_connected reply_nist entropy_zero clock_3s
           bench_com3 5 world_shut).
  reflexivity.
Defined.

(** ** The bulk test, continued *)

Lemma for_each_invariant_elem {A S : Type} (body : S → A → M S)
    (P : nat → World → S → Prop) (l : list A) :
  (∀ n acc x w, x ∈ l → P n w acc →
     ∃ w' acc', body acc x w = (w', Return acc') ∧ P (Datatypes.S n) w' acc') →
  ∀ n acc w, P n w acc →
    ∃ w' acc', for_each body l acc w = (w', Return acc') ∧ P (n + length l) w' acc'.
Proof.
  induction l as [|x l IH]; intros Hstep n acc w HP; simpl.
  - exists w, acc. rewrite Nat.add_0_r. done.
  - destruct (Hstep n acc x w ltac:(apply list_elem_of_here) HP) as (w1 & acc1 & E1 & HP1).
    destruct (IH (λ n acc y w Hy, Hstep n acc y w (list_elem_of_further _ _ _ Hy))
                (Datatypes.S n) acc1 w1 HP1) as (w2 & acc2 & E2 & HP2).
    exists w2, acc2. unfold mbind, M_bind. rewrite E1, E2.
    split; [done|]. by replace (n + Datatypes.S (length l)) with (Datatypes.S n + length l) by lia.
Qed.

(** One block of the hardware loop: 16 bytes are appended whatever
    happens, and the block counts either as an error or as a cycle
    count. *)
Lemma image_block_body_step (respond : string → list bytes → bytes)
    (bench : AESBenchmark) (key pixels hw : bytes) (cyc : list Z) (errors i : nat)
    (w : World) :
  length key = 16 → length (py_slice pixels (i * 16) ((i + 1) * 16)) = 16 →
  ∃ w' hw' cyc' errors',
    image_block_body respond bench key pixels (hw, Some <$> cyc, errors) i w
    = (w', Return (hw', Some <$> cyc', errors'))
    ∧ length hw' = length hw + 16
    ∧ errors' + length cyc' = Datatypes.S (errors + length cyc)
    ∧ (connected w bench = false →
       conns w' = conns w ∧ io_trace w' = io_trace w
       ∧ hw' = hw ++ replicate 16 Byte.x00 ∧ errors' = errors + 1 ∧ cyc' = cyc).
Proof.
  intros Hk Hb. unfold image_block_body.
  destruct (encrypt_block_returns respond w bench key _ Hk Hb)
    as (w1 & r & Eenc & Hr & _ & _ & Hnc).
  unfold mbind at 1, M_bind at 1. rewrite Eenc.
  destruct Hr as [-> | (ct & c & -> & Hct & _)]; cbn [fst snd].
  - eexists w1, _, cyc, _. split; [reflexivity|].
    rewrite length_app, length_replicate. split; [done|]. split; [lia|].
    intros Hconn. destruct (Hnc Hconn) as [-> _]. done.
  - eexists w1, _, (cyc ++ [c]), _. split; [by rewrite fmap_app|].
    rewrite !length_app, Hct. simpl. split; [done|]. split; [lia|].
    intros Hconn. destruct (Hnc Hconn) as [_ Habs]. discriminate.
Qed.

Lemma hw_encrypt_blocks_shape (respond : string → list bytes → bytes)
    (bench : AESBenchmark) (key pixels : bytes) (num_blocks : nat) (w : World) :
  length key = 16 → 16 * num_blocks ≤ length pixels →
  ∃ w' hw_ciphertext cycles errors,
    hw_encrypt_blocks respond bench key pixels num_blocks w
      = (w', Return (hw_ciphertext, Some <$> cycles, errors))
    ∧ length hw_ciphertext = 16 * num_blocks
    ∧ errors + length cycles = num_blocks
    ∧ (connected w bench = false →
       errors = num_blocks ∧ hw_ciphertext = replicate (16 * num_blocks) Byte.x00
       ∧ conns w' = conns w ∧ io_trace w' = io_trace w).
Proof.
  intros Hk Hlen.
  pose (P := λ (n : nat) (w0 : World) (st : bytes * list (option Z) * nat),
          ∃ cyc, st.1.2 = Some <$> cyc
                 ∧ length st.1.1 = 16 * n
                 ∧ st.2 + length cyc = n
                 ∧ (connected w bench = false →
                    st.2 = n ∧ st.1.1 = replicate (16 * n) Byte.x00
                    ∧ conns w0 = conns w ∧ io_trace w0 = io_trace w)).
  destruct (for_each_invariant_elem
              (image_block_body respond bench key pixels) P (seq 0 num_blocks))
    with (n := 0) (acc := (@nil Byte.byte, @nil (option Z), 0)) (w := w)
    as (w' & [[hw cycles] errors] & Eloop & cyc & Hc & Hhw & Hcount & Hnc).
  { intros n [[hw c] errors] i w0 Hi (cyc & Hc & Hhw & Hcount & Hnc).
    cbn [fst snd] in *. subst c. apply elem_of_seq in Hi.
    destruct (image_block_body_step respond bench key pixels hw cyc errors i w0 Hk)
      as (w1 & hw' & cyc' & errors' & E & Hhw' & Hcount' & Hnc').
    { unfold py_slice. rewrite length_take, length_drop. lia. }
    exists w1, (hw', Some <$> cyc', errors'). split; [exact E|].
    exists cyc'. cbn [fst snd]. split_and!; [done|lia|lia|].
    intros Hconn. destruct (Hnc Hconn) as (He & Hz & Hcs & Htr).
    assert (connected w0 bench = false) as Hconn0
      by (by rewrite (connected_same_conns w w0 bench Hcs)).
    destruct (Hnc' Hconn0) as (Hcs' & Htr' & -> & -> & ->).
    split_and!; [lia| |congruence|congruence].
    rewrite Hz. replace (16 * Datatypes.S n) with (16 * n + 16) by lia.
    by rewrite replicate_add. }
  { exists []. cbn [fst snd]. split_and!; done. }
  cbn [fst snd] in *. subst cycles. rewrite length_seq in *.
  exists w', hw, cyc, errors. unfold hw_encrypt_blocks. split; [exact Eloop|].
  split_and!; done.
Qed.

(** X18. The hardware loop keeps the ciphertext aligned with the input.
    For any device, with a 16-byte key and at least [num_blocks] whole
    blocks of input, [hw_encrypt_blocks] returns: the accumulated
    ciphertext has exactly 16 bytes per block, because a failed block is
    replaced by 16 zero bytes, and every block is counted once, either as
    an error or by its cycle count.  Without an open connection every
    block is an error, the result is all zeros and the transport is not
    touched. *)
Theorem hw_encrypt_blocks_aligned (respond : string → list bytes → bytes)
    (bench : AESBenchmark) (key pixels : bytes) (num_blocks : nat) (w : World) :
  length key = 16 → 16 * num_blocks ≤ length pixels →
  ∃ w' hw_ciphertext cycles errors,
    hw_encrypt_blocks respond bench key pixels num_blocks w
      = (w', Return (hw_ciphertext, Some <$> cycles, errors))
    ∧ length hw_ciphertext = 16 * num_blocks
    ∧ errors + length cycles = num_blocks
    ∧ (connected w bench = false →
       errors = num_blocks ∧ hw_ciphertext = replicate (16 * num_blocks) Byte.x00
       ∧ conns w' = conns w ∧ io_trace w' = io_trace w).
Proof. apply hw_encrypt_blocks_shape. Qed.

Lemma hw_encrypt_blocks_aligned_witness :
  ∃ w' hw_ciphertext cycles errors,
    hw_encrypt_blocks reply_nist bench_com3 NIST_KEY (NIST_PT ++ NIST_PT) 2 world_shut
      = (w', Return (hw_ciphertext, Some <$> cycles, errors))
    ∧ length hw_ciphertext = 32
    ∧ errors + length cycles = 2.
Proof.
  destruct (hw_encrypt_blocks_aligned reply_nist bench_com3 NIST_KEY
              (NIST_PT ++ NIST_PT) 2 world_shut)
    as (w' & hw & cycles & errors & E & Hlen & Hcount & _);
    [reflexivity|vm_compute; lia|].
  exists w', hw, cycles, errors. split; [exact E|]. split; [exact Hlen|exact Hcount].
Defined.

(** X19. The padding is the least one.  [pad_pixels] appends only zero
    bytes, fewer than 16 of them, the result is a whole number of blocks,
    nothing is appended to a buffer that already is, and no shorter
    padding would have aligned the buffer. *)
Theorem pad_pixels_least (pixels : bytes) :
  let padded := (pad_pixels pixels).1 in
  let pad_len := (pad_pixels pixels).2 in
  padded = pixels ++ replicate pad_len Byte.x00
  ∧ pad_len < 16
  ∧ length padded mod 16 = 0
  ∧ (pad_len = 0 ↔ length pixels mod 16 = 0)
  ∧ ∀ k, k < pad_len → (length pixels + k) mod 16 ≠ 0.
Proof.
  intros padded pad_len.
  destruct (pad_pixels_spec pixels) as [Hmod _]. fold padded in Hmod.
  subst padded pad_len. unfold pad_pixels in *.
  pose proof (Nat.mod_upper_bound (length pixels) 16 ltac:(lia)) as Hlt.
  pose proof (Nat.div_mod_eq (length pixels) 16) as Hdm.
  destruct (Nat.eqb_spec (length pixels mod 16) 0) as [Hz|Hnz]; cbn [negb fst snd] in *.
  - split_and!; [by rewrite app_nil_r|lia|done|done|lia].
  - split_and!; [done|lia|done|lia|].
    intros k Hk Habs.
    assert ((length pixels + k) mod 16 = length pixels mod 16 + k) as E.
    { replace (length pixels + k)
        with (length pixels mod 16 + k + length pixels / 16 * 16) by lia.
      rewrite Nat.Div0.mod_add. apply Nat.mod_small. lia. }
    lia.
Qed.

Lemma ecb_apply_aligned (op : bytes → bytes → bytes) (key data : bytes) :
  length key = 16 → length data mod 16 = 0 →
  ecb_apply op key data = Return (concat (map (op key) (blocks_of (length data / 16) data))).
Proof. intros Hk Hmod. unfold ecb_apply. rewrite Hk, Hmod. reflexivity. Qed.

(** X20. The bulk test with any device.  Whatever the accelerator
    answers, [run_image_test] raises nothing but [ZeroDivisionError]
    (from its printed figures) and [OSError] (from the one save that is
    not guarded, and only when the decrypted image cannot be written):
    the padded buffer and the accumulated hardware ciphertext are always
    block-aligned, so neither ECB call rejects its input.  When it
    returns, the hardware ciphertext is as long as the padded buffer, the
    hardware image is saved exactly when its file can be written and
    then has the original length, and the reported result is True exactly
    when the hardware ciphertext equals the software one and decryption
    gave back the original buffer, which then was saved. *)
Theorem run_image_test_outcome (respond : string → list bytes → bytes)
    (entropy : nat → Byte.byte) (clock : nat → Q)
    (aes_encrypt_block aes_decrypt_block : bytes → bytes → bytes)
    (can_save : string → bool)
    (bench : AESBenchmark) (pixels : bytes) (clock_mhz : Q) (w : World) :
  let r := run_image_test respond entropy clock aes_encrypt_block aes_decrypt_block
                          can_save bench pixels clock_mhz w in
  r.2 = Raise ZeroDivisionError
  ∨ (r.2 = Raise OSError ∧ can_save "decrypted" = false)
  ∨ ∃ report,
      r.2 = Return report
      ∧ ir_pixels report = (pad_pixels pixels).1
      ∧ length (ir_hw_ciphertext report) = length (ir_pixels report)
      ∧ ir_saved_hw report
        = (if can_save "hw_encrypted"
           then Some (take (length pixels) (ir_hw_ciphertext report)) else None)
      ∧ (∀ data, ir_saved_hw report = Some data → length data = length pixels)
      ∧ ir_errors report ≤ length (ir_pixels report) / 16
      ∧ (ir_result report = true
         ↔ ir_hw_ciphertext report = ir_sw_ciphertext report
           ∧ ir_saved_decrypted report = Some pixels)
      ∧ (ir_saved_decrypted report ≠ None → can_save "decrypted" = true).
Proof.
  intros r.
  assert (r = run_image_test respond entropy clock aes_encrypt_block aes_decrypt_block
                             can_save bench pixels clock_mhz w) as Hr by reflexivity.
  clearbody r. unfold run_image_test in Hr.
  destruct (pad_pixels_spec pixels) as [Hmod Hprefix].
  set (padded := (pad_pixels pixels).1) in *.
  set (key := map entropy (seq (rand_ix w) 16)).
  assert (length key = 16) as Hk by (subst key; by rewrite List.length_map, length_seq).
  set (n := length padded / 16).
  assert (length padded = 16 * n) as Hlen.
  { pose proof (Nat.div_mod_eq (length padded) 16). subst n. lia. }
  assert (length pixels ≤ length padded) as Hle.
  { rewrite <- Hprefix at 1. rewrite length_take. lia. }
  unfold mbind at 1, M_bind at 1, os_urandom in Hr. fold key in Hr.
  unfold mbind at 1, M_bind at 1, time_now in Hr.
  cbn [rand_ix conns io_trace clock_ix] in Hr.
  set (w4 := mkWorld (conns w) (io_trace w) (rand_ix w + 16) (S (S (S (clock_ix w))))).
  destruct (hw_encrypt_blocks_shape respond bench key padded n w4 Hk ltac:(lia))
    as (w5 & hw & counts & errors & Hloop & Hhw & Hcount & _).
  fold n in Hr.
  unfold mbind at 1, M_bind at 1, lift_outcome at 1 in Hr.
  unfold ecb_encrypt in Hr. rewrite (ecb_apply_aligned _ key padded Hk Hmod) in Hr.
  fold n in Hr.
  set (sw := concat (map (aes_encrypt_block key) (blocks_of n padded))) in Hr.
  unfold mbind at 1, M_bind at 1 in Hr. cbn [rand_ix conns io_trace clock_ix] in Hr.
  unfold mbind at 1, M_bind at 1, lift_outcome at 1 in Hr.
  destruct (py_div_cases (inject_Z (Z.of_nat (length padded)))
              (clock (S (clock_ix w)) - clock (clock_ix w))) as [He1|[q1 He1]];
    rewrite He1 in Hr; [left; by rewrite Hr|].
  unfold mbind at 1, M_bind at 1 in Hr. cbn [rand_ix conns io_trace clock_ix] in Hr.
  unfold mbind at 1, M_bind at 1 in Hr. fold w4 in Hr. rewrite Hloop in Hr.
  unfold mbind at 1, M_bind at 1 in Hr. cbn [rand_ix conns io_trace clock_ix] in Hr.
  unfold mbind at 1, M_bind at 1, lift_outcome at 1 in Hr.
  destruct (py_div_cases (inject_Z (Z.of_nat (length padded)))
              (clock (clock_ix w5) - clock (S (S (clock_ix w))))) as [He2|[q2 He2]];
    rewrite He2 in Hr; [left; by rewrite Hr|].
  unfold mbind at 1, M_bind at 1, lift_outcome at 1 in Hr.
  destruct (hw_timing_report_cases counts n (length padded)
              (clock (clock_ix w5) - clock (S (S (clock_ix w)))) clock_mhz) as [He3|He3];
    rewrite He3 in Hr; [left; by rewrite Hr|].
  unfold mbind at 1, M_bind at 1, lift_outcome at 1 in Hr.
  unfold ecb_decrypt in Hr.
  rewrite (ecb_apply_aligned _ key hw Hk) in Hr
    by (rewrite Hhw, Nat.mul_comm; apply Nat.Div0.mod_mul).
  set (dec := concat (map (aes_decrypt_block key) (blocks_of (length hw / 16) hw))) in Hr.
  rewrite Hprefix in Hr.
  assert (save_encrypted_image can_save (length pixels) hw "hw_encrypted"
          = (if can_save "hw_encrypted" then Some (take (length pixels) hw) else None))
    as Hsaved.
  { unfold save_encrypted_image. rewrite length_take.
    replace (length pixels `min` length hw) with (length pixels) by lia.
    by rewrite Nat.eqb_refl. }
  rewrite Hsaved in Hr.
  assert (∀ data,
            (if can_save "hw_encrypted" then Some (take (length pixels) hw) else None)
            = Some data → length data = length pixels) as Hsavedlen.
  { intros data. destruct (can_save "hw_encrypted"); [|discriminate].
    intros [= <-]. rewrite length_take. lia. }
  destruct (bytes_eqb (take (length pixels) dec) pixels) eqn:Hrec.
  - apply bytes_eqb_eq in Hrec.
    unfold mbind at 1, M_bind at 1, lift_outcome at 1 in Hr.
    destruct (can_save "decrypted") eqn:Hsave.
    + right. right. rewrite Hr. eexists. split; [reflexivity|].
      cbn [ir_pixels ir_hw_ciphertext ir_saved_hw ir_errors ir_result ir_sw_ciphertext
           ir_saved_decrypted].
      fold n. rewrite Hrec.
      split; [done|]. split; [lia|]. split; [done|]. split; [exact Hsavedlen|].
      split; [lia|]. split; [|done].
      rewrite bytes_eqb_eq. split; [intros Hm; by split|intros [Hm _]; exact Hm].
    + right. left. rewrite Hr. done.
  - right. right. rewrite Hr. eexists. split; [reflexivity|].
    cbn [ir_pixels ir_hw_ciphertext ir_saved_hw ir_errors ir_result ir_sw_ciphertext
         ir_saved_decrypted].
    fold n.
    split; [done|]. split; [lia|]. split; [done|]. split; [exact Hsavedlen|].
    split; [lia|]. split; [|done].
    split; [discriminate|intros [_ Habs]; discriminate].
Qed.

Lemma run_image_test_outcome_witness :
  (run_image_test reply_toy entropy_zero clock_3s toy_block toy_block (λ _, false)
                  bench_com3 twenty_pixels 100 world_open).2 = Raise OSError
  ∧ ∃ report,
      (run_image_test reply_nothing entropy_zero clock_3s toy_block toy_block
                      (λ _, true) bench_com3 twenty_pixels 100 world_open).2
      = Return report
      ∧ ir_result report = false ∧ ir_errors report = 2
      ∧ ir_saved_decrypted report = None.
Proof.
  split.
  - destruct (run_image_test_outcome reply_toy entropy_zero clock_3s toy_block toy_block
                (λ _, false) bench_com3 twenty_pixels 100 world_open)
      as [H | [[H _] | (report & H & _)]];
      [vm_compute in H; discriminate|exact H|vm_compute in H; discriminate].
  - destruct (run_image_test_outcome reply_nothing entropy_zero clock_3s toy_block
                toy_block (λ _, true) bench_com3 twenty_pixels 100 world_open)
      as [H | [[H _] | (report & H & _)]];
      [vm_compute in H; discriminate|vm_compute in H; discriminate|].
    exists report. split; [exact H|]. vm_compute in H. by injection H as <-.
Defined.

(** ** The command-line driver *)

Section DriverPreservation.

Context (R : World → World → Prop) `{!PreOrder R}.
Context (respond : string → list bytes → bytes) (entropy : nat → Byte.byte)
        (clock : nat → Q) (aes_encrypt_block aes_decrypt_block : bytes → bytes → bytes)
        (can_save : string → bool)
        (HAS_PIL : bool) (load_pixels : string → option bytes)
        (bench : AESBenchmark).
Hypothesis R_urandom : ∀ n, preserves R (os_urandom entropy n).
Hypothesis R_time : preserves R (time_now clock).
Hypothesis R_encrypt :
  ∀ key plaintext, preserves R (encrypt_block respond bench key plaintext).

Lemma preserves_run_image_test_path (image_path : string) (clock_mhz : Q) :
  preserves R (run_image_test_path respond entropy clock aes_encrypt_block
                                   aes_decrypt_block can_save HAS_PIL load_pixels
                                   bench image_path clock_mhz).
Proof.
  unfold run_image_test_path.
  destruct (negb HAS_PIL); [apply preserves_ret; apply _|].
  destruct (load_pixels image_path); [|apply preserves_ret; apply _].
  apply preserves_bind; [apply _|by apply preserves_run_image_test|].
  intros report. apply preserves_ret; apply _.
Qed.

Lemma preserves_main_tests (fuel : nat) (args : Args) :
  preserves R (main_tests respond entropy clock aes_encrypt_block aes_decrypt_block
                          can_save HAS_PIL load_pixels fuel args bench).
Proof.
  unfold main_tests.
  apply preserves_bind; [apply _| |intros all_passed1].
  { destruct (negb (arg_skip_nist args)); [|apply preserves_ret; apply _].
    apply preserves_bind; [apply _|by apply preserves_run_nist_test_vector|].
    intros ok. apply preserves_ret; apply _. }
  apply preserves_bind; [apply _| |intros all_passed2].
  { destruct (negb (arg_skip_random args)); [|apply preserves_ret; apply _].
    apply preserves_bind; [apply _|by apply preserves_run_random_tests|].
    intros stats. apply preserves_ret; apply _. }
  apply preserves_bind; [apply _| |intros finished].
  { destruct (negb (arg_skip_throughput args)); [|apply preserves_ret; apply _].
    apply preserves_bind; [apply _|by apply preserves_run_throughput_test|].
    intros [stats|]; [|apply preserves_ret; apply _].
    apply preserves_bind; [apply _|apply preserves_lift; apply _|].
    intros _. apply preserves_ret; apply _. }
  destruct (negb finished); [apply preserves_ret; apply _|].
  apply preserves_bind; [apply _| |intros _].
  { destruct (negb (arg_skip_latency args)); [|apply preserves_ret; apply _].
    apply preserves_bind; [apply _|by apply preserves_run_latency_test|].
    intros result. apply preserves_lift; apply _. }
  apply preserves_bind; [apply _| |intros all_passed3; apply preserves_ret; apply _].
  destruct (py_truthy (arg_image args)); [|apply preserves_ret; apply _].
  apply preserves_bind; [apply _|apply preserves_run_image_test_path|].
  intros ok. apply preserves_ret; apply _.
Qed.

End DriverPreservation.

(** The tests followed by the [finally] clause: the connection of the
    benchmark object ends closed, on every exit path, and no other
    connection is touched. *)
Lemma tests_then_disconnect (respond : string → list bytes → bytes)
    (entropy : nat → Byte.byte) (clock : nat → Q)
    (aes_encrypt_block aes_decrypt_block : bytes → bytes → bytes)
    (can_save : string → bool)
    (HAS_PIL : bool) (load_pixels : string → option bytes)
    (fuel : nat) (args : Args) (bench : AESBenchmark) (h : nat) (w : World) :
  ser bench = Some h → h < length (conns w) →
  let r := try_finally
             (main_tests respond entropy clock aes_encrypt_block aes_decrypt_block
                         can_save HAS_PIL load_pixels fuel args bench)
             (disconnect bench) w in
  length (conns r.1) = length (conns w)
  ∧ (∀ h', h' ≠ h → conns r.1 !! h' = conns w !! h')
  ∧ (∃ s, conns r.1 !! h = Some s ∧ is_open s = false)
  ∧ (r.2 = (main_tests respond entropy clock aes_encrypt_block aes_decrypt_block
                       can_save HAS_PIL load_pixels fuel args bench w).2).
Proof.
  intros Hser Hh r. subst r. unfold try_finally.
  assert (conns_outside (Some h) w
            (main_tests respond entropy clock aes_encrypt_block aes_decrypt_block
                        can_save HAS_PIL load_pixels fuel args bench w).1) as [Hlen Hout].
  { rewrite <- Hser.
    apply (preserves_main_tests (conns_outside (ser bench))).
    - intros n w0. by apply same_store_conns_outside.
    - intros w0. by apply same_store_conns_outside.
    - apply encrypt_block_conns_outside. }
  destruct (main_tests respond entropy clock aes_encrypt_block aes_decrypt_block
                       can_save HAS_PIL load_pixels fuel args bench w) as [w1 o].
  cbn [fst snd] in *.
  destruct (lookup_lt_is_Some_2 (conns w1) h ltac:(lia)) as [s1 Hs1].
  destruct (disconnect_cases w1 bench)
    as [[Hconn ->] | (h0 & s & Hser0 & Hs & Hopen & ->)]; cbn [fst snd conns].
  - split; [exact Hlen|]. split; [intros h' Hne; apply Hout; congruence|].
    split; [|done]. exists s1. split; [exact Hs1|].
    unfold connected in Hconn. by rewrite Hser, Hs1 in Hconn.
  - assert (h0 = h) as -> by congruence.
    split; [by rewrite length_insert|].
    split; [intros h' Hne; rewrite list_lookup_insert_ne by done; apply Hout; congruence|].
    split; [|done]. eexists. split; [apply list_lookup_insert_eq; lia|done].
Qed.

(** The timeouts [main] uses are accepted, so its settings are accepted
    exactly when the baud rate of the command line is not negative. *)
Lemma settings_of_baud (baud : Z) (tmo : Q) :
  (0 <= tmo)%Q → (settings_accepted baud tmo ↔ (0 ≤ baud)%Z).
Proof. intros Ht. unfold settings_accepted. tauto. Qed.

(** How [main] obtains its benchmark object: by discovery or on the
    given port.  Whatever happens, the connections that were in the store
    are untouched, and every connection opened on the way is closed again
    except the one handed on.  A negative baud rate raises at the first
    open attempt, before anything is opened. *)
Lemma main_find_device (can_open : string → bool) (boot_noise : string → bytes)
    (respond : string → list bytes → bytes) (comports : list (string * string))
    (args : Args) (w : World) :
  let find : M (option AESBenchmark) :=
    if arg_auto args || negb (bool_decide (is_Some (arg_port args))) then
      auto_detect can_open boot_noise respond comports (arg_baud args) 1
    else
      r ← connect can_open boot_noise
                  (new_bench (default ""%string (arg_port args)) (arg_baud args) 2);
      if negb r.2 then mret None else mret (Some r.1) in
  (∀ h, h < length (conns w) → conns (find w).1 !! h = conns w !! h)
  ∧ ((find w).2 = Return None ∧ opened_are_closed (length (conns w)) None (find w).1
     ∨ ((arg_baud args < 0)%Z ∧ ∃ msg, find w = (w, Raise (ValueError msg)))
     ∨ ∃ bench h,
         (0 ≤ arg_baud args)%Z
         ∧ (find w).2 = Return (Some bench) ∧ ser bench = Some h
         ∧ length (conns w) ≤ h < length (conns (find w).1)
         ∧ connected (find w).1 bench = true
         ∧ opened_are_closed (length (conns w)) (Some h) (find w).1).
Proof.
  intros find. subst find.
  assert (opened_are_closed (length (conns w)) None w) as Hnone.
  { intros h s Hh _ Hlook. apply lookup_lt_Some in Hlook. lia. }
  destruct (arg_auto args || negb (bool_decide (is_Some (arg_port args)))).
  - destruct comports as [|p ports].
    { split; [done|]. left. done. }
    destruct (Z.lt_ge_cases (arg_baud args) 0) as [Hneg|Hpos].
    { destruct (auto_detect_rejects can_open boot_noise respond (p :: ports)
                  (arg_baud args) 1 w) as [msg E]; [|done|].
      { rewrite settings_of_baud by done. lia. }
      rewrite E. split; [done|]. right. left. split; [exact Hneg|by exists msg]. }
    assert (settings_accepted (arg_baud args) 1) as Hset
      by (by apply settings_of_baud).
    unfold auto_detect.
    destruct (auto_detect_scan_spec can_open boot_noise respond (arg_baud args) 1
                (p :: ports) Hset w (length (conns w)) ltac:(lia) Hnone)
      as [Hframe Hpost].
    split; [exact Hframe|]. unfold discovery_post in Hpost.
    destruct (List.find (candidate_matches can_open respond) (p :: ports)) as [q|].
    + destruct Hpost as (h & s & E & Hlo & Hs & Hopen & _ & Hclosed).
      right. right. eexists _, h. split; [exact Hpos|]. split; [exact E|].
      split; [done|].
      split; [split; [exact Hlo|by eapply lookup_lt_Some]|].
      split; [|exact Hclosed]. unfold connected. cbn [ser]. by rewrite Hs.
    + left. exact Hpost.
  - destruct (connect_cases can_open boot_noise w
                (new_bench (default ""%string (arg_port args)) (arg_baud args) 2))
      as [(Hbad & msg & E) | [(Hset & _ & w1 & E & Hc & _)
                             | (Hset & _ & w1 & E & Hc & _)]];
      unfold mbind, M_bind; rewrite E; cbn.
    + split; [done|]. right. left. split; [|by exists msg].
      cbn in Hbad. rewrite settings_of_baud in Hbad by done. lia.
    + split; [by rewrite Hc|]. left. split; [done|].
      intros h s Hh Hk. rewrite Hc. by apply Hnone.
    + split; [intros h Hh; rewrite Hc; by apply lookup_app_l|].
      right. right. eexists _, (length (conns w)).
      split; [destruct Hset as [Hb _]; exact Hb|].
      split; [reflexivity|]. split; [done|].
      split; [rewrite Hc, length_app; simpl; lia|].
      split.
      * unfold connected. cbn [ser]. rewrite Hc, list_lookup_middle by done. done.
      * intros h s Hh Hne. rewrite Hc. intros Hlook.
        pose proof (lookup_lt_Some _ _ _ Hlook) as Hb.
        rewrite length_app in Hb. simpl in Hb.
        exfalso. apply Hne. f_equal. lia.
Qed.

(** X21. [main] closes what it opens.  On every exit path, for every
    command line and every device, including when a test raises, the
    connections that existed before the run are exactly as they were and
    every connection opened during the run is closed at the end. *)
Theorem main_closes_connections (can_open : string → bool) (boot_noise : string → bytes)
    (respond : string → list bytes → bytes) (entropy : nat → Byte.byte)
    (clock : nat → Q) (aes_encrypt_block aes_decrypt_block : bytes → bytes → bytes)
    (can_save : string → bool)
    (comports : list (string * string)) (HAS_PIL : bool)
    (load_pixels : string → option bytes) (fuel : nat) (args : Args) (w : World) :
  let w' := (main can_open boot_noise respond entropy clock aes_encrypt_block
                  aes_decrypt_block can_save comports HAS_PIL load_pixels
                  fuel args w).1 in
  (∀ h, h < length (conns w) → conns w' !! h = conns w !! h)
  ∧ opened_are_closed (length (conns w)) None w'.
Proof.
  intros w'. subst w'. unfold main.
  assert (opened_are_closed (length (conns w)) None w) as Hnone.
  { intros h s Hh _ Hlook. apply lookup_lt_Some in Hlook. lia. }
  destruct (arg_list_ports args); [split; [done|exact Hnone]|].
  destruct (main_find_device can_open boot_noise respond comports args w)
    as [Hframe Hfound].
  cbv zeta in Hframe, Hfound.
  set (find := if arg_auto args || negb (bool_decide (is_Some (arg_port args)))
               then auto_detect can_open boot_noise respond comports (arg_baud args) 1
               else connect can_open boot_noise
                      (new_bench (default ""%string (arg_port args)) (arg_baud args) 2)
                    ≫= (λ r, if negb r.2 then mret None else mret (Some r.1))) in *.
  unfold mbind, M_bind. destruct (find w) as [w1 found].
  cbn [fst snd] in *.
  destruct Hfound as [[-> Hclosed]
                     | [(_ & msg & [= -> ->])
                       | (bench & h & _ & -> & Hser & [Hlo Hhi] & _ & Hclosed)]].
  - split; [exact Hframe|exact Hclosed].
  - split; [done|exact Hnone].
  - destruct (tests_then_disconnect respond entropy clock aes_encrypt_block
                aes_decrypt_block can_save HAS_PIL load_pixels fuel args bench h w1
                Hser Hhi)
      as (Hlen & Hout & (s & Hs & Hshut) & _).
    cbv zeta in Hlen, Hout, Hs. split.
    + intros h' Hh'. rewrite Hout by lia. by apply Hframe.
    + intros h' s' Hh' _ Hlook.
      destruct (decide (h' = h)) as [->|Hne]; [congruence|].
      rewrite Hout in Hlook by done. apply (Hclosed h' s' Hh'); [congruence|done].
Qed.

Lemma M_bind_inv {A B : Type} (m : M A) (k : A → M B) (w w' : World) (b : B) :
  (m ≫= k) w = (w', Return b) →
  ∃ w1 a, m w = (w1, Return a) ∧ k a w1 = (w', Return b).
Proof.
  unfold mbind, M_bind. destruct (m w) as [w1 [a|e]]; [eauto|discriminate].
Qed.

(** What exit status 0 of the tests stands for: each check that was not
    skipped has run, in the world the checks before it left, and
    passed. *)
Lemma main_tests_exit_zero (respond : string → list bytes → bytes)
    (entropy : nat → Byte.byte) (clock : nat → Q)
    (aes_encrypt_block aes_decrypt_block : bytes → bytes → bytes)
    (can_save : string → bool)
    (HAS_PIL : bool) (load_pixels : string → option bytes)
    (fuel : nat) (args : Args) (bench : AESBenchmark) (w w' : World) :
  main_tests respond entropy clock aes_encrypt_block aes_decrypt_block
             can_save HAS_PIL load_pixels fuel args bench w = (w', Return (Some 0%Z)) →
  let w1 := if arg_skip_nist args then w
            else (run_nist_test_vector respond bench w).1 in
  let w2 := if arg_skip_random args then w1
            else (run_random_tests respond entropy aes_encrypt_block bench
                    (arg_random_tests args) w1).1 in
  let w3 := if arg_skip_throughput args then w2
            else (run_throughput_test respond entropy clock fuel bench
                    (arg_throughput_time args) w2).1 in
  let w4 := if arg_skip_latency args then w3
            else (run_latency_test respond entropy clock bench
                    (arg_latency_samples args) w3).1 in
  (arg_skip_nist args = false →
   (run_nist_test_vector respond bench w).2 = Return true)
  ∧ (arg_skip_random args = false →
     ∃ stats,
       (run_random_tests respond entropy aes_encrypt_block bench
          (arg_random_tests args) w1).2 = Return stats
       ∧ rs_failed stats = 0%Z
       ∧ rs_passed stats = Z.max 0 (arg_random_tests args))
  ∧ (py_truthy (arg_image args) = true →
     run_image_test_path respond entropy clock aes_encrypt_block aes_decrypt_block
       can_save HAS_PIL load_pixels bench (default ""%string (arg_image args))
       (arg_clock_mhz args) w4 = (w', Return true)).
Proof.
  intros H w1 w2 w3 w4. unfold main_tests in H.
  apply M_bind_inv in H as (v1 & ap1 & E1 & H).
  apply M_bind_inv in H as (v2 & ap2 & E2 & H).
  apply M_bind_inv in H as (v3 & finished & E3 & H).
  destruct finished; cbn [negb] in H; [|discriminate].
  apply M_bind_inv in H as (v4 & [] & E4 & H).
  apply M_bind_inv in H as (v5 & ap3 & E5 & H).
  injection H as <- Hap3.
  assert (ap3 = true) as -> by (by destruct ap3).
  assert (ap1 = true ∧ v1 = w1
          ∧ (arg_skip_nist args = false →
             (run_nist_test_vector respond bench w).2 = Return true)) as (-> & -> & Hnist).
  { assert (ap2 = true → ap1 = true) as Hup.
    { destruct (arg_skip_random args); cbn [negb] in E2.
      - by injection E2 as _ ->.
      - apply M_bind_inv in E2 as (w6 & stats & _ & Hret).
        injection Hret as _ <-. by destruct (rs_failed stats >? 0)%Z. }
    assert (ap2 = true) as Hap2.
    { destruct (py_truthy (arg_image args)).
      - apply M_bind_inv in E5 as (w6 & ok & _ & Hret).
        injection Hret as _ Hret. by destruct ok.
      - by injection E5 as _ ->. }
    specialize (Hup Hap2). subst ap1 w1.
    destruct (arg_skip_nist args); cbn [negb] in E1.
    - injection E1 as ->. done.
    - apply M_bind_inv in E1 as (w6 & ok & E1 & Hret).
      injection Hret as <- Hret. destruct ok; cbn [negb] in Hret; [|discriminate].
      rewrite E1. done. }
  assert (ap2 = true ∧ v2 = w2
          ∧ (arg_skip_random args = false →
             ∃ stats,
               run_random_tests respond entropy aes_encrypt_block bench
                 (arg_random_tests args) w1 = (w2, Return stats)
               ∧ (rs_failed stats >? 0)%Z = false)) as (-> & -> & Hrand).
  { subst w2. destruct (arg_skip_random args); cbn [negb] in E2.
    - injection E2 as <- <-. done.
    - apply M_bind_inv in E2 as (w6 & stats & E2 & Hret).
      injection Hret as <- Hret.
      destruct (rs_failed stats >? 0)%Z eqn:Hf.
      + exfalso. subst ap2.
        destruct (py_truthy (arg_image args)).
        * apply M_bind_inv in E5 as (w7 & ok & _ & Hret).
          injection Hret as _ Hret. by destruct ok.
        * by injection E5 as _ Habs.
      + rewrite E2. split; [done|]. split; [done|]. intros _. by exists stats. }
  assert (v3 = w3) as ->.
  { subst w3. destruct (arg_skip_throughput args); cbn [negb] in E3.
    - by injection E3 as ->.
    - apply M_bind_inv in E3 as (w6 & r & E3 & Hret). rewrite E3. cbn [fst].
      destruct r as [stats|]; [|by injection Hret as ->].
      apply M_bind_inv in Hret as (w7 & [] & Hlift & Hret).
      unfold lift_outcome in Hlift. injection Hlift as -> _.
      by injection Hret as ->. }
  assert (v4 = w4) as ->.
  { subst w4. destruct (arg_skip_latency args); cbn [negb] in E4.
    - by injection E4 as ->.
    - apply M_bind_inv in E4 as (w6 & result & E4 & Hret). rewrite E4. cbn [fst].
      unfold lift_outcome in Hret. by injection Hret as -> _. }
  split; [exact Hnist|]. split.
  - intros Hr. destruct (Hrand Hr) as (stats & E & Hf).
    exists stats. rewrite E. split; [done|].
    destruct (run_random_tests_figures respond entropy aes_encrypt_block bench
                (arg_random_tests args) w1)
      as (w6 & stats' & E' & _ & _ & Hf0 & Hsum & _).
    rewrite E in E'. injection E' as _ <-.
    rewrite Z.gtb_ltb in Hf. apply Z.ltb_ge in Hf. lia.
  - intros Hi. rewrite Hi in E5.
    apply M_bind_inv in E5 as (w6 & ok & E5 & Hret).
    injection Hret as <- Hret. destruct ok; cbn [negb] in Hret; [|discriminate].
    exact E5.
Qed.

(** X22. Exit status 0 means that every enabled check passed.  When
    [main], not asked to list the ports, returns 0, its baud rate was
    accepted, it had obtained a connected benchmark object (by discovery
    or on the given port), and on that object, each check running in the
    world the enabled checks before it left: the known-vector check
    returned True unless skipped; the random test, unless skipped,
    counted no failure and as many passes as tests; and the bulk test,
    when an image was given, returned True. *)
Theorem main_exit_zero (can_open : string → bool) (boot_noise : string → bytes)
    (respond : string → list bytes → bytes) (entropy : nat → Byte.byte)
    (clock : nat → Q) (aes_encrypt_block aes_decrypt_block : bytes → bytes → bytes)
    (can_save : string → bool)
    (comports : list (string * string)) (HAS_PIL : bool)
    (load_pixels : string → option bytes) (fuel : nat) (args : Args) (w : World) :
  arg_list_ports args = false →
  (main can_open boot_noise respond entropy clock aes_encrypt_block
        aes_decrypt_block can_save comports HAS_PIL load_pixels fuel args w).2
  = Return (Some 0%Z) →
  ∃ bench w0,
    (0 ≤ arg_baud args)%Z
    ∧ (if arg_auto args || negb (bool_decide (is_Some (arg_port args)))
       then auto_detect can_open boot_noise respond comports (arg_baud args) 1 w
            = (w0, Return (Some bench))
       else connect can_open boot_noise
              (new_bench (default ""%string (arg_port args)) (arg_baud args) 2) w
            = (w0, Return (bench, true)))
    ∧ connected w0 bench = true
    ∧ let w1 := if arg_skip_nist args then w0
                else (run_nist_test_vector respond bench w0).1 in
      let w2 := if arg_skip_random args then w1
                else (run_random_tests respond entropy aes_encrypt_block bench
                        (arg_random_tests args) w1).1 in
      let w3 := if arg_skip_throughput args then w2
                else (run_throughput_test respond entropy clock fuel bench
                        (arg_throughput_time args) w2).1 in
      let w4 := if arg_skip_latency args then w3
                else (run_latency_test respond entropy clock bench
                        (arg_latency_samples args) w3).1 in
      (arg_skip_nist args = false →
       (run_nist_test_vector respond bench w0).2 = Return true)
      ∧ (arg_skip_random args = false →
         ∃ stats,
           (run_random_tests respond entropy aes_encrypt_block bench
              (arg_random_tests args) w1).2 = Return stats
           ∧ rs_failed stats = 0%Z
           ∧ rs_passed stats = Z.max 0 (arg_random_tests args))
      ∧ (py_truthy (arg_image args) = true →
         (run_image_test_path respond entropy clock aes_encrypt_block
            aes_decrypt_block can_save HAS_PIL load_pixels bench
            (default ""%string (arg_image args)) (arg_clock_mhz args) w4).2
         = Return true).
Proof.
  intros Hlist Hexit. unfold main in Hexit. rewrite Hlist in Hexit.
  destruct (main_find_device can_open boot_noise respond comports args w)
    as [_ Hfound].
  cbv zeta in Hfound.
  set (find := if arg_auto args || negb (bool_decide (is_Some (arg_port args)))
               then auto_detect can_open boot_noise respond comports (arg_baud args) 1
               else connect can_open boot_noise
                      (new_bench (default ""%string (arg_port args)) (arg_baud args) 2)
                    ≫= (λ r, if negb r.2 then mret None else mret (Some r.1))) in *.
  unfold mbind, M_bind in Hexit.
  destruct (find w) as [w0 found] eqn:Efind. cbn [fst snd] in *.
  destruct Hfound as [[-> _]
                     | [(_ & msg & [= -> ->])
                       | (bench & h & Hbaud & -> & Hser & [_ Hhi] & Hconn & _)]];
    [discriminate|discriminate|].
  destruct (tests_then_disconnect respond entropy clock aes_encrypt_block
              aes_decrypt_block can_save HAS_PIL load_pixels fuel args bench h w0
              Hser Hhi)
    as (_ & _ & _ & Hsame).
  cbv zeta in Hsame. rewrite Hsame in Hexit.
  destruct (main_tests respond entropy clock aes_encrypt_block aes_decrypt_block
                       can_save HAS_PIL load_pixels fuel args bench w0)
    as [w5 o] eqn:Etests.
  cbn [snd] in Hexit. subst o.
  pose proof (main_tests_exit_zero _ _ _ _ _ _ _ _ _ _ _ _ _ Etests) as Hzero.
  cbv zeta in Hzero. destruct Hzero as (Hnist & Hrand & Himg).
  exists bench, w0. split; [exact Hbaud|]. split.
  { subst find. destruct (arg_auto args || negb (bool_decide (is_Some (arg_port args))));
      [exact Efind|].
    unfold mbind, M_bind in Efind.
    destruct (connect_cases can_open boot_noise w
                (new_bench (default ""%string (arg_port args)) (arg_baud args) 2))
      as [(_ & msg & E) | [(_ & _ & w1 & E & _) | (_ & _ & w1 & E & _)]];
      rewrite E in Efind |- *; cbn in Efind; [discriminate|discriminate|].
    by injection Efind as -> <-. }
  split; [exact Hconn|]. cbv zeta.
  split; [exact Hnist|]. split; [exact Hrand|].
  intros Hi. by rewrite (Himg Hi).
Qed.

Lemma main_exit_zero_witness :
  ∃ bench w0,
    auto_detect three_can_open three_noise three_respond three_ports 115200 1 world_empty
      = (w0, Return (Some bench))
    ∧ connected w0 bench = true
    ∧ (run_nist_test_vector three_respond bench w0).2 = Return true.
Proof.
  destruct (main_exit_zero three_can_open three_noise three_respond entropy_zero
              clock_3s toy_block toy_block (λ _, true) three_ports false (λ _, None) 0
              args_auto_nist_only world_empty)
    as (bench & w0 & _ & Efind & Hconn & Hnist & _);
    [reflexivity|vm_compute; reflexivity|].
  exists bench, w0. split; [exact Efind|]. split; [exact Hconn|].
  apply Hnist. reflexivity.
Defined.

(** X23. Without a device [main] gives up.  With a baud rate that is not
    negative, when discovery is in force and no listed port both opens
    and answers the known vector, or when the named port cannot be
    opened, [main] returns 1 and runs no test: the world it leaves is the
    one discovery left or, for a named port, the starting world with the
    failed open recorded.  With a negative baud rate the first open
    attempt raises [ValueError], which leaves [main] with the world
    untouched; only discovery over an empty port list, which attempts
    nothing, still returns 1. *)
Theorem main_exit_without_device (can_open : string → bool)
    (boot_noise : string → bytes)
    (respond : string → list bytes → bytes) (entropy : nat → Byte.byte)
    (clock : nat → Q) (aes_encrypt_block aes_decrypt_block : bytes → bytes → bytes)
    (can_save : string → bool)
    (comports : list (string * string)) (HAS_PIL : bool)
    (load_pixels : string → option bytes) (fuel : nat) (args : Args) (w : World) :
  arg_list_ports args = false →
  let r := main can_open boot_noise respond entropy clock aes_encrypt_block
                aes_decrypt_block can_save comports HAS_PIL load_pixels fuel args w in
  let discovery := arg_auto args || negb (bool_decide (is_Some (arg_port args))) in
  ((0 ≤ arg_baud args)%Z →
   (if discovery
    then List.find (candidate_matches can_open respond) comports = None
    else can_open (default ""%string (arg_port args)) = false) →
   r.2 = Return (Some 1%Z)
   ∧ r.1 = (if discovery
            then (auto_detect can_open boot_noise respond comports (arg_baud args) 1 w).1
            else mkWorld (conns w)
                         (io_trace w ++ [IoOpenFailed (default ""%string (arg_port args))])
                         (rand_ix w) (clock_ix w)))
  ∧ ((arg_baud args < 0)%Z →
     (if discovery then comports ≠ [] else True) →
     ∃ msg, r = (w, Raise (ValueError msg)))
  ∧ ((arg_baud args < 0)%Z → discovery = true → comports = [] →
     r = (w, Return (Some 1%Z))).
Proof.
  intros Hlist r discovery. subst r discovery. unfold main. rewrite Hlist.
  split_and!.
  - intros Hbaud Hnone.
    destruct (arg_auto args || negb (bool_decide (is_Some (arg_port args)))).
    + pose proof (auto_detect_returns can_open boot_noise respond comports
                    (arg_baud args) 1 w) as Hpost.
      rewrite Hnone in Hpost. destruct Hpost as [Hret _].
      { by apply settings_of_baud. }
      unfold mbind, M_bind.
      destruct (auto_detect can_open boot_noise respond comports (arg_baud args) 1 w)
        as [w1 o]. cbn [snd] in Hret. subst o. done.
    + destruct (connect_cases can_open boot_noise w
                  (new_bench (default ""%string (arg_port args)) (arg_baud args) 2))
        as [(Hbad & _) | [(_ & _ & w1 & E & Hc & Ht) | (_ & Hyes & _)]].
      * destruct Hbad. cbn. by apply (settings_of_baud _ 2).
      * unfold mbind, M_bind. rewrite E. cbn. split; [done|].
        destruct w1 as [c t ri ci]. cbn in Hc, Ht. subst c t.
        unfold connect, serial_open, mbind, M_bind in E. cbn in E.
        destruct (arg_baud args <? 0)%Z; [discriminate|].
        rewrite Hnone in E. cbn in E. by injection E as -> ->.
      * cbn in Hyes. congruence.
  - intros Hneg Hports.
    assert (∀ tmo, (0 <= tmo)%Q → ¬ settings_accepted (arg_baud args) tmo) as Hbad.
    { intros tmo Ht. rewrite settings_of_baud by done. lia. }
    destruct (arg_auto args || negb (bool_decide (is_Some (arg_port args)))).
    + destruct (auto_detect_rejects can_open boot_noise respond comports
                  (arg_baud args) 1 w (Hbad 1%Q ltac:(done)) Hports) as [msg E].
      exists msg. unfold mbind, M_bind. by rewrite E.
    + destruct (connect_rejects can_open boot_noise w
                  (new_bench (default ""%string (arg_port args)) (arg_baud args) 2)
                  (Hbad 2%Q ltac:(done))) as [msg E].
      exists msg. unfold mbind, M_bind. by rewrite E.
  - intros _ -> ->. reflexivity.
Qed.

Lemma main_exit_without_device_witness :
  (main three_can_open three_noise three_respond entropy_zero clock_3s toy_block
        toy_block (λ _, true) three_ports false (λ _, None) 0
        (args_port_nist_only "COM3") world_empty).2
  = Return (Some 1%Z)
  ∧ ∃ msg,
      main three_can_open three_noise three_respond entropy_zero clock_3s toy_block
           toy_block (λ _, true) three_ports false (λ _, None) 0
           (mkArgs (Some "COM2"%string) false (-1) false 100 5 100
                   false true true true 100 None) world_empty
      = (world_empty, Raise (ValueError msg)).
Proof.
  split.
  - apply (main_exit_without_device three_can_open three_noise three_respond
             entropy_zero clock_3s toy_block toy_block (λ _, true) three_ports false
             (λ _, None) 0 (args_port_nist_only "COM3") world_empty);
      [reflexivity|cbn; lia|reflexivity].
  - apply (main_exit_without_device three_can_open three_noise three_respond
             entropy_zero clock_3s toy_block toy_block (λ _, true) three_ports false
             (λ _, None) 0
             (mkArgs (Some "COM2"%string) false (-1) false 100 5 100
                     false true true true 100 None) world_empty);
      [reflexivity|cbn; lia|exact I].
Defined.
